(** * Conversation and notification core of the social API

    A shallow embedding of the request handlers of [src/routes/chats.js]
    (chat creation, send, list, mark-read, follow, unfollow), of the
    dispatcher of [src/utils/notifications.js] and of the like and comment
    handlers of the posts routes, over a document store modelled as finite
    maps from document ids to records.

    Conventions of the embedding:
    - a Firestore collection is a [gmap string _] from document id to data;
    - a JS object used as a dictionary ([unreadCount]) is a [gmap string Z];
    - a value that may be [undefined] is an [option];
    - a string is the sequence of the bytes of its UTF-8 encoding;
    - an exception that the [catch] block of a handler turns into the
      answer 500 gives the message [error.message || fallback], written
      [MessageOr fallback]: the text an error carries is not modelled;
    - everything the handlers obtain from the outside world (clock,
      generated document ids, whether a commit resolves, what the push
      gateway answers) is a field of an explicit environment [Env];
    - a handler is a function from the environment, the request and the
      store to a response and the store it leaves behind.  Where a handler
      awaits between reading a document and committing writes computed from
      it, the continuation after the read is a function of its own (its
      name ends in [_with]), so that interleavings of two requests can be
      written down. *)

From Stdlib Require Import ZArith Bool.
From stdpp Require Import gmap strings list fin_maps sorting.

Local Open Scope Z_scope.
Local Open Scope string_scope.
Set Warnings "-clear-no-such-hyp".

(** ** JavaScript helpers *)

Module JS.

(** Truthiness of a possibly-undefined string: [undefined] and [''] are
    falsy. *)
Definition truthy (s : option string) : bool :=
  match s with
  | None | Some "" => false
  | Some _ => true
  end.

(** [s || ''] *)
Definition or_empty (s : option string) : string := default "" s.

(** The value of a byte. *)
Definition byte (c : Ascii.ascii) : N := Ascii.N_of_ascii c.

(** The white space that [String.prototype.trim] removes is the WhiteSpace
    and the LineTerminator of ECMAScript: U+0009 to U+000D, U+0020, U+00A0,
    U+1680, U+2000 to U+200A, U+2028, U+2029, U+202F, U+205F, U+3000 and
    U+FEFF.  In UTF-8 these are the following sequences of one, two and
    three bytes. *)
Definition space1 (c : Ascii.ascii) : bool :=
  ((9 <=? byte c) && (byte c <=? 13) || (byte c =? 32))%N.

Definition space2 (c1 c2 : Ascii.ascii) : bool :=
  ((byte c1 =? 194) && (byte c2 =? 160))%N.

Definition space3 (c1 c2 c3 : Ascii.ascii) : bool :=
  ((byte c1 =? 225) && (byte c2 =? 154) && (byte c3 =? 128)
   || (byte c1 =? 226) && (byte c2 =? 128) &&
        ((128 <=? byte c3) && (byte c3 <=? 138)
         || (byte c3 =? 168) || (byte c3 =? 169) || (byte c3 =? 175))
   || (byte c1 =? 226) && (byte c2 =? 129) && (byte c3 =? 159)
   || (byte c1 =? 227) && (byte c2 =? 128) && (byte c3 =? 128)
   || (byte c1 =? 239) && (byte c2 =? 187) && (byte c3 =? 191))%N.

(** The string is one white space character. *)
Definition is_space (s : string) : bool :=
  match s with
  | String c1 "" => space1 c1
  | String c1 (String c2 "") => space2 c1 c2
  | String c1 (String c2 (String c3 "")) => space3 c1 c2 c3
  | _ => false
  end.

(** The string starts with a white space character. *)
Definition starts_with_space (s : string) : bool :=
  match s with
  | "" => false
  | String c1 s1 =>
      space1 c1 ||
      match s1 with
      | "" => false
      | String c2 s2 =>
          space2 c1 c2 ||
          match s2 with
          | "" => false
          | String c3 _ => space3 c1 c2 c3
          end
      end
  end.

(** [String.prototype.trimStart]. *)
Fixpoint trimStart (s : string) : string :=
  match s with
  | "" => ""
  | String c1 s1 =>
      if space1 c1 then trimStart s1 else
      match s1 with
      | "" => s
      | String c2 s2 =>
          if space2 c1 c2 then trimStart s2 else
          match s2 with
          | "" => s
          | String c3 s3 => if space3 c1 c2 c3 then trimStart s3 else s
          end
      end
  end.

(** [String.prototype.trimEnd]: what is left of the string once the white
    space at its end is removed.  The tail is trimmed first; when the first
    byte and what is left of the tail make up one white space character,
    nothing is left. *)
Fixpoint trimEnd (s : string) : string :=
  match s with
  | "" => ""
  | String c s' =>
      let t := String c (trimEnd s') in
      if is_space t then "" else t
  end.

(** [String.prototype.trim]. *)
Definition trim (s : string) : string := trimEnd (trimStart s).

(** Every character of the string is white space. *)
Fixpoint all_space (s : string) : bool :=
  match s with
  | "" => true
  | String c1 s1 =>
      if space1 c1 then all_space s1 else
      match s1 with
      | "" => false
      | String c2 s2 =>
          if space2 c1 c2 then all_space s2 else
          match s2 with
          | "" => false
          | String c3 s3 => if space3 c1 c2 c3 then all_space s3 else false
          end
      end
  end.

(** [Array.prototype.find]. *)
Fixpoint find {A} (p : A → bool) (l : list A) : option A :=
  match l with
  | [] => None
  | x :: l' => if p x then Some x else find p l'
  end.

(** [Array.prototype.includes] on strings. *)
Definition includes (l : list string) (x : string) : bool :=
  bool_decide (x ∈ l).

(** [o[k] || 0] on a dictionary of numbers. *)
Definition get_or_zero (o : gmap string Z) (k : string) : Z :=
  default 0 (o !! k).

(** The property key a possibly-undefined value is coerced to. *)
Definition prop_key (k : option string) : string := default "undefined" k.

(** The number of UTF-16 code units of the character that a byte starts:
    none for a continuation byte, two for the first byte of a character
    outside the Basic Multilingual Plane. *)
Definition units_of_byte (c : Ascii.ascii) : nat :=
  if (byte c <? 128)%N then 1
  else if (byte c <? 192)%N then 0
  else if (byte c <? 240)%N then 1
  else 2.

(** [s.length]: the number of UTF-16 code units. *)
Fixpoint length (s : string) : nat :=
  match s with
  | "" => 0
  | String c s' => (units_of_byte c + length s')%nat
  end.

(** [s.substring(0, n)]: the characters that lie within the first [n]
    code units.  A character outside the Basic Multilingual Plane of which
    only the first of its two code units lies within them is left out: the
    half that [substring] keeps has no UTF-8 encoding. *)
Fixpoint substring_to (n : nat) (s : string) : string :=
  match s with
  | "" => ""
  | String c s' =>
      if (units_of_byte c <=? n)%nat
      then String c (substring_to (n - units_of_byte c) s')
      else ""
  end.

(** The rank of a byte in the order of the UTF-16 code units.  Code units
    are ordered as the bytes of UTF-8 are, but for the characters outside
    the Basic Multilingual Plane: their code units are surrogates, below
    the characters U+E000 to U+FFFF, while their first bytes, 240 to 244,
    are above the first bytes 238 and 239 of those.  The rank moves 238 and
    239 up to 254 and 255, bytes that no UTF-8 encoding has. *)
Definition unit_rank (c : Ascii.ascii) : Ascii.ascii :=
  if (byte c =? 238)%N then Ascii.ascii_of_N 254
  else if (byte c =? 239)%N then Ascii.ascii_of_N 255
  else if (byte c =? 254)%N then Ascii.ascii_of_N 238
  else if (byte c =? 255)%N then Ascii.ascii_of_N 239
  else c.

Fixpoint ranks (s : string) : string :=
  match s with
  | "" => ""
  | String c s' => String (unit_rank c) (ranks s')
  end.

(** [String(a) < String(b)] as the default [Array.prototype.sort]
    comparator uses it: the order of the UTF-16 code units. *)
Definition str_lt (a b : string) : bool := negb (String.leb (ranks b) (ranks a)).

(** [[a, b].sort()] *)
Definition sort2 (a b : string) : list string :=
  if str_lt b a then [b; a] else [a; b].

(** [l.join(sep)] *)
Fixpoint join (sep : string) (l : list string) : string :=
  match l with
  | [] => ""
  | [x] => x
  | x :: l' => x +:+ sep +:+ join sep l'
  end.

End JS.

(** ** Document ids and document paths

    The argument of [collection.doc(path)] is a path relative to the
    collection.  The client library refuses, by throwing, the empty string
    and a string with two ['/'] in a row; it splits the others at ['/'],
    drops the empty segments at the two ends, and throws unless the
    segments end at a document, which is when their number is odd: ['x/y']
    names a collection under the document ['x'], and [doc] throws.  A
    document id is a non-empty string without ['/']; it is a path of one
    segment, the document of that id.

    The documents of a collection are stored under document ids, so
    [doc(id).get()] finds the document stored under [id] when there is one.
    No handler writes below a document of a collection, so a path of three
    segments or more names a document that does not exist.  A path of one
    segment with a ['/'] at one of its ends is looked up as it is written,
    and names no stored document. *)

Fixpoint contains_char (ch : Ascii.ascii) (s : string) : bool :=
  match s with
  | "" => false
  | String c s' => bool_decide (c = ch) || contains_char ch s'
  end.

(** The character of the path separator ["/"]. *)
Definition slash : Ascii.ascii :=
  match "/" with
  | String c _ => c
  | "" => Ascii.zero
  end.

Definition doc_id (id : string) : bool :=
  negb (bool_decide (id = "")) && negb (contains_char slash id).

(** The number of the non-empty segments of a path; [inside] says that the
    character before belongs to a segment. *)
Fixpoint segments (inside : bool) (path : string) : nat :=
  match path with
  | "" => 0
  | String c path' =>
      if bool_decide (c = slash) then segments false path'
      else ((if inside then 0 else 1) + segments true path')%nat
  end.

(** The path has two ['/'] in a row. *)
Fixpoint has_empty_segment (path : string) : bool :=
  match path with
  | "" => false
  | String c path' =>
      match path' with
      | "" => false
      | String c' _ =>
          bool_decide (c = slash) && bool_decide (c' = slash)
          || has_empty_segment path'
      end
  end.

(** [collection.doc(path)] returns a reference, and does not throw. *)
Definition points_to_document (path : string) : bool :=
  negb (bool_decide (path = "")) && negb (has_empty_segment path) &&
  Nat.odd (segments false path).

(** ** Documents *)

Record LastMessage := {
  lm_text : string;
  lm_senderId : string;
  lm_type : string
}.

Record Chat := {
  chat_chatId : string;
  chat_participants : list string;
  chat_createdAt : Z;
  chat_lastMessageAt : Z;
  chat_lastMessage : LastMessage;
  chat_unreadCount : gmap string Z
}.

Record Message := {
  msg_messageId : string;
  msg_chatId : string;
  msg_senderId : string;
  msg_text : string;
  msg_mediaUrl : string;
  msg_type : string;
  msg_read : bool;
  msg_createdAt : Z
}.

Record User := {
  user_name : string;
  user_username : string;
  user_profilePic : string;
  user_following : list string;
  user_followers : list string;
  user_fcmTokens : option (list string)
}.

Record Notification := {
  ntf_notificationId : string;
  ntf_userId : string;
  ntf_type : string;
  ntf_actorId : string;
  ntf_actorName : string;
  ntf_message : string;
  ntf_data : list (string * string);
  ntf_read : bool;
  ntf_createdAt : Z
}.

Record Follow := {
  fol_followerId : string;
  fol_followingId : string;
  fol_createdAt : Z
}.

(** The five collections the core touches. *)
Record Store := {
  users : gmap string User;
  chats : gmap string Chat;
  messages : gmap string Message;
  notifications : gmap string Notification;
  follows : gmap string Follow
}.

Global Instance LastMessage_eq_dec : EqDecision LastMessage.
Proof. solve_decision. Defined.
Global Instance Message_eq_dec : EqDecision Message.
Proof. solve_decision. Defined.

Definition set_chats (f : gmap string Chat → gmap string Chat) (st : Store) : Store :=
  {| users := users st; chats := f (chats st); messages := messages st;
     notifications := notifications st; follows := follows st |}.

Definition set_messages (f : gmap string Message → gmap string Message) (st : Store) : Store :=
  {| users := users st; chats := chats st; messages := f (messages st);
     notifications := notifications st; follows := follows st |}.

Definition set_users (f : gmap string User → gmap string User) (st : Store) : Store :=
  {| users := f (users st); chats := chats st; messages := messages st;
     notifications := notifications st; follows := follows st |}.

Definition set_notifications
    (f : gmap string Notification → gmap string Notification) (st : Store) : Store :=
  {| users := users st; chats := chats st; messages := messages st;
     notifications := f (notifications st); follows := follows st |}.

Definition set_follows (f : gmap string Follow → gmap string Follow) (st : Store) : Store :=
  {| users := users st; chats := chats st; messages := messages st;
     notifications := notifications st; follows := f (follows st) |}.

(** Field updates of single documents, as [update(ref, {field: v})] does. *)
Definition msg_set_read (m : Message) : Message :=
  {| msg_messageId := msg_messageId m; msg_chatId := msg_chatId m;
     msg_senderId := msg_senderId m; msg_text := msg_text m;
     msg_mediaUrl := msg_mediaUrl m; msg_type := msg_type m;
     msg_read := true; msg_createdAt := msg_createdAt m |}.

Definition chat_set_unreadCount (u : gmap string Z) (c : Chat) : Chat :=
  {| chat_chatId := chat_chatId c; chat_participants := chat_participants c;
     chat_createdAt := chat_createdAt c; chat_lastMessageAt := chat_lastMessageAt c;
     chat_lastMessage := chat_lastMessage c; chat_unreadCount := u |}.

Definition chat_set_last (lm : LastMessage) (at_ : Z) (u : gmap string Z) (c : Chat) : Chat :=
  {| chat_chatId := chat_chatId c; chat_participants := chat_participants c;
     chat_createdAt := chat_createdAt c; chat_lastMessageAt := at_;
     chat_lastMessage := lm; chat_unreadCount := u |}.

Definition ntf_set_read (n : Notification) : Notification :=
  {| ntf_notificationId := ntf_notificationId n; ntf_userId := ntf_userId n;
     ntf_type := ntf_type n; ntf_actorId := ntf_actorId n;
     ntf_actorName := ntf_actorName n; ntf_message := ntf_message n;
     ntf_data := ntf_data n; ntf_read := true; ntf_createdAt := ntf_createdAt n |}.

Definition user_set_fcmTokens (t : option (list string)) (u : User) : User :=
  {| user_name := user_name u; user_username := user_username u;
     user_profilePic := user_profilePic u; user_following := user_following u;
     user_followers := user_followers u; user_fcmTokens := t |}.

Definition user_set_following (l : list string) (u : User) : User :=
  {| user_name := user_name u; user_username := user_username u;
     user_profilePic := user_profilePic u; user_following := l;
     user_followers := user_followers u; user_fcmTokens := user_fcmTokens u |}.

Definition user_set_followers (l : list string) (u : User) : User :=
  {| user_name := user_name u; user_username := user_username u;
     user_profilePic := user_profilePic u; user_following := user_following u;
     user_followers := l; user_fcmTokens := user_fcmTokens u |}.

(** ** The outside world *)

(** What the push gateway answers for one [sendToDevice] call: the promise
    resolves, whatever the response it resolves with says of the delivery,
    or rejects with an error carrying a [code]. *)
Inductive PushResult :=
  | Delivered
  | Rejected (code : string).

(** The environment of one request: [now] is what [new Date()] returns;
    [auto_id] and [notif_id] are the ids of the references made by
    [collections.messages.doc()] and [collections.notifications.doc()];
    [commit_ok] says whether the write of the handler (a [set], a
    transaction, the commit of a batch) resolves, [notif_set_ok] whether
    [notificationRef.set] does; [gateway i t] is the answer to the [i]-th
    call of the fan-out, made for token [t].  Reads always resolve. *)
Record Env := {
  now : Z;
  auto_id : string;
  notif_id : string;
  commit_ok : bool;
  notif_set_ok : bool;
  gateway : nat → string → PushResult
}.

(** ** Responses *)

Record OtherUser := {
  ou_uid : string;
  ou_name : string;
  ou_username : string;
  ou_profilePic : string
}.

Inductive Payload :=
  | NoData
  | ChatView (chatId : string) (otherUser : OtherUser)
      (lastMessage : LastMessage) (lastMessageAt : Z) (unreadCount : Z)
  | SentMessage (m : Message)
  | MessagePage (ms : list Message) (lastId : option string) (hasMore : bool).

(** The [message] of an answer: a literal of the source, or, in the answer
    of a [catch] block, [error.message || fallback]. *)
Inductive Text :=
  | Literal (s : string)
  | MessageOr (fallback : string).

Coercion Literal : string >-> Text.

Record Response := {
  status : nat;
  message : Text;
  data : Payload
}.

Definition fail (code : nat) (msg : string) : Response :=
  {| status := code; message := msg; data := NoData |}.

(** The answer of the [catch] block of a handler. *)
Definition thrown (fallback : string) : Response :=
  {| status := 500; message := MessageOr fallback; data := NoData |}.

(** The error kinds of the specification, by status code. *)
Definition InvalidInput : nat := 400%nat.
Definition Forbidden : nat := 403%nat.
Definition NotFound : nat := 404%nat.

(** ** Ordered queries with a limit and a cursor

    [where(...).orderBy('createdAt', 'desc').limit(n)], optionally with
    [startAfter(doc)].  Documents with equal [createdAt] are ordered by
    document id, in the same direction. *)

Section Query.

Context {A : Type} (createdAt : A → Z).

(** [d1] is at or before the position of [d2] in the descending order. *)
Definition at_or_before (d1 d2 : string * A) : Prop :=
  createdAt d2.2 < createdAt d1.2 ∨
  (createdAt d1.2 = createdAt d2.2 ∧ String.le d2.1 d1.1).

Global Instance at_or_before_dec : RelDecision at_or_before.
Proof. intros d1 d2. unfold at_or_before. apply _. Defined.

Definition order_desc (l : list (string * A)) : list (string * A) :=
  merge_sort at_or_before l.

(** [query.startAfter(doc)]: what lies strictly after the position of
    [doc]. *)
Definition startAfter (c : string * A) (l : list (string * A)) : list (string * A) :=
  filter (λ d, ¬ at_or_before d c) l.

(** [where(p).orderBy('createdAt', 'desc')]: the documents of the
    collection that satisfy the predicate, in descending order. *)
Definition candidates (coll : gmap string A) (p : A → bool) : list (string * A) :=
  order_desc (filter (λ d, p d.2 = true) (map_to_list coll)).

(** What the cursor of a request does to a query. *)
Inductive Cursor :=
  | FromTop
  | After (c : string * A)
  | CursorThrows.

(** [if (lastId) { lastDoc = await coll.doc(lastId).get();
    if (lastDoc.exists) query = query.startAfter(lastDoc) }]: a falsy
    [lastId] leaves the query as it is, and so does the path of a document
    that does not exist; for a string that is not the path of a document
    [doc] throws. *)
Definition cursor_of (coll : gmap string A) (lastId : option string) : Cursor :=
  if JS.truthy lastId then
    match coll !! JS.or_empty lastId with
    | Some c => After (JS.or_empty lastId, c)
    | None => if points_to_document (JS.or_empty lastId) then FromTop else CursorThrows
    end
  else FromTop.

(** The documents of the page that follows the cursor [c]. *)
Definition page_after (coll : gmap string A) (p : A → bool)
    (limit : nat) (c : option (string * A)) : list (string * A) :=
  let all := candidates coll p in
  take limit (match c with Some c => startAfter c all | None => all end).

(** The documents a paginated query returns; [None] when making the
    cursor throws. *)
Definition run_query (coll : gmap string A) (p : A → bool)
    (limit : nat) (lastId : option string) : option (list (string * A)) :=
  match cursor_of coll lastId with
  | FromTop => Some (page_after coll p limit None)
  | After c => Some (page_after coll p limit (Some c))
  | CursorThrows => None
  end.

(** [docs.length > 0 ? docs[docs.length - 1].id : null] *)
Definition page_lastId (docs : list (string * A)) : option string :=
  fst <$> last docs.

(** [docs.length >= parseInt(limit)] *)
Definition page_hasMore (docs : list (string * A)) (limit : nat) : bool :=
  bool_decide (limit ≤ length docs)%nat.

End Query.

Arguments FromTop {A}.
Arguments After {A} c.
Arguments CursorThrows {A}.

(** [parseInt(limit)] of the query parameter, whose default is 20.  The
    parameter is taken after parsing, for requests whose [limit] parses to
    a natural number. *)
Definition parseInt_limit (limit : option nat) : nat := default 20%nat limit.

(** ** Notification dispatcher ([src/utils/notifications.js]) *)

Record NotifyParams := {
  np_userId : string;
  np_type : string;
  np_actorId : string;
  np_actorName : string;
  np_message : string;
  np_data : list (string * string)
}.

(** The two error codes after which a token is dropped. *)
Definition invalid_token_code (code : string) : bool :=
  bool_decide (code = "messaging/invalid-registration-token") ||
  bool_decide (code = "messaging/registration-token-not-registered").

(** The namespace [FieldValue] of the Firestore module, with its
    [arrayRemove(token)] as the function it applies to the stored array. *)
Record FieldValue := {
  arrayRemove : string → list string → list string
}.

Definition firestore_FieldValue : FieldValue :=
  {| arrayRemove := λ token l, filter (λ t, t ≠ token) l |}.

(** [db.FieldValue].  The [db] that [src/unnamed/part_000] exports is
    [admin.firestore()], the database instance; [FieldValue] is a property
    of the module function [admin.firestore], not of the instance it
    returns, and nothing in the source adds it: the value is
    [undefined]. *)
Definition db_FieldValue : option FieldValue := None.

(** [collections.users.doc(userId).update({fcmTokens:
    db.FieldValue.arrayRemove(token)})] in the catch handler of a delivery:
    with [db.FieldValue] undefined, evaluating the argument throws a
    TypeError before [update] is called; an update of a document that does
    not exist rejects.  [None] is the handler throwing or its promise
    rejecting. *)
Definition remove_token (userId token : string) (st : Store) : option Store :=
  match db_FieldValue with
  | None => None
  | Some fieldValue =>
      match users st !! userId with
      | Some u =>
          Some (set_users
                  (<[userId := user_set_fcmTokens
                       (Some (arrayRemove fieldValue token
                                (default [] (user_fcmTokens u)))) u]>) st)
      | None => None
      end
  end.

(** What a call of the dispatcher did: whether it threw, the tokens a
    delivery was attempted for, in order, and the store it left. *)
Record Dispatch := {
  d_threw : bool;
  d_attempts : list string;
  d_store : Store
}.

(** The fan-out [fcmTokens.map(token => sendToDevice(...).catch(...))]
    followed by [Promise.all]: a promise is started for every token; a
    rejected delivery is caught, and the catch handler goes on to remove
    the token when the error code says it is invalid.  A catch handler that
    throws, or whose removal rejects, makes [Promise.all] reject. *)
Fixpoint deliver_all (gw : nat → string → PushResult) (userId : string)
    (i : nat) (tokens : list string) (st : Store) : Dispatch :=
  match tokens with
  | [] => {| d_threw := false; d_attempts := []; d_store := st |}
  | t :: ts =>
      let '(st1, rej1) :=
        match gw i t with
        | Delivered => (st, false)
        | Rejected code =>
            if invalid_token_code code then
              match remove_token userId t st with
              | Some st' => (st', false)
              | None => (st, true)
              end
            else (st, false)
        end in
      let r := deliver_all gw userId (S i) ts st1 in
      {| d_threw := rej1 || d_threw r;
         d_attempts := t :: d_attempts r;
         d_store := d_store r |}
  end.

(** [notificationData], the record the dispatcher stores. *)
Definition notification_of (env : Env) (p : NotifyParams) : Notification :=
  {| ntf_notificationId := notif_id env; ntf_userId := np_userId p;
     ntf_type := np_type p; ntf_actorId := np_actorId p;
     ntf_actorName := np_actorName p; ntf_message := np_message p;
     ntf_data := np_data p; ntf_read := false; ntf_createdAt := now env |}.

(** [sendNotification(params)]: whatever is thrown inside is thrown
    again by its [catch] block. *)
Definition sendNotification (env : Env) (p : NotifyParams) (st : Store) : Dispatch :=
  let notificationData := notification_of env p in
  if negb (notif_set_ok env) then
    {| d_threw := true; d_attempts := []; d_store := st |}
  else
    let st1 := set_notifications (<[notif_id env := notificationData]>) st in
    match users st1 !! np_userId p with
    | None =>
        {| d_threw := negb (points_to_document (np_userId p)); d_attempts := [];
           d_store := st1 |}
    | Some userData =>
        let fcmTokens := default [] (user_fcmTokens userData) in
        if (length fcmTokens =? 0)%nat then
          {| d_threw := false; d_attempts := []; d_store := st1 |}
        else deliver_all (gateway env) (np_userId p) 0 fcmTokens st1
    end.

(** [getUserNotifications(userId, limit, lastId)]; [None] when the call
    rejects. *)
Definition getUserNotifications (userId : string) (limit : option nat)
    (lastId : option string) (st : Store)
    : option (list Notification * option string * bool) :=
  match run_query ntf_createdAt (notifications st)
          (λ n, bool_decide (ntf_userId n = userId))
          (parseInt_limit limit) lastId with
  | None => None
  | Some docs =>
      Some (snd <$> docs, page_lastId docs, page_hasMore docs (parseInt_limit limit))
  end.



(** [batch.update(ref, {read: true})] for every reference of a list. *)
Definition mark_all_read (ids : list string)
    (m : gmap string Notification) : gmap string Notification :=
  foldr (λ i acc, alter ntf_set_read i acc) m ids.

(** [notificationDoc.exists && notificationDoc.data().userId === userId] *)
Definition owned_by (userId : string) (st : Store) (i : string) : bool :=
  match notifications st !! i with
  | Some n => bool_decide (ntf_userId n = userId)
  | None => false
  end.

(** [collections.notifications.doc(notificationId)] throws: the string
    names no stored notification and is not the path of a document. *)
Definition doc_throws (st : Store) (i : string) : bool :=
  bool_decide (notifications st !! i = None) && negb (points_to_document i).

(** [markNotificationsAsRead(userId, notificationIds = [])]; [None] is the
    call without the second argument.  The result is [None] when the call
    rejects: a reference of the loop could not be made, or the batch did
    not commit. *)
Definition markNotificationsAsRead (env : Env) (userId : string)
    (notificationIds : option (list string)) (st : Store) : option Store :=
  let ids := default [] notificationIds in
  let targets :=
    if bool_decide (0 < length ids)%nat then
      if existsb (doc_throws st) ids then None
      else Some (filter (λ i, owned_by userId st i = true) ids)
    else
      Some (fst <$> filter (λ d, ntf_userId d.2 = userId ∧ ntf_read d.2 = false)
                      (map_to_list (notifications st))) in
  match targets with
  | Some refs =>
      if commit_ok env then Some (set_notifications (mark_all_read refs) st)
      else None
  | None => None
  end.

(** ** Conversation manager ([src/routes/chats.js]) *)

(** [[uid, otherUserId].sort().join('_')] *)
Definition chatIdOf (uid otherUserId : string) : string :=
  JS.join "_" (JS.sort2 uid otherUserId).

Definition emptyLastMessage : LastMessage :=
  {| lm_text := ""; lm_senderId := ""; lm_type := "text" |}.

Definition otherUserOf (otherUserId : string) (u : User) : OtherUser :=
  {| ou_uid := otherUserId; ou_name := user_name u;
     ou_username := user_username u; ou_profilePic := user_profilePic u |}.

(** [POST /api/chats/create].  [doc(chatId)] throws, before anything is
    written, when the chat id is not the path of a document. *)
Definition createChat (env : Env) (uid : string) (otherUserId : option string)
    (st : Store) : Response * Store :=
  if negb (JS.truthy otherUserId) then
    (fail 400 "Other user ID is required", st)
  else
    let other := JS.or_empty otherUserId in
    match users st !! other with
    | None =>
        if points_to_document other then (fail 404 "User not found", st)
        else (thrown "Failed to create chat", st)
    | Some otherParticipantData =>
        let participants := JS.sort2 uid other in
        let chatId := JS.join "_" participants in
        match chats st !! chatId with
        | Some chatData =>
            ({| status := 200; message := "Chat already exists";
                data := ChatView (chat_chatId chatData)
                          (otherUserOf other otherParticipantData)
                          (chat_lastMessage chatData) (chat_lastMessageAt chatData)
                          (JS.get_or_zero (chat_unreadCount chatData) uid) |}, st)
        | None =>
            let chatData :=
              {| chat_chatId := chatId; chat_participants := participants;
                 chat_createdAt := now env; chat_lastMessageAt := now env;
                 chat_lastMessage := emptyLastMessage;
                 chat_unreadCount := <[other := 0]> (<[uid := 0]> ∅) |} in
            if points_to_document chatId && commit_ok env then
              ({| status := 201; message := "Chat created successfully";
                  data := ChatView chatId (otherUserOf other otherParticipantData)
                            (chat_lastMessage chatData) (chat_lastMessageAt chatData) 0 |},
               set_chats (<[chatId := chatData]>) st)
            else (thrown "Failed to create chat", st)
        end
    end.

(** The body of a send request, for bodies whose fields are strings where
    they are present; [type] defaults to ['text']. *)
Record SendBody := {
  body_text : option string;
  body_mediaUrl : option string;
  body_type : option string
}.

Definition type_of (b : SendBody) : string := default "text" (body_type b).

(** The two input checks at the head of the send handler. *)
Definition text_missing (b : SendBody) : bool :=
  bool_decide (type_of b = "text") &&
  (negb (JS.truthy (body_text b)) ||
   bool_decide (JS.trim (JS.or_empty (body_text b)) = "")).

Definition media_missing (b : SendBody) : bool :=
  bool_decide (type_of b = "image") && negb (JS.truthy (body_mediaUrl b)).

(** [type === 'text' ? text : alt]; past the input checks the text of a
    request of kind text is a non-empty string. *)
Definition text_or (b : SendBody) (alt : string) : string :=
  if bool_decide (type_of b = "text") then JS.or_empty (body_text b) else alt.

Definition messageData_of (env : Env) (uid chatId : string) (b : SendBody) : Message :=
  {| msg_messageId := auto_id env; msg_chatId := chatId; msg_senderId := uid;
     msg_text := JS.or_empty (body_text b);
     msg_mediaUrl := JS.or_empty (body_mediaUrl b);
     msg_type := type_of b; msg_read := false; msg_createdAt := now env |}.

(** The unread counters the send handler writes, computed from the chat
    data it read: [{...chatData.unreadCount}] with the entry of the other
    participant set to [(unreadCount[other] || 0) + 1]. *)
Definition incremented (chatData : Chat) (otherParticipantId : option string)
    : gmap string Z :=
  <[JS.prop_key otherParticipantId :=
      JS.get_or_zero (chat_unreadCount chatData) (JS.prop_key otherParticipantId) + 1]>
    (chat_unreadCount chatData).

(** The callback handed to [db.runTransaction] by the send handler.  It
    reads nothing through the transaction: its two writes are computed from
    values captured before, so running it again yields the same writes.
    The result is [None] when the chat document is not there to update. *)
Definition send_transaction (env : Env) (uid chatId : string) (b : SendBody)
    (chatData : Chat) (otherParticipantId : option string) (st : Store)
    : option Store :=
  match chats st !! chatId with
  | None => None
  | Some current =>
      Some (set_chats
              (<[chatId := chat_set_last
                   {| lm_text := text_or b "Sent an image"; lm_senderId := uid;
                      lm_type := type_of b |}
                   (now env) (incremented chatData otherParticipantId) current]>)
              (set_messages (<[auto_id env := messageData_of env uid chatId b]>) st))
  end.

(** [db.runTransaction(callback)]: the writes of the callback are applied
    together, or the call rejects and nothing is written.  The callback
    runs against the store as it is when the transaction commits, which is
    what a transaction run again after a conflict sees. *)
Definition runTransaction (env : Env) (callback : Store → option Store)
    (st : Store) : option Store :=
  if commit_ok env then callback st else None.

(** The [try { ... } catch (notificationError) { ... }] block of the send
    handler: whatever is thrown inside is swallowed; the store keeps what
    the dispatcher wrote before throwing. *)
Definition notify_message (env : Env) (uid chatId : string) (b : SendBody)
    (otherParticipantId : option string) (st : Store) : Dispatch :=
  match users st !! uid, otherParticipantId with
  | Some senderData, Some other =>
      sendNotification env
        {| np_userId := other; np_type := "message"; np_actorId := uid;
           np_actorName := user_name senderData;
           np_message := user_name senderData +:+ ": " +:+ text_or b "Sent you an image";
           np_data := [("chatId", chatId); ("messageId", auto_id env)] |} st
  | _, _ => {| d_threw := true; d_attempts := []; d_store := st |}
  end.

(** The send handler from the point where [chatData] has been read. *)
Definition sendMessage_with (env : Env) (uid chatId : string) (b : SendBody)
    (chatData : Chat) (st : Store) : Response * Store :=
  if negb (JS.includes (chat_participants chatData) uid) then
    (fail 403 "Not authorized to send messages in this chat", st)
  else
    let otherParticipantId :=
      JS.find (λ id, negb (bool_decide (id = uid))) (chat_participants chatData) in
    match runTransaction env
            (send_transaction env uid chatId b chatData otherParticipantId) st with
    | None => (thrown "Failed to send message", st)
    | Some st1 =>
        let d := notify_message env uid chatId b otherParticipantId st1 in
        ({| status := 201; message := "Message sent successfully";
            data := SentMessage (messageData_of env uid chatId b) |}, d_store d)
    end.

(** [POST /api/chats/:chatId/send] *)
Definition sendMessage (env : Env) (uid chatId : string) (b : SendBody)
    (st : Store) : Response * Store :=
  if text_missing b then (fail 400 "Message text is required", st)
  else if media_missing b then
    (fail 400 "Media URL is required for image messages", st)
  else
    match chats st !! chatId with
    | None =>
        if points_to_document chatId then (fail 404 "Chat not found", st)
        else (thrown "Failed to send message", st)
    | Some chatData => sendMessage_with env uid chatId b chatData st
    end.

(** [messageData.senderId !== uid && !messageData.read] *)
Definition unread_for (uid : string) (m : Message) : bool :=
  negb (bool_decide (msg_senderId m = uid)) && negb (msg_read m).

(** The references a batch flips to read. *)
Definition flip_read (ids : list string) (m : gmap string Message) : gmap string Message :=
  foldr (λ i acc, alter msg_set_read i acc) m ids.

(** [batch.update(chatRef, {unreadCount: u})] *)
Definition update_unreadCount (chatId : string) (u : gmap string Z)
    (m : gmap string Chat) : gmap string Chat :=
  alter (chat_set_unreadCount u) chatId m.

(** The list handler from the point where [chatData] has been read. *)
Definition listMessages_with (env : Env) (uid chatId : string)
    (limit : option nat) (lastId : option string) (chatData : Chat) (st : Store)
    : Response * Store :=
  if negb (JS.includes (chat_participants chatData) uid) then
    (fail 403 "Not authorized to view messages in this chat", st)
  else
    match run_query msg_createdAt (messages st)
            (λ m, bool_decide (msg_chatId m = chatId))
            (parseInt_limit limit) lastId with
    | None => (thrown "Failed to get messages", st)
    | Some docs =>
        let flipped := fst <$> filter (λ d, unread_for uid d.2 = true) docs in
        let unreadCount := Z.of_nat (length flipped) in
        let st1 := set_messages (flip_read flipped) st in
        let st2 :=
          if bool_decide (0 < unreadCount) then
            set_chats
              (update_unreadCount chatId
                 (<[uid := Z.max 0 (JS.get_or_zero (chat_unreadCount chatData) uid
                                    - unreadCount)]>
                    (chat_unreadCount chatData))) st1
          else st1 in
        if commit_ok env then
          ({| status := 200; message := "";
              data := MessagePage (snd <$> docs) (page_lastId docs)
                        (page_hasMore docs (parseInt_limit limit)) |}, st2)
        else (thrown "Failed to get messages", st)
    end.

(** [GET /api/chats/:chatId/messages] *)
Definition listMessages (env : Env) (uid chatId : string)
    (limit : option nat) (lastId : option string) (st : Store) : Response * Store :=
  match chats st !! chatId with
  | None =>
      if points_to_document chatId then (fail 404 "Chat not found", st)
      else (thrown "Failed to get messages", st)
  | Some chatData => listMessages_with env uid chatId limit lastId chatData st
  end.

(** The result of
    [where('chatId','==',chatId).where('senderId','!=',uid).where('read','==',false)]. *)
Definition unread_messages (uid chatId : string) (st : Store) : list (string * Message) :=
  filter (λ d, msg_chatId d.2 = chatId ∧ unread_for uid d.2 = true)
    (map_to_list (messages st)).

(** [POST /api/chats/:chatId/read] *)
Definition markChatRead (env : Env) (uid chatId : string) (st : Store)
    : Response * Store :=
  match chats st !! chatId with
  | None =>
      if points_to_document chatId then (fail 404 "Chat not found", st)
      else (thrown "Failed to mark messages as read", st)
  | Some chatData =>
      if negb (JS.includes (chat_participants chatData) uid) then
        (fail 403 "Not authorized to access this chat", st)
      else
        let unreadMessagesSnapshot := unread_messages uid chatId st in
        if bool_decide (unreadMessagesSnapshot ≠ []) then
          if commit_ok env then
            ({| status := 200; message := "Messages marked as read"; data := NoData |},
             set_chats
               (update_unreadCount chatId (<[uid := 0]> (chat_unreadCount chatData)))
               (set_messages (flip_read (fst <$> unreadMessagesSnapshot)) st))
          else (thrown "Failed to mark messages as read", st)
        else
          ({| status := 200; message := "Messages marked as read"; data := NoData |}, st)
  end.

(** ** Follow ([POST /api/users/follow/:userId]) *)

(** The three writes of the follow transaction. *)
Definition follow_transaction (env : Env) (currentUserId userId : string)
    (currentUserData targetUserData : User) (st : Store) : option Store :=
  match users st !! currentUserId, users st !! userId with
  | Some _, Some _ =>
      Some (set_follows
              (<[currentUserId +:+ "_" +:+ userId :=
                   {| fol_followerId := currentUserId; fol_followingId := userId;
                      fol_createdAt := now env |}]>)
              (set_users
                 (λ us, alter (user_set_followers
                                 (user_followers targetUserData ++ [currentUserId]))
                          userId
                          (alter (user_set_following
                                    (user_following currentUserData ++ [userId]))
                             currentUserId us)) st))
  | _, _ => None
  end.

Definition follow (env : Env) (currentUserId userId : string) (st : Store)
    : Response * Store :=
  if bool_decide (currentUserId = userId) then
    (fail 400 "Cannot follow yourself", st)
  else
    match users st !! userId with
    | None =>
        if points_to_document userId then (fail 404 "User not found", st)
        else (thrown "Failed to follow user", st)
    | Some targetUserData =>
        match users st !! currentUserId with
        | None => (thrown "Failed to follow user", st)
        | Some currentUserData =>
            if JS.includes (user_following currentUserData) userId then
              (fail 400 "Already following this user", st)
            else
              match runTransaction env
                      (follow_transaction env currentUserId userId
                         currentUserData targetUserData) st with
              | None => (thrown "Failed to follow user", st)
              | Some st1 =>
                  let d := sendNotification env
                    {| np_userId := userId; np_type := "follow";
                       np_actorId := currentUserId;
                       np_actorName := user_name currentUserData;
                       np_message := user_name currentUserData +:+ " started following you";
                       np_data := [("followerId", currentUserId)] |} st1 in
                  if d_threw d then (thrown "Failed to follow user", d_store d)
                  else
                    ({| status := 200; message := "User followed successfully";
                        data := NoData |}, d_store d)
              end
        end
    end.


(** ** The preconditions of a send, in the words of the specification *)

(** A text that is absent, empty or made of white space only. *)
Definition blank (text : option string) : Prop :=
  match text with
  | None => True
  | Some s => JS.all_space s = true
  end.

(** A media reference that is absent or empty. *)
Definition no_reference (mediaUrl : option string) : Prop :=
  mediaUrl = None ∨ mediaUrl = Some "".

Definition text_request_blank (b : SendBody) : Prop :=
  type_of b = "text" ∧ blank (body_text b).

Definition image_request_without_media (b : SendBody) : Prop :=
  type_of b = "image" ∧ no_reference (body_mediaUrl b).

(** The chat id carried by a response, when it carries a chat. *)
Definition resp_chatId (r : Response) : option string :=
  match data r with
  | ChatView chatId _ _ _ _ => Some chatId
  | _ => None
  end.

(** ** Cursors and page sizes of a request *)

(** A cursor that names a position or none: it is absent or empty, or the
    id of a stored document, or a document id. *)
Definition accepted_cursor {A} (coll : gmap string A) (lastId : option string) : Prop :=
  JS.truthy lastId = false ∨ is_Some (coll !! JS.or_empty lastId) ∨
  doc_id (JS.or_empty lastId) = true.

(** A cursor that names no position: it is absent or empty, or a document
    id under which nothing is stored. *)
Definition empty_cursor {A} (coll : gmap string A) (lastId : option string) : Prop :=
  JS.truthy lastId = false ∨
  (coll !! JS.or_empty lastId = None ∧ doc_id (JS.or_empty lastId) = true).

(** The page size a [limit] parameter asks for: its value, or 20 when the
    parameter is absent. *)
Definition asks_for (limit : option nat) (pageSize : nat) : Prop :=
  limit = Some pageSize ∨ (limit = None ∧ pageSize = 20%nat).

(** ** The outcome of a fan-out, in the words of the specification *)

(** The answer says that the token is no longer valid. *)
Definition invalid_answer (r : PushResult) : bool :=
  match r with
  | Delivered => false
  | Rejected code => invalid_token_code code
  end.

(** The tokens of a fan-out starting at call number [i] whose delivery
    failed with an invalid-token answer. *)
Fixpoint dropped (gw : nat → string → PushResult) (i : nat)
    (tokens : list string) : list string :=
  match tokens with
  | [] => []
  | t :: ts =>
      if invalid_answer (gw i t) then t :: dropped gw (S i) ts
      else dropped gw (S i) ts
  end.

(** A dispatch to the recipient [userId] goes through: the store accepts
    the notification record, and either the recipient has a user record and
    no delivery to one of its tokens is answered with an invalid-token
    error, or it has none and its id is a document id. *)
Definition dispatch_succeeds (env : Env) (st : Store) (userId : string) : Prop :=
  notif_set_ok env = true ∧
  match users st !! userId with
  | Some u => dropped (gateway env) 0 (default [] (user_fcmTokens u)) = []
  | None => doc_id userId = true
  end.

(** A dispatch to the recipient [userId] fails: the store refuses the
    notification record, or the recipient has a user record and a delivery
    to one of its tokens is answered with an invalid-token error. *)
Definition dispatch_fails (env : Env) (st : Store) (userId : string) : Prop :=
  notif_set_ok env = false ∨
  ∃ u, users st !! userId = Some u ∧
       dropped (gateway env) 0 (default [] (user_fcmTokens u)) ≠ [].

(** ** The counter invariant of the specification

    The unread counter of [uid] on a chat equals the number of messages of
    the chat that [uid] did not send and that are unread. *)
Definition counter_consistent (st : Store) (chatId uid : string) : Prop :=
  ∃ c, chats st !! chatId = Some c ∧
       JS.get_or_zero (chat_unreadCount c) uid =
         Z.of_nat (length (unread_messages uid chatId st)).

(** ** Scenarios

    Concrete users, environments and stores on which the handlers are run. *)

Module Scenario.

Definition user (name : string) (tokens : option (list string)) : User :=
  {| user_name := name; user_username := name; user_profilePic := "";
     user_following := []; user_followers := []; user_fcmTokens := tokens |}.

(** An environment in which every store operation resolves and every
    push is delivered. *)
Definition env (t : Z) (id nid : string) : Env :=
  {| now := t; auto_id := id; notif_id := nid;
     commit_ok := true; notif_set_ok := true;
     gateway := λ _ _, Delivered |}.

Definition text_body (s : string) : SendBody :=
  {| body_text := Some s; body_mediaUrl := None; body_type := None |}.

(** Three users and no chat. *)
Definition st_users : Store :=
  {| users := <["A" := user "A" None]>
                (<["B" := user "B" None]> (<["C" := user "C" None]> ∅));
     chats := ∅; messages := ∅; notifications := ∅; follows := ∅ |}.

(** [A] has opened a chat with [B]. *)
Definition st_chat : Store := (createChat (env 1 "" "") "A" (Some "B") st_users).2.

Definition chat_AB : Chat :=
  {| chat_chatId := "A_B"; chat_participants := ["A"; "B"];
     chat_createdAt := 1; chat_lastMessageAt := 1;
     chat_lastMessage := emptyLastMessage;
     chat_unreadCount := <["B" := 0]> (<["A" := 0]> ∅) |}.

End Scenario.


Module Race.

Import Scenario.

(** [A] has sent ["hi"]: one unread message for [B]. *)
Definition st_sent : Store :=
  (sendMessage (env 2 "m1" "n1") "A" "A_B" (text_body "hi") st_chat).2.

(** The chat document as it is in [st_sent]. *)
Definition chat_sent : Chat :=
  {| chat_chatId := "A_B"; chat_participants := ["A"; "B"];
     chat_createdAt := 1; chat_lastMessageAt := 2;
     chat_lastMessage := {| lm_text := "hi"; lm_senderId := "A"; lm_type := "text" |};
     chat_unreadCount := <["B" := 1]> (<["A" := 0]> ∅) |}.

(** [B] views the chat. *)
Definition st_viewed : Store :=
  (listMessages (env 3 "" "") "B" "A_B" None None st_sent).2.

(** A second send of [A] that had read the chat document in [st_sent],
    before [B] viewed the chat, and commits after. *)
Definition st_raced : Store :=
  (sendMessage_with (env 4 "m2" "n2") "A" "A_B" (text_body "yo") chat_sent st_viewed).2.

(** [B] views the chat again: nothing is unread any more. *)
Definition st_viewed_again : Store :=
  (listMessages (env 5 "" "") "B" "A_B" None None st_raced).2.

(** Two sends at the same time, one by each participant.  Both handlers
    have read the chat document in [st_chat], where it is [chat_AB]; the
    transaction of [A] commits first, the transaction of [B] after it. *)
Definition st_A_committed : Store :=
  (sendMessage_with (env 2 "m1" "n1") "A" "A_B" (text_body "hi") chat_AB st_chat).2.

Definition st_both_committed : Store :=
  (sendMessage_with (env 3 "m2" "n2") "B" "A_B" (text_body "yo") chat_AB
     st_A_committed).2.

(** The same two sends, one after the other. *)
Definition st_in_sequence : Store :=
  (sendMessage (env 3 "m2" "n2") "B" "A_B" (text_body "yo")
     (sendMessage (env 2 "m1" "n1") "A" "A_B" (text_body "hi") st_chat).2).2.

(** The unread counter of a user on the chat of [A] and [B]. *)
Definition unread_of (st : Store) (uid : string) : option Z :=
  (chats st !! "A_B") ≫= (λ c, chat_unreadCount c !! uid).

End Race.



(** Scenarios around the dispatcher. *)
Module Push.

Import Scenario.

(** A request of a kind the handler does not know, without any content. *)
Definition video_body : SendBody :=
  {| body_text := None; body_mediaUrl := None; body_type := Some "video" |}.

(** A gateway for which token [t2] is no longer registered and token [t3]
    meets a transient failure. *)
Definition flaky (i : nat) (t : string) : PushResult :=
  if bool_decide (t = "t2") then Rejected "messaging/registration-token-not-registered"
  else if bool_decide (t = "t3") then Rejected "messaging/internal-error"
  else Delivered.

Definition env_flaky : Env :=
  {| now := 7; auto_id := "m1"; notif_id := "n1";
     commit_ok := true; notif_set_ok := true; gateway := flaky |}.

(** An environment in which the store rejects the notification record. *)
Definition env_notif_down : Env :=
  {| now := 7; auto_id := "m1"; notif_id := "n1";
     commit_ok := true; notif_set_ok := false; gateway := λ _ _, Delivered |}.

(** [R] has three registered tokens. *)
Definition st_tokens : Store :=
  {| users := <["R" := user "R" (Some ["t1"; "t2"; "t3"])]> (<["A" := user "A" None]> ∅);
     chats := ∅; messages := ∅; notifications := ∅; follows := ∅ |}.

Definition like_of_A : NotifyParams :=
  {| np_userId := "R"; np_type := "like"; np_actorId := "A"; np_actorName := "A";
     np_message := "A liked your post"; np_data := [("postId", "p1")] |}.

End Push.


(** ** Chat list ([GET /api/chats]) *)

(** The outcome of a handler that answers with a body of type [A]. *)
Inductive Result (A : Type) :=
  | Success (code : nat) (body : A)
  | Failure (code : nat) (msg : Text).

Arguments Success {A} code body.
Arguments Failure {A} code msg.

Record ChatEntry := {
  ce_chatId : string;
  ce_otherUser : OtherUser;
  ce_lastMessage : LastMessage;
  ce_lastMessageAt : Z;
  ce_unreadCount : Z
}.

(** [chatData.participants.find(id => id !== uid)] *)
Definition otherParticipantOf (uid : string) (chatData : Chat) : option string :=
  JS.find (λ id, negb (bool_decide (id = uid))) (chat_participants chatData).

Definition chatEntryOf (uid otherParticipantId : string)
    (otherParticipantData : User) (chatData : Chat) : ChatEntry :=
  {| ce_chatId := chat_chatId chatData;
     ce_otherUser := otherUserOf otherParticipantId otherParticipantData;
     ce_lastMessage := chat_lastMessage chatData;
     ce_lastMessageAt := chat_lastMessageAt chatData;
     ce_unreadCount := JS.get_or_zero (chat_unreadCount chatData) uid |}.

(** The loop over the documents of the chat query.  A chat whose other
    participant has no user document is skipped.  [collections.users.doc]
    throws when its argument is not a non-empty string, which is the case
    for a chat without another participant: the result is then [None]. *)
Fixpoint chat_entries (uid : string) (us : gmap string User)
    (docs : list (string * Chat)) : option (list ChatEntry) :=
  match docs with
  | [] => Some []
  | (_, chatData) :: rest =>
      match otherParticipantOf uid chatData with
      | None | Some "" => None
      | Some otherParticipantId =>
          match us !! otherParticipantId with
          | Some otherParticipantData =>
              cons (chatEntryOf uid otherParticipantId otherParticipantData chatData)
                <$> chat_entries uid us rest
          | None => chat_entries uid us rest
          end
      end
  end.

(** The documents of
    [where('participants', 'array-contains', uid).orderBy('lastMessageAt', 'desc')]. *)
Definition chats_of (uid : string) (st : Store) : list (string * Chat) :=
  candidates chat_lastMessageAt (chats st)
    (λ c, JS.includes (chat_participants c) uid).

(** [GET /api/chats] *)
Definition listChats (uid : string) (st : Store) : Result (list ChatEntry) :=
  match chat_entries uid (users st) (chats_of uid st) with
  | Some chats => Success 200 chats
  | None => Failure 500 (MessageOr "Failed to get chats")
  end.

(** ** Unfollow ([POST /api/users/unfollow/:userId]) *)

(** The three writes of the unfollow transaction; deleting a document
    that is not there is not an error. *)
Definition unfollow_transaction (currentUserId userId : string)
    (currentUserData targetUserData : User) (st : Store) : option Store :=
  match users st !! currentUserId, users st !! userId with
  | Some _, Some _ =>
      Some (set_follows
              (delete (currentUserId +:+ "_" +:+ userId))
              (set_users
                 (λ us, alter (user_set_followers
                                 (filter (λ id, id ≠ currentUserId)
                                    (user_followers targetUserData)))
                          userId
                          (alter (user_set_following
                                    (filter (λ id, id ≠ userId)
                                       (user_following currentUserData)))
                             currentUserId us)) st))
  | _, _ => None
  end.

Definition unfollow (env : Env) (currentUserId userId : string) (st : Store)
    : Response * Store :=
  match users st !! userId with
  | None =>
      if points_to_document userId then (fail 404 "User not found", st)
      else (thrown "Failed to unfollow user", st)
  | Some targetUserData =>
      match users st !! currentUserId with
      | None => (thrown "Failed to unfollow user", st)
      | Some currentUserData =>
          if negb (JS.includes (user_following currentUserData) userId) then
            (fail 400 "Not following this user", st)
          else
            match runTransaction env
                    (unfollow_transaction currentUserId userId
                       currentUserData targetUserData) st with
            | None => (thrown "Failed to unfollow user", st)
            | Some st1 =>
                ({| status := 200; message := "User unfollowed successfully";
                    data := NoData |}, st1)
            end
      end
  end.

(** The two mirrored lists, read off the user documents. *)
Definition following_of (st : Store) (uid : string) : list string :=
  default [] (user_following <$> users st !! uid).

Definition followers_of (st : Store) (uid : string) : list string :=
  default [] (user_followers <$> users st !! uid).


(** Scenarios around follow. *)
Module Social.

Import Scenario.

(** [A] follows [B]. *)
Definition st_followed : Store := (follow (env 8 "" "n8") "A" "B" st_users).2.

End Social.


(** ** Ids without an underscore *)

(** The character of the separator ["_"]. *)
Definition underscore : Ascii.ascii :=
  match "_" with
  | String c _ => c
  | "" => Ascii.zero
  end.

Definition underscore_free (s : string) : Prop :=
  contains_char underscore s = false.


(** ** Posts: the callers of the dispatcher in the posts routes

    Likes and comments live in two more collections, [posts] and
    [comments], beside the five of [Store]. *)

Record Post := {
  post_postId : string;
  post_userId : string;
  post_username : string;
  post_userProfilePic : string;
  post_caption : string;
  post_mediaUrls : list string;
  post_isVideo : bool;
  post_likes : list string;
  post_commentCount : Z;
  post_createdAt : Z;
  post_hashtags : list string
}.

Record Comment := {
  cmt_commentId : string;
  cmt_postId : string;
  cmt_userId : string;
  cmt_username : string;
  cmt_userProfilePic : string;
  cmt_text : string;
  cmt_createdAt : Z
}.

Record Site := {
  core : Store;
  posts : gmap string Post;
  comments : gmap string Comment
}.

Definition post_set_likes (l : list string) (p : Post) : Post :=
  {| post_postId := post_postId p; post_userId := post_userId p;
     post_username := post_username p;
     post_userProfilePic := post_userProfilePic p;
     post_caption := post_caption p; post_mediaUrls := post_mediaUrls p;
     post_isVideo := post_isVideo p; post_likes := l;
     post_commentCount := post_commentCount p;
     post_createdAt := post_createdAt p; post_hashtags := post_hashtags p |}.

Definition post_set_commentCount (n : Z) (p : Post) : Post :=
  {| post_postId := post_postId p; post_userId := post_userId p;
     post_username := post_username p;
     post_userProfilePic := post_userProfilePic p;
     post_caption := post_caption p; post_mediaUrls := post_mediaUrls p;
     post_isVideo := post_isVideo p; post_likes := post_likes p;
     post_commentCount := n;
     post_createdAt := post_createdAt p; post_hashtags := post_hashtags p |}.

Definition set_core (st : Store) (s : Site) : Site :=
  {| core := st; posts := posts s; comments := comments s |}.

Definition set_posts (f : gmap string Post → gmap string Post) (s : Site) : Site :=
  {| core := core s; posts := f (posts s); comments := comments s |}.

Definition set_comments (f : gmap string Comment → gmap string Comment) (s : Site)
    : Site :=
  {| core := core s; posts := posts s; comments := f (comments s) |}.

(** The part of the like handler after the update of the post: the
    notification of the owner, awaited without a [try] of its own.  A
    liker without a user document makes [userData.name] throw. *)
Definition notify_like (env : Env) (uid postId : string) (postData : Post)
    (s : Site) : Response * Site :=
  if bool_decide (post_userId postData = uid) then
    ({| status := 200; message := "Post liked successfully"; data := NoData |}, s)
  else
    match users (core s) !! uid with
    | None => (thrown "Failed to like post", s)
    | Some userData =>
        let d := sendNotification env
          {| np_userId := post_userId postData; np_type := "like";
             np_actorId := uid; np_actorName := user_name userData;
             np_message := user_name userData +:+ " liked your post";
             np_data := [("postId", postId)] |} (core s) in
        if d_threw d then (thrown "Failed to like post", set_core (d_store d) s)
        else
          ({| status := 200; message := "Post liked successfully"; data := NoData |},
           set_core (d_store d) s)
    end.

(** [POST /api/posts/:postId/like] *)
Definition likePost (env : Env) (uid postId : string) (s : Site) : Response * Site :=
  match posts s !! postId with
  | None =>
      if points_to_document postId then (fail 404 "Post not found", s)
      else (thrown "Failed to like post", s)
  | Some postData =>
      if JS.includes (post_likes postData) uid then
        (fail 400 "Post already liked", s)
      else if commit_ok env then
        notify_like env uid postId postData
          (set_posts (alter (post_set_likes (post_likes postData ++ [uid])) postId) s)
      else (thrown "Failed to like post", s)
  end.

(** [POST /api/posts/:postId/unlike] *)
Definition unlikePost (env : Env) (uid postId : string) (s : Site) : Response * Site :=
  match posts s !! postId with
  | None =>
      if points_to_document postId then (fail 404 "Post not found", s)
      else (thrown "Failed to unlike post", s)
  | Some postData =>
      if negb (JS.includes (post_likes postData) uid) then
        (fail 400 "Post not liked yet", s)
      else if commit_ok env then
        ({| status := 200; message := "Post unliked successfully"; data := NoData |},
         set_posts
           (alter (post_set_likes (filter (λ id, id ≠ uid) (post_likes postData)))
              postId) s)
      else (thrown "Failed to unlike post", s)
  end.

(** The string made of one double quote. *)
Definition dquote : string := String (Ascii.ascii_of_nat 34) "".

(** [text.substring(0, 30)] followed by ['...'] when the text is
    longer. *)
Definition preview (text : string) : string :=
  JS.substring_to 30 text +:+
  (if bool_decide (30 < JS.length text)%nat then "..." else "").

Definition commentData_of (env : Env) (uid postId text : string) (userData : User)
    : Comment :=
  {| cmt_commentId := auto_id env; cmt_postId := postId; cmt_userId := uid;
     cmt_username := user_username userData;
     cmt_userProfilePic := user_profilePic userData;
     cmt_text := text; cmt_createdAt := now env |}.

(** The transaction of the comment handler: the comment is set and the
    comment count of the post becomes the count read before plus one. *)
Definition comment_transaction (env : Env) (uid postId text : string)
    (userData : User) (postData : Post) (s : Site) : option Site :=
  match posts s !! postId with
  | None => None
  | Some _ =>
      Some (set_posts
              (alter (post_set_commentCount (post_commentCount postData + 1)) postId)
              (set_comments
                 (<[auto_id env := commentData_of env uid postId text userData]>) s))
  end.

(** [POST /api/posts/:postId/comment] *)
Definition commentPost (env : Env) (uid postId : string) (text : option string)
    (s : Site) : Result Comment * Site :=
  if negb (JS.truthy text) || bool_decide (JS.trim (JS.or_empty text) = "") then
    (Failure 400 "Comment text is required", s)
  else
    match posts s !! postId with
    | None =>
        if points_to_document postId then (Failure 404 "Post not found", s)
        else (Failure 500 (MessageOr "Failed to add comment"), s)
    | Some postData =>
        match users (core s) !! uid with
        | None =>
            if points_to_document uid then (Failure 404 "User not found", s)
            else (Failure 500 (MessageOr "Failed to add comment"), s)
        | Some userData =>
            let t := JS.or_empty text in
            match (if commit_ok env
                   then comment_transaction env uid postId t userData postData s
                   else None) with
            | None => (Failure 500 (MessageOr "Failed to add comment"), s)
            | Some s1 =>
                if bool_decide (post_userId postData = uid) then
                  (Success 201 (commentData_of env uid postId t userData), s1)
                else
                  let d := sendNotification env
                    {| np_userId := post_userId postData; np_type := "comment";
                       np_actorId := uid; np_actorName := user_name userData;
                       np_message :=
                         user_name userData +:+ " commented on your post: "
                         +:+ dquote +:+ preview t +:+ dquote;
                       np_data := [("postId", postId); ("commentId", auto_id env)] |}
                    (core s1) in
                  if d_threw d then
                    (Failure 500 (MessageOr "Failed to add comment"),
                     set_core (d_store d) s1)
                  else
                    (Success 201 (commentData_of env uid postId t userData),
                     set_core (d_store d) s1)
            end
        end
    end.

(** [GET /api/posts/:postId/comments] *)
Definition getComments (postId : string) (limit : option nat)
    (lastId : option string) (s : Site)
    : Result (list Comment * option string * bool) :=
  match posts s !! postId with
  | None =>
      if points_to_document postId then Failure 404 "Post not found"
      else Failure 500 (MessageOr "Failed to get comments")
  | Some _ =>
      match run_query cmt_createdAt (comments s)
              (λ c, bool_decide (cmt_postId c = postId))
              (parseInt_limit limit) lastId with
      | None => Failure 500 (MessageOr "Failed to get comments")
      | Some docs =>
          Success 200 (docs.*2, page_lastId docs,
                       page_hasMore docs (parseInt_limit limit))
      end
  end.

(** Scenarios around posts. *)
Module Blog.

Import Scenario.

Definition post_of_B : Post :=
  {| post_postId := "p1"; post_userId := "B"; post_username := "B";
     post_userProfilePic := ""; post_caption := "sunset";
     post_mediaUrls := ["u1"]; post_isVideo := false; post_likes := [];
     post_commentCount := 0; post_createdAt := 5; post_hashtags := [] |}.

Definition site : Site :=
  {| core := st_users; posts := <["p1" := post_of_B]> ∅; comments := ∅ |}.

(** [A] likes the post of [B]. *)
Definition site_liked : Site := (likePost (env 6 "" "n6") "A" "p1" site).2.

End Blog.

(** * Properties *)

(** Membership in a list that is written out. *)
Ltac elem_of_concrete :=
  simpl; repeat first [apply list_elem_of_here | apply list_elem_of_further].

Ltac not_elem_of_concrete :=
  simpl; rewrite ?elem_of_cons, elem_of_nil; intuition discriminate.

(** ** Facts about the helpers *)

Section HelperFacts.

Lemma append_nil_l s : "" +:+ s = s.
Proof. reflexivity. Qed.

(** A document id is a path of one segment. *)
Lemma segments_no_slash s :
  contains_char slash s = false → segments true s = 0%nat.
Proof.
  induction s as [|c s IH]; [done|]. simpl.
  intros [Hc Hs]%orb_false_iff. rewrite Hc. by rewrite IH.
Qed.

Lemma has_empty_segment_no_slash s :
  contains_char slash s = false → has_empty_segment s = false.
Proof.
  induction s as [|c s IH]; [done|]. simpl.
  intros [Hc Hs]%orb_false_iff. destruct s as [|c' s']; [done|].
  rewrite Hc. simpl. by apply IH.
Qed.

(** The paths of one and of three segments end at a document, the empty
    path and the paths of two segments do not. *)
Example points_to_document_paths :
  points_to_document "x" = true ∧ points_to_document "x/y/z" = true ∧
  points_to_document "" = false ∧ points_to_document "x/y" = false ∧
  points_to_document "/" = false ∧ points_to_document "x//y/z" = false ∧
  doc_id "x" = true ∧ doc_id "x/y/z" = false.
Proof. repeat split; reflexivity. Qed.

Lemma doc_id_points_to_document id :
  doc_id id = true → points_to_document id = true.
Proof.
  unfold doc_id, points_to_document.
  intros [Hne Hs]%andb_true_iff. apply negb_true_iff in Hs.
  rewrite Hne, (has_empty_segment_no_slash _ Hs). simpl.
  destruct id as [|c s]; [done|]. simpl in *.
  apply orb_false_iff in Hs as [Hc Hs]. rewrite Hc.
  by rewrite (segments_no_slash _ Hs).
Qed.

Lemma append_cons_l c s t : String c s +:+ t = String c (s +:+ t).
Proof. reflexivity. Qed.

(** Induction on the length of a string. *)
Lemma string_length_ind (P : string → Prop) :
  (∀ s, (∀ s', (String.length s' < String.length s)%nat → P s') → P s) →
  ∀ s, P s.
Proof.
  intros H s. remember (String.length s) as n eqn:Hn. revert s Hn.
  induction n as [n IH] using lt_wf_ind. intros s ->.
  apply H. intros s' Hs'. by apply (IH _ Hs').
Qed.

Lemma trimStart_empty_iff s : JS.trimStart s = "" ↔ JS.all_space s = true.
Proof.
  induction s as [s IH] using string_length_ind.
  destruct s as [|c1 s1]; [done|]. simpl.
  destruct (JS.space1 c1); [apply IH; simpl; lia|].
  destruct s1 as [|c2 s2]; [done|].
  destruct (JS.space2 c1 c2); [apply IH; simpl; lia|].
  destruct s2 as [|c3 s3]; [done|].
  destruct (JS.space3 c1 c2 c3); [apply IH; simpl; lia|done].
Qed.

(** What [trimStart] leaves does not start with white space. *)
Lemma trimStart_no_space s : JS.starts_with_space (JS.trimStart s) = false.
Proof.
  induction s as [s IH] using string_length_ind.
  destruct s as [|c1 s1]; [done|]. simpl.
  destruct (JS.space1 c1) eqn:H1; [apply IH; simpl; lia|].
  destruct s1 as [|c2 s2]; [simpl; by rewrite H1|].
  destruct (JS.space2 c1 c2) eqn:H2; [apply IH; simpl; lia|].
  destruct s2 as [|c3 s3]; [simpl; by rewrite H1, H2|].
  destruct (JS.space3 c1 c2 c3) eqn:H3; [apply IH; simpl; lia|].
  simpl. by rewrite H1, H2, H3.
Qed.

Lemma trimEnd_cons c s :
  JS.trimEnd (String c s) =
    if JS.is_space (String c (JS.trimEnd s)) then "" else String c (JS.trimEnd s).
Proof. reflexivity. Qed.

(** [trimEnd] removes an end of the string. *)
Lemma trimEnd_prefix s : ∃ u, s = JS.trimEnd s +:+ u.
Proof.
  induction s as [|c s [u Hu]]; [by exists ""|]. rewrite trimEnd_cons.
  destruct (JS.is_space (String c (JS.trimEnd s))).
  - by exists (String c s).
  - exists u. rewrite append_cons_l. by f_equal.
Qed.

(** A string that [trimEnd] empties is empty or starts with white
    space. *)
Lemma trimEnd_empty_space s :
  JS.trimEnd s = "" → s = "" ∨ JS.starts_with_space s = true.
Proof.
  destruct s as [|c s']; [by left|]. rewrite trimEnd_cons. intros H. right.
  destruct (trimEnd_prefix s') as [u Hu].
  destruct (JS.is_space (String c (JS.trimEnd s'))) eqn:Hsp; [|done].
  destruct (JS.trimEnd s') as [|c2 [|c3 [|c4 r]]]; simpl in Hsp.
  - simpl. by rewrite Hsp.
  - rewrite Hu, append_cons_l. simpl. rewrite Hsp. by rewrite orb_true_r.
  - rewrite Hu, !append_cons_l. simpl. rewrite Hsp. by rewrite !orb_true_r.
  - done.
Qed.

(** A text is trimmed to nothing exactly when all of it is white space. *)
Lemma trim_empty_iff s : JS.trim s = "" ↔ JS.all_space s = true.
Proof.
  unfold JS.trim. rewrite <- trimStart_empty_iff. split.
  - intros [H|H]%trimEnd_empty_space; [done|].
    by rewrite trimStart_no_space in H.
  - by intros ->.
Qed.

(** The no-break space U+00A0 and the line separator U+2028 are white
    space for [trim], as the white space of the ASCII range is. *)
Example trim_unicode_space :
  JS.trim (String (Ascii.ascii_of_nat 194) (String (Ascii.ascii_of_nat 160) " ")) = "" ∧
  JS.trim (String (Ascii.ascii_of_nat 226) (String (Ascii.ascii_of_nat 128)
             (String (Ascii.ascii_of_nat 168) "a "))) = "a".
Proof. split; reflexivity. Qed.

Lemma includes_true l x : JS.includes l x = true ↔ x ∈ l.
Proof. unfold JS.includes. apply bool_decide_eq_true. Qed.

Lemma includes_false l x : JS.includes l x = false ↔ x ∉ l.
Proof. unfold JS.includes. apply bool_decide_eq_false. Qed.

Lemma find_Some {A} (p : A → bool) l x :
  JS.find p l = Some x → p x = true ∧ x ∈ l.
Proof.
  induction l as [|y l IH]; simpl; [done|].
  destruct (p y) eqn:Hp.
  - intros [= <-]. split; [done|]. by left.
  - intros H. destruct (IH H). split; [done|]. by right.
Qed.

Lemma find_other_ne (uid x : string) l :
  JS.find (λ id, negb (bool_decide (id = uid))) l = Some x → x ≠ uid.
Proof.
  intros [H _]%find_Some. apply negb_true_iff, bool_decide_eq_false in H. done.
Qed.

(** U+10000, whose code units are the surrogates D800 and DC00, sorts
    before U+FFFF, though its bytes are above; and the two-byte character
    U+00E9 counts for one code unit. *)
Example code_unit_order :
  let b (n : N) := Ascii.ascii_of_N n in
  JS.str_lt (String (b 240%N) (String (b 144%N) (String (b 128%N) (String (b 128%N) ""))))
            (String (b 239%N) (String (b 191%N) (String (b 191%N) ""))) = true ∧
  JS.str_lt "A" "B" = true ∧ JS.str_lt "B" "A" = false ∧
  JS.length (String (b 195%N) (String (b 169%N) "")) = 1%nat ∧
  JS.substring_to 1 (String (b 195%N) (String (b 169%N) "x")) =
    String (b 195%N) (String (b 169%N) "").
Proof. repeat split; reflexivity. Qed.

Lemma unit_rank_involutive c : JS.unit_rank (JS.unit_rank c) = c.
Proof. by destruct c as [[] [] [] [] [] [] [] []]. Qed.

Lemma ranks_inj a b : JS.ranks a = JS.ranks b → a = b.
Proof.
  revert b. induction a as [|c a IH]; intros [|d b]; simpl; try done.
  intros [= Hc Hs]. f_equal; [|by apply IH].
  by rewrite <- (unit_rank_involutive c), Hc, unit_rank_involutive.
Qed.

Lemma str_lt_antisym a b : JS.str_lt a b = true → JS.str_lt b a = true → False.
Proof.
  unfold JS.str_lt. rewrite !negb_true_iff. intros H1 H2.
  destruct (String.leb_total (JS.ranks a) (JS.ranks b)); congruence.
Qed.

Lemma sort2_comm a b : JS.sort2 a b = JS.sort2 b a.
Proof.
  unfold JS.sort2.
  destruct (JS.str_lt b a) eqn:H1, (JS.str_lt a b) eqn:H2; try done.
  - destruct (str_lt_antisym _ _ H1 H2).
  - unfold JS.str_lt in *. apply negb_false_iff in H1, H2.
    by rewrite (ranks_inj _ _ (String.leb_antisym _ _ H2 H1)).
Qed.

Lemma chatIdOf_comm a b : chatIdOf a b = chatIdOf b a.
Proof. unfold chatIdOf. by rewrite sort2_comm. Qed.

Lemma sort2_elem a b x : x ∈ JS.sort2 a b ↔ x = a ∨ x = b.
Proof.
  unfold JS.sort2.
  destruct (JS.str_lt b a); rewrite !elem_of_cons, elem_of_nil; tauto.
Qed.

End HelperFacts.

(** ** Facts about the dispatcher's footprint *)

Section DispatcherFootprint.

(** The fan-out attempts a delivery for every token and writes nothing:
    the removal of a token never takes place.  It throws exactly when a
    delivery is answered with an invalid-token error. *)
Lemma deliver_all_spec gw userId i ts st :
  let d := deliver_all gw userId i ts st in
  d_threw d = negb (bool_decide (dropped gw i ts = [])) ∧
  d_attempts d = ts ∧ d_store d = st.
Proof.
  revert i st. induction ts as [|t ts IH]; intros i st; simpl; [done|].
  unfold invalid_answer.
  destruct (IH (S i) st) as (H1 & H2 & H3).
  destruct (gw i t) as [|code]; simpl.
  { by rewrite H1, H2, H3. }
  destruct (invalid_token_code code); simpl.
  - by rewrite H2, H3.
  - by rewrite H1, H2, H3.
Qed.

Lemma deliver_all_footprint gw userId i tokens st :
  let d := deliver_all gw userId i tokens st in
  chats (d_store d) = chats st ∧ messages (d_store d) = messages st ∧
  notifications (d_store d) = notifications st ∧ follows (d_store d) = follows st.
Proof.
  simpl. by destruct (deliver_all_spec gw userId i tokens st) as (_ & _ & ->).
Qed.

(** The dispatcher writes the notification record, when the store accepts
    it, and nothing else. *)
Lemma sendNotification_store env p st :
  d_store (sendNotification env p st) =
    if notif_set_ok env
    then set_notifications (<[notif_id env := notification_of env p]>) st
    else st.
Proof.
  unfold sendNotification. destruct (notif_set_ok env); simpl; [|done].
  destruct (users st !! np_userId p) as [u|]; simpl; [|done].
  destruct (length (default [] (user_fcmTokens u)) =? 0)%nat; simpl; [done|].
  match goal with |- context [deliver_all ?g ?u ?i ?t ?s] =>
    destruct (deliver_all_spec g u i t s) as (_ & _ & ->) end.
  done.
Qed.

(** The dispatcher changes no user record. *)
Lemma sendNotification_users env p st :
  users (d_store (sendNotification env p st)) = users st.
Proof. rewrite sendNotification_store. by destruct (notif_set_ok env). Qed.

(** When the dispatcher throws, once the record is stored: the recipient
    has a record and a delivery to one of the registered tokens is answered
    with an invalid-token error, or the recipient has no record and an id
    for which [doc] throws. *)
Lemma sendNotification_threw env p st :
  notif_set_ok env = true →
  d_threw (sendNotification env p st) =
    match users st !! np_userId p with
    | Some u =>
        negb (bool_decide
                (dropped (gateway env) 0 (default [] (user_fcmTokens u)) = []))
    | None => negb (points_to_document (np_userId p))
    end.
Proof.
  intros Hok. unfold sendNotification. rewrite Hok. simpl.
  destruct (users st !! np_userId p) as [u|]; simpl; [|done].
  destruct (default [] (user_fcmTokens u)) as [|t ts] eqn:Hts; [done|].
  change (length (t :: ts) =? 0)%nat with false. cbv iota.
  match goal with |- context [deliver_all ?g ?u ?i ?l ?s] =>
    destruct (deliver_all_spec g u i l s) as (-> & _) end.
  done.
Qed.

(** The tokens a delivery is attempted for are the registered tokens of
    the recipient. *)
Lemma sendNotification_attempts env p st :
  notif_set_ok env = true →
  d_attempts (sendNotification env p st) =
    default [] (users st !! np_userId p ≫= user_fcmTokens).
Proof.
  intros Hok. unfold sendNotification. rewrite Hok. simpl.
  destruct (users st !! np_userId p) as [u|]; simpl; [|done].
  destruct (default [] (user_fcmTokens u)) as [|t ts] eqn:Hts; [done|].
  change (length (t :: ts) =? 0)%nat with false. cbv iota.
  match goal with |- context [deliver_all ?g ?u ?i ?l ?s] =>
    destruct (deliver_all_spec g u i l s) as (_ & -> & _) end.
  done.
Qed.

Lemma sendNotification_succeeds env p st :
  dispatch_succeeds env st (np_userId p) →
  d_threw (sendNotification env p st) = false.
Proof.
  intros [Hok Hgo]. rewrite sendNotification_threw by done.
  destruct (users st !! np_userId p) as [u|].
  - by rewrite negb_false_iff, bool_decide_eq_true.
  - by rewrite (doc_id_points_to_document _ Hgo).
Qed.

Lemma sendNotification_fails env p st :
  dispatch_fails env st (np_userId p) →
  d_threw (sendNotification env p st) = true.
Proof.
  intros [Hok|(u & Hu & Hdrop)].
  - unfold sendNotification. by rewrite Hok.
  - destruct (notif_set_ok env) eqn:Hok.
    + rewrite sendNotification_threw, Hu by done.
      by rewrite negb_true_iff, bool_decide_eq_false.
    + unfold sendNotification. by rewrite Hok.
Qed.

(** A dispatcher that did not throw stored its record. *)
Lemma sendNotification_returned env p st :
  d_threw (sendNotification env p st) = false → notif_set_ok env = true.
Proof.
  unfold sendNotification. by destruct (notif_set_ok env).
Qed.

Lemma sendNotification_footprint env p st :
  let d := sendNotification env p st in
  chats (d_store d) = chats st ∧ messages (d_store d) = messages st ∧
  follows (d_store d) = follows st.
Proof. simpl. rewrite sendNotification_store. by destruct (notif_set_ok env). Qed.

Lemma notify_message_footprint env uid chatId b other st :
  let d := notify_message env uid chatId b other st in
  chats (d_store d) = chats st ∧ messages (d_store d) = messages st ∧
  follows (d_store d) = follows st.
Proof.
  unfold notify_message.
  destruct (users st !! uid), other; simpl; try done.
  apply sendNotification_footprint.
Qed.

End DispatcherFootprint.

(** ** Send message: preconditions *)

Section SendPreconditions.

Lemma text_missing_iff b : text_missing b = true ↔ text_request_blank b.
Proof.
  unfold text_missing, text_request_blank, blank.
  rewrite andb_true_iff, orb_true_iff, negb_true_iff, !bool_decide_eq_true.
  destruct (body_text b) as [s|]; simpl.
  - rewrite trim_empty_iff. destruct s; simpl; naive_solver.
  - naive_solver.
Qed.

Lemma media_missing_iff b : media_missing b = true ↔ image_request_without_media b.
Proof.
  unfold media_missing, image_request_without_media, no_reference.
  rewrite andb_true_iff, negb_true_iff, bool_decide_eq_true.
  destruct (body_mediaUrl b) as [[|]|]; simpl; naive_solver.
Qed.

Lemma text_missing_false_iff b : text_missing b = false ↔ ¬ text_request_blank b.
Proof. rewrite <- text_missing_iff. by destruct (text_missing b). Qed.

Lemma media_missing_false_iff b :
  media_missing b = false ↔ ¬ image_request_without_media b.
Proof. rewrite <- media_missing_iff. by destruct (media_missing b). Qed.

(** What the transaction of a send writes, given the chat it updates. *)
Lemma send_transaction_Some env uid chatId b chatData other st current :
  chats st !! chatId = Some current →
  send_transaction env uid chatId b chatData other st =
    Some {| users := users st;
            chats := <[chatId := chat_set_last
                        {| lm_text := text_or b "Sent an image"; lm_senderId := uid;
                           lm_type := type_of b |}
                        (now env) (incremented chatData other) current]> (chats st);
            messages := <[auto_id env := messageData_of env uid chatId b]> (messages st);
            notifications := notifications st;
            follows := follows st |}.
Proof. intros H. unfold send_transaction. by rewrite H. Qed.

(** Past the input checks and the lookup, a send either is refused for a
    caller outside the chat, or fails as a whole, or answers 201. *)
Lemma sendMessage_with_cases env uid chatId b c st :
  let r := sendMessage_with env uid chatId b c st in
  ((uid ∉ chat_participants c) ∧ status r.1 = Forbidden ∧ r.2 = st) ∨
  (uid ∈ chat_participants c ∧ status r.1 = 500%nat ∧ r.2 = st) ∨
  (uid ∈ chat_participants c ∧ status r.1 = 201%nat).
Proof.
  unfold sendMessage_with.
  destruct (JS.includes (chat_participants c) uid) eqn:Hin; simpl.
  - apply includes_true in Hin. right.
    destruct (runTransaction _ _ _); simpl; [right|left]; done.
  - apply includes_false in Hin. by left.
Qed.

(** *** Claim C5, as amended.
    A send fails with InvalidInput (and writes nothing) for every request of
    kind text whose text is absent, empty or white space only, and for every
    request of kind image without a media reference, whoever the caller is.
    A request that passes these checks fails with Forbidden (and writes
    nothing) for every caller who is not a participant of the chat.  The
    handler answers 201 only when the chat exists, the caller is one of its
    participants and both input checks pass, and it leaves the store as it
    was whenever it does not answer 201.  The content of a request of a
    kind other than text and image is not checked: sent by a participant,
    such a request is answered with 201 when its transaction commits. *)
Theorem sendMessage_preconditions env uid chatId b st :
  let r := sendMessage env uid chatId b st in
  (text_request_blank b ∨ image_request_without_media b →
     status r.1 = InvalidInput ∧ r.2 = st) ∧
  (∀ c, ¬ text_request_blank b → ¬ image_request_without_media b →
     chats st !! chatId = Some c → uid ∉ chat_participants c →
     status r.1 = Forbidden ∧ r.2 = st) ∧
  (status r.1 = 201%nat →
     ∃ c, chats st !! chatId = Some c ∧ uid ∈ chat_participants c ∧
          ¬ text_request_blank b ∧ ¬ image_request_without_media b) ∧
  (status r.1 ≠ 201%nat → r.2 = st) ∧
  (∀ c, type_of b ≠ "text" → type_of b ≠ "image" →
     chats st !! chatId = Some c → uid ∈ chat_participants c →
     commit_ok env = true → status r.1 = 201%nat).
Proof.
  unfold sendMessage.
  destruct (text_missing b) eqn:Ht; simpl.
  { apply text_missing_iff in Ht.
    split; [done|]. split; [tauto|]. split; [done|]. split; [done|].
    intros c Hk. by destruct Ht. }
  destruct (media_missing b) eqn:Hm; simpl.
  { apply media_missing_iff in Hm.
    split; [done|]. split; [tauto|]. split; [done|]. split; [done|].
    intros c _ Hk. by destruct Hm. }
  apply text_missing_false_iff in Ht. apply media_missing_false_iff in Hm.
  destruct (chats st !! chatId) as [c|] eqn:Hc; simpl.
  - pose proof (sendMessage_with_cases env uid chatId b c st) as Hcases.
    simpl in Hcases.
    assert (H201 : uid ∈ chat_participants c → commit_ok env = true →
                   status (sendMessage_with env uid chatId b c st).1 = 201%nat).
    { intros Hin%includes_true Hok. unfold sendMessage_with, runTransaction.
      rewrite Hin, Hok. simpl.
      by rewrite (send_transaction_Some _ _ _ _ _ _ _ _ Hc). }
    destruct (sendMessage_with env uid chatId b c st) as [r st']. simpl in *.
    split; [tauto|]. split; [|split; [|split]].
    + intros c' _ _ [= <-] Hout.
      destruct Hcases as [(_ & ? & ?)|[(? & _)|(? & _)]]; done.
    + intros Hs. exists c.
      destruct Hcases as [(_ & H & _)|[(_ & H & _)|(? & _)]];
        [rewrite H in Hs; done..|done].
    + intros Hne.
      destruct Hcases as [(_ & _ & ?)|[(_ & _ & ?)|(_ & ?)]]; done.
    + intros c' _ _ [= <-]. exact H201.
  - destruct (points_to_document chatId); simpl;
      (split; [tauto|]; split; [done|]; split; [done|]; split; done).
Qed.

(** At a concrete request: [C] is not in the chat of [A] and [B] and sends
    a well-formed text. *)
Lemma sendMessage_preconditions_witness :
  status (sendMessage (Scenario.env 2 "m1" "n1") "C" "A_B"
            (Scenario.text_body "hi") Scenario.st_chat).1 = Forbidden ∧
  (sendMessage (Scenario.env 2 "m1" "n1") "C" "A_B"
     (Scenario.text_body "hi") Scenario.st_chat).2 = Scenario.st_chat.
Proof.
  refine (proj1 (proj2 (sendMessage_preconditions (Scenario.env 2 "m1" "n1")
            "C" "A_B" (Scenario.text_body "hi") Scenario.st_chat))
            Scenario.chat_AB _ _ _ _).
  - unfold text_request_blank. simpl. intros [_ H]. discriminate H.
  - unfold image_request_without_media. simpl. intros [H _]. discriminate H.
  - vm_compute. reflexivity.
  - not_elem_of_concrete.
Defined.

(** *** Claim C5, as stated, fails.
    [C] is not a participant of the chat of [A] and [B]; a send by [C]
    with an empty text is answered with InvalidInput, not Forbidden: the
    input checks come first. *)
Lemma sendMessage_outsider_blank_text :
  chats Scenario.st_chat !! "A_B" = Some Scenario.chat_AB ∧
  ("C" ∉ chat_participants Scenario.chat_AB) ∧
  status (sendMessage (Scenario.env 2 "m1" "n1") "C" "A_B"
            (Scenario.text_body "") Scenario.st_chat).1 = InvalidInput ∧
  status (sendMessage (Scenario.env 2 "m1" "n1") "C" "A_B"
            (Scenario.text_body "") Scenario.st_chat).1 ≠ Forbidden.
Proof.
  split; [vm_compute; reflexivity|].
  split; [not_elem_of_concrete|].
  split; [reflexivity|]. vm_compute. discriminate.
Qed.

(** The input checks look at the kinds ['text'] and ['image'] only: a
    request of another kind is stored without text and without media. *)
Example sendMessage_other_kind_unchecked :
  (sendMessage (Scenario.env 2 "m1" "n1") "A" "A_B" Push.video_body
     Scenario.st_chat).1 =
    {| status := 201; message := "Message sent successfully";
       data := SentMessage
                 {| msg_messageId := "m1"; msg_chatId := "A_B"; msg_senderId := "A";
                    msg_text := ""; msg_mediaUrl := ""; msg_type := "video";
                    msg_read := false; msg_createdAt := 2 |} |}.
Proof. vm_compute. reflexivity. Qed.

End SendPreconditions.

(** ** Get-or-create chat *)

Section GetOrCreate.

Lemma truthy_Some s : JS.truthy (Some s) = true ↔ s ≠ "".
Proof. destruct s; simpl; split; congruence. Qed.

(** A chat that is there is returned as it is. *)
Lemma createChat_existing env uid other o c st :
  other ≠ "" → users st !! other = Some o →
  chats st !! chatIdOf uid other = Some c →
  createChat env uid (Some other) st =
    ({| status := 200; message := "Chat already exists";
        data := ChatView (chat_chatId c) (otherUserOf other o)
                  (chat_lastMessage c) (chat_lastMessageAt c)
                  (JS.get_or_zero (chat_unreadCount c) uid) |}, st).
Proof.
  intros Hne Ho Hc. unfold createChat.
  apply truthy_Some in Hne. rewrite Hne. simpl. rewrite Ho.
  unfold chatIdOf in Hc. by rewrite Hc.
Qed.

(** A call that succeeds was made with a user id that names a user. *)
Lemma createChat_success env uid other st r st1 :
  createChat env uid (Some other) st = (r, st1) →
  status r = 200%nat ∨ status r = 201%nat →
  other ≠ "" ∧ is_Some (users st !! other).
Proof.
  unfold createChat. destruct (JS.truthy (Some other)) eqn:Ht; simpl.
  - apply truthy_Some in Ht. destruct (users st !! other); [eauto|].
    destruct (points_to_document other); intros [= <- <-] [H|H]; discriminate H.
  - intros [= <- <-] [H|H]; discriminate H.
Qed.

(** *** Claim C8.
    Get-or-create is idempotent.  When the chat of the pair exists, a call
    that succeeds returns its chat id and leaves the whole store, hence the
    unread counters and the last-message snapshot of the chat, unchanged.
    When it does not exist, the call stores a chat under the id of the pair
    with an unread count of zero for both participants and an empty
    last-message snapshot, and touches nothing else.  After a successful
    call, calling again, from the same caller or from the other participant
    (when the caller has a user record), returns the same chat id and leaves
    the store as it is. *)
Theorem createChat_idempotent env uid otherUserId st r1 st1 :
  createChat env uid (Some otherUserId) st = (r1, st1) →
  status r1 = 200%nat ∨ status r1 = 201%nat →
  let chatId := chatIdOf uid otherUserId in
  (∀ c, chats st !! chatId = Some c →
     st1 = st ∧ status r1 = 200%nat ∧ resp_chatId r1 = Some (chat_chatId c)) ∧
  (chats st !! chatId = None →
     ∃ c, st1 = set_chats (<[chatId := c]>) st ∧
          status r1 = 201%nat ∧ resp_chatId r1 = Some chatId ∧
          chat_chatId c = chatId ∧
          chat_participants c = JS.sort2 uid otherUserId ∧
          chat_unreadCount c !! uid = Some 0 ∧
          chat_unreadCount c !! otherUserId = Some 0 ∧
          (∀ k, k ≠ uid → k ≠ otherUserId → chat_unreadCount c !! k = None) ∧
          chat_lastMessage c = emptyLastMessage) ∧
  (∀ env', ∃ r2, createChat env' uid (Some otherUserId) st1 = (r2, st1) ∧
                 status r2 = 200%nat ∧ resp_chatId r2 = resp_chatId r1) ∧
  (∀ env', uid ≠ "" → is_Some (users st !! uid) →
     ∃ r2, createChat env' otherUserId (Some uid) st1 = (r2, st1) ∧
           status r2 = 200%nat ∧ resp_chatId r2 = resp_chatId r1).
Proof.
  intros Hrun Hok chatId.
  destruct (createChat_success _ _ _ _ _ _ Hrun Hok) as [Hne [o Ho]].
  destruct (chats st !! chatId) as [c|] eqn:Hc.
  - rewrite (createChat_existing env uid otherUserId o c st Hne Ho Hc) in Hrun.
    injection Hrun as <- <-.
    split; [by intros ? [= <-]|]. split; [done|]. split.
    + intros env'. eexists. split; [by apply createChat_existing|done].
    + intros env' Hu [u Hu']. eexists. split.
      * apply createChat_existing; [done..|].
        rewrite chatIdOf_comm. exact Hc.
      * done.
  - unfold createChat in Hrun.
    pose proof Hne as Ht. apply truthy_Some in Ht. rewrite Ht in Hrun.
    simpl in Hrun. rewrite Ho in Hrun.
    fold (chatIdOf uid otherUserId) in Hrun. fold chatId in Hrun.
    rewrite Hc in Hrun.
    destruct (points_to_document chatId && commit_ok env);
      [|injection Hrun as <- <-; destruct Hok; done].
    injection Hrun as <- <-.
    assert (chats (set_chats (<[chatId :=
              {| chat_chatId := chatId;
                 chat_participants := JS.sort2 uid otherUserId;
                 chat_createdAt := now env; chat_lastMessageAt := now env;
                 chat_lastMessage := emptyLastMessage;
                 chat_unreadCount := <[otherUserId := 0]> (<[uid := 0]> ∅) |}]>) st)
              !! chatId = Some
              {| chat_chatId := chatId;
                 chat_participants := JS.sort2 uid otherUserId;
                 chat_createdAt := now env; chat_lastMessageAt := now env;
                 chat_lastMessage := emptyLastMessage;
                 chat_unreadCount := <[otherUserId := 0]> (<[uid := 0]> ∅) |})
      as Hnew by (simpl; apply lookup_insert_eq).
    split; [done|]. split; [|split].
    + intros _. eexists. split; [reflexivity|]. simpl.
      repeat split; try done.
      * destruct (decide (otherUserId = uid)) as [->|Hd].
        -- apply lookup_insert_eq.
        -- rewrite lookup_insert_ne by done. apply lookup_insert_eq.
      * apply lookup_insert_eq.
      * intros k Hk1 Hk2. by rewrite !lookup_insert_ne.
    + intros env'. eexists. split.
      * apply createChat_existing; [done|exact Ho|exact Hnew].
      * done.
    + intros env' Hu [u Hu']. eexists. split.
      * apply createChat_existing; [done|exact Hu'|].
        rewrite chatIdOf_comm. exact Hnew.
      * done.
Qed.

(** [A] opens a chat with [B] where there was none. *)
Lemma createChat_idempotent_witness :
  ∃ r2, createChat (Scenario.env 9 "" "") "B" (Some "A") Scenario.st_chat
          = (r2, Scenario.st_chat) ∧
        status r2 = 200%nat ∧ resp_chatId r2 = Some "A_B".
Proof.
  refine (proj2 (proj2 (proj2
    (createChat_idempotent (Scenario.env 1 "" "") "A" "B" Scenario.st_users
       (createChat (Scenario.env 1 "" "") "A" (Some "B") Scenario.st_users).1
       Scenario.st_chat _ _))) (Scenario.env 9 "" "") _ _).
  - reflexivity.
  - right. reflexivity.
  - discriminate.
  - vm_compute. eauto.
Defined.

End GetOrCreate.

(** ** Send message: effects *)

Section SendEffects.

Lemma incremented_other c other :
  incremented c (Some other) !! other =
    Some (JS.get_or_zero (chat_unreadCount c) other + 1).
Proof. unfold incremented. simpl. apply lookup_insert_eq. Qed.

Lemma incremented_rest c other k :
  k ≠ other → incremented c (Some other) !! k = chat_unreadCount c !! k.
Proof. intros H. unfold incremented. simpl. by rewrite lookup_insert_ne. Qed.



End SendEffects.

(** ** Facts about queries and batches *)

Section QueryFacts.

Context {A : Type} (createdAt : A → Z).

Global Instance at_or_before_total : Total (at_or_before createdAt).
Proof.
  intros d1 d2. unfold at_or_before.
  destruct (Z.lt_trichotomy (createdAt d1.2) (createdAt d2.2)) as [?|[?|?]];
    [right; by left| |left; by left].
  destruct (total String.le d1.1 d2.1); [right|left]; right; split; congruence.
Qed.

Global Instance at_or_before_trans : Transitive (at_or_before createdAt).
Proof.
  intros d1 d2 d3. unfold at_or_before.
  intros [H1|[H1 L1]] [H2|[H2 L2]].
  - left. lia.
  - left. lia.
  - left. lia.
  - right. split; [lia|]. by etrans.
Qed.

Lemma order_desc_perm (l : list (string * A)) : order_desc createdAt l ≡ₚ l.
Proof. apply merge_sort_Permutation. Qed.

Lemma order_desc_sorted (l : list (string * A)) :
  StronglySorted (at_or_before createdAt) (order_desc createdAt l).
Proof. apply StronglySorted_merge_sort; apply _. Qed.

Lemma startAfter_sublist c (l : list (string * A)) :
  startAfter createdAt c l `sublist_of` l.
Proof. apply sublist_filter. Qed.

Lemma page_after_sublist coll p limit c :
  page_after createdAt coll p limit c `sublist_of` candidates createdAt coll p.
Proof.
  unfold page_after. destruct c; [|apply sublist_take].
  etrans; [apply sublist_take|apply startAfter_sublist].
Qed.

(** The page of a query that resolves is the page after some cursor. *)
Lemma run_query_page coll p limit lastId docs :
  run_query createdAt coll p limit lastId = Some docs →
  ∃ c, docs = page_after createdAt coll p limit c.
Proof. unfold run_query. destruct (cursor_of _ _); intros [= <-]; eauto. Qed.

Lemma run_query_sublist coll p limit lastId docs :
  run_query createdAt coll p limit lastId = Some docs →
  docs `sublist_of` candidates createdAt coll p.
Proof. intros [c ->]%run_query_page. apply page_after_sublist. Qed.

Lemma candidates_elem coll p i x :
  (i, x) ∈ candidates createdAt coll p ↔ coll !! i = Some x ∧ p x = true.
Proof.
  unfold candidates. rewrite order_desc_perm, list_elem_of_filter.
  rewrite elem_of_map_to_list. simpl. tauto.
Qed.

Lemma candidates_NoDup coll p : NoDup (candidates createdAt coll p).*1.
Proof.
  unfold candidates. rewrite order_desc_perm.
  apply (sublist_NoDup _ (map_to_list coll).*1); [apply NoDup_fst_map_to_list|].
  apply fmap_sublist, sublist_filter.
Qed.

Lemma run_query_elem coll p limit lastId docs i x :
  run_query createdAt coll p limit lastId = Some docs →
  (i, x) ∈ docs → coll !! i = Some x ∧ p x = true.
Proof.
  intros Hq H. apply candidates_elem.
  eapply elem_of_sublist; [exact H|by eapply run_query_sublist].
Qed.

Lemma run_query_NoDup coll p limit lastId docs :
  run_query createdAt coll p limit lastId = Some docs → NoDup docs.*1.
Proof.
  intros Hq.
  apply (sublist_NoDup _ (candidates createdAt coll p).*1);
    [apply candidates_NoDup|].
  by eapply fmap_sublist, run_query_sublist.
Qed.

Lemma sorted_sublist (R : relation (string * A)) l1 l2 :
  l1 `sublist_of` l2 → StronglySorted R l2 → StronglySorted R l1.
Proof.
  induction 1 as [|x l1 l2 Hs IH|x l1 l2 Hs IH]; intros HS.
  - constructor.
  - apply StronglySorted_cons in HS as [Hall HS].
    apply StronglySorted_cons. split; [|by apply IH].
    rewrite Forall_forall in Hall |- *. intros y Hy. apply Hall.
    by eapply elem_of_sublist.
  - apply StronglySorted_cons in HS as [_ HS]. by apply IH.
Qed.

Lemma run_query_sorted coll p limit lastId docs :
  run_query createdAt coll p limit lastId = Some docs →
  StronglySorted (at_or_before createdAt) docs.
Proof.
  intros Hq. eapply sorted_sublist; [by eapply run_query_sublist|].
  apply order_desc_sorted.
Qed.

Lemma run_query_length coll p limit lastId docs :
  run_query createdAt coll p limit lastId = Some docs → (length docs ≤ limit)%nat.
Proof.
  intros [c ->]%run_query_page. unfold page_after. rewrite length_take. lia.
Qed.

(** A cursor that names no position leaves the query at the top of the
    order. *)
Lemma run_query_from_top coll p limit lastId :
  empty_cursor coll lastId →
  run_query createdAt coll p limit lastId =
    Some (take limit (candidates createdAt coll p)).
Proof.
  unfold run_query, cursor_of. intros [->|[-> Hid]]; [done|].
  rewrite (doc_id_points_to_document _ Hid). by destruct (JS.truthy lastId).
Qed.

(** A query with an accepted cursor resolves. *)
Lemma run_query_is_Some coll p limit lastId :
  accepted_cursor coll lastId →
  is_Some (run_query createdAt coll p limit lastId).
Proof.
  unfold run_query, cursor_of, accepted_cursor.
  destruct (JS.truthy lastId); [|eauto].
  destruct (coll !! JS.or_empty lastId); [eauto|].
  intros [?|[[]|Hid]]; try done.
  rewrite (doc_id_points_to_document _ Hid). eauto.
Qed.

Lemma page_hasMore_iff (docs : list (string * A)) limit :
  (length docs ≤ limit)%nat →
  page_hasMore docs limit = true ↔ length docs = limit.
Proof. intros H. unfold page_hasMore. rewrite bool_decide_eq_true. lia. Qed.

End QueryFacts.

Section BatchFacts.

Lemma msg_set_read_idemp m : msg_set_read (msg_set_read m) = msg_set_read m.
Proof. done. Qed.

Lemma flip_read_lookup ids (m : gmap string Message) i :
  flip_read ids m !! i =
    if bool_decide (i ∈ ids) then msg_set_read <$> m !! i else m !! i.
Proof.
  induction ids as [|j ids IH]; simpl; [done|].
  rewrite lookup_alter. destruct (decide (j = i)) as [->|Hne].
  - rewrite bool_decide_eq_true_2 by (by left). rewrite IH.
    case_bool_decide; [|done]. by destruct (m !! i).
  - rewrite IH.
    rewrite (bool_decide_ext (i ∈ j :: ids) (i ∈ ids)); [done|].
    rewrite elem_of_cons. naive_solver.
Qed.

Lemma ntf_mark_lookup ids (m : gmap string Notification) i :
  mark_all_read ids m !! i =
    if bool_decide (i ∈ ids) then ntf_set_read <$> m !! i else m !! i.
Proof.
  induction ids as [|j ids IH]; simpl; [done|].
  rewrite lookup_alter. destruct (decide (j = i)) as [->|Hne].
  - rewrite bool_decide_eq_true_2 by (by left). rewrite IH.
    case_bool_decide; [|done]. by destruct (m !! i).
  - rewrite IH.
    rewrite (bool_decide_ext (i ∈ j :: ids) (i ∈ ids)); [done|].
    rewrite elem_of_cons. naive_solver.
Qed.

Lemma unread_messages_elem uid chatId st i m :
  (i, m) ∈ unread_messages uid chatId st ↔
  messages st !! i = Some m ∧ msg_chatId m = chatId ∧ unread_for uid m = true.
Proof.
  unfold unread_messages. rewrite list_elem_of_filter, elem_of_map_to_list.
  simpl. tauto.
Qed.

Lemma unread_for_true uid m :
  unread_for uid m = true ↔ msg_senderId m ≠ uid ∧ msg_read m = false.
Proof.
  unfold unread_for.
  rewrite andb_true_iff, !negb_true_iff, bool_decide_eq_false. done.
Qed.

End BatchFacts.

(** ** List messages: read-acknowledgement on view *)

Section ListMessages.

Lemma update_unreadCount_insert chatId u (m : gmap string Chat) c :
  m !! chatId = Some c →
  update_unreadCount chatId u m = <[chatId := chat_set_unreadCount u c]> m.
Proof.
  intros H. unfold update_unreadCount. apply map_eq. intros j.
  rewrite lookup_alter, lookup_insert.
  destruct (decide (chatId = j)) as [->|]; [by rewrite H|done].
Qed.

(** The ids the list handler flips are those of the unread messages of the
    page that the caller did not send. *)
Lemma flipped_elem uid (docs : list (string * Message)) i :
  i ∈ (filter (λ d, unread_for uid d.2 = true) docs).*1 ↔
  ∃ m, (i, m) ∈ docs ∧ unread_for uid m = true.
Proof.
  rewrite list_elem_of_fmap. split.
  - intros [[j m] [-> [H1 H2]%list_elem_of_filter]]. eauto.
  - intros [m [H1 H2]]. exists (i, m). split; [done|].
    by apply list_elem_of_filter.
Qed.

(** The answer and the writes of the list handler for a participant, a
    page [docs] of the query and a batch that commits. *)
Lemma listMessages_committed env uid chatId limit lastId st c docs :
  chats st !! chatId = Some c →
  uid ∈ chat_participants c →
  commit_ok env = true →
  run_query msg_createdAt (messages st)
    (λ m, bool_decide (msg_chatId m = chatId)) (parseInt_limit limit) lastId
    = Some docs →
  let flipped := (filter (λ d, unread_for uid d.2 = true) docs).*1 in
  let k := Z.of_nat (length flipped) in
  listMessages env uid chatId limit lastId st =
    ({| status := 200; message := "";
        data := MessagePage (docs.*2) (page_lastId docs)
                  (page_hasMore docs (parseInt_limit limit)) |},
     if bool_decide (0 < k) then
       set_chats
         (<[chatId := chat_set_unreadCount
              (<[uid := Z.max 0 (JS.get_or_zero (chat_unreadCount c) uid - k)]>
                 (chat_unreadCount c)) c]>)
         (set_messages (flip_read flipped) st)
     else set_messages (flip_read flipped) st).
Proof.
  intros Hc Hin%includes_true Hok Hq flipped k.
  unfold listMessages. rewrite Hc. unfold listMessages_with.
  rewrite Hin. simpl. rewrite Hq, Hok. fold flipped. fold k.
  f_equal. destruct (bool_decide (0 < k)); [|done].
  unfold set_chats. simpl. f_equal. by apply update_unreadCount_insert.
Qed.

(** *** Claim C6.
    When a participant lists the messages of a chat, with a page size that
    is positive and a cursor that is absent, names a stored message or is a
    document id, and the batch commits: the handler answers with the page
    of the query, and every message of the returned page that is unread and
    was not sent by the caller is flipped to read; no other message
    changes: not those the caller sent, not those that were read already,
    not those outside the page.  The ids flipped are pairwise different and
    are exactly the messages whose read flag changed in the call; when
    their number [k] is positive, the caller's unread counter becomes
    [max 0 (old - k)], an absent counter counting as zero, and no other
    counter and no other field of the chat changes; when it is zero the
    chats are left as they are. *)
Theorem listMessages_read_on_view env uid chatId limit lastId st c :
  chats st !! chatId = Some c →
  uid ∈ chat_participants c →
  commit_ok env = true →
  accepted_cursor (messages st) lastId →
  (0 < parseInt_limit limit)%nat →
  let r := listMessages env uid chatId limit lastId st in
  ∃ docs,
  run_query msg_createdAt (messages st)
    (λ m, bool_decide (msg_chatId m = chatId)) (parseInt_limit limit) lastId
    = Some docs ∧
  let flipped := (filter (λ d, unread_for uid d.2 = true) docs).*1 in
  let k := Z.of_nat (length flipped) in
  r.1 = {| status := 200; message := "";
           data := MessagePage (docs.*2) (page_lastId docs)
                     (page_hasMore docs (parseInt_limit limit)) |} ∧
  (∀ i m, (i, m) ∈ docs → msg_senderId m ≠ uid → msg_read m = false →
          messages r.2 !! i = Some (msg_set_read m)) ∧
  (∀ i m, messages st !! i = Some m → msg_senderId m = uid →
          messages r.2 !! i = Some m) ∧
  (∀ i m, messages st !! i = Some m → msg_read m = true →
          messages r.2 !! i = Some m) ∧
  (∀ i, i ∉ docs.*1 → messages r.2 !! i = messages st !! i) ∧
  NoDup flipped ∧
  (∀ i, i ∈ flipped ↔
        ∃ m, messages st !! i = Some m ∧ msg_read m = false ∧
             messages r.2 !! i = Some (msg_set_read m)) ∧
  (0 < k →
     ∃ c', chats r.2 = <[chatId := c']> (chats st) ∧
           chat_unreadCount c' !! uid =
             Some (Z.max 0 (JS.get_or_zero (chat_unreadCount c) uid - k)) ∧
           (∀ j, j ≠ uid → chat_unreadCount c' !! j = chat_unreadCount c !! j) ∧
           chat_lastMessage c' = chat_lastMessage c ∧
           chat_lastMessageAt c' = chat_lastMessageAt c ∧
           chat_participants c' = chat_participants c) ∧
  (k = 0 → chats r.2 = chats st) ∧
  users r.2 = users st ∧ notifications r.2 = notifications st ∧
  follows r.2 = follows st.
Proof.
  intros Hc Hin Hok Hcur _ r.
  apply (run_query_is_Some msg_createdAt (messages st)
           (λ m, bool_decide (msg_chatId m = chatId)) (parseInt_limit limit))
    in Hcur as [docs Hq].
  exists docs. split; [exact Hq|]. intros flipped k.
  pose proof (listMessages_committed env uid chatId limit lastId st c docs
                Hc Hin Hok Hq) as Hr.
  simpl in Hr. fold flipped in Hr. fold k in Hr. fold r in Hr.
  assert (Hdocs : ∀ i m, (i, m) ∈ docs → messages st !! i = Some m).
  { intros i m H. by eapply run_query_elem in H as [? _]. }
  assert (Hnodup : NoDup docs.*1) by (by eapply run_query_NoDup).
  assert (Hfl : ∀ i, i ∈ flipped ↔ ∃ m, (i, m) ∈ docs ∧ unread_for uid m = true)
    by (intros i; apply flipped_elem).
  assert (Hmsgs : messages r.2 = flip_read flipped (messages st)).
  { rewrite Hr. simpl. by destruct (bool_decide (0 < k)). }
  assert (Hlook : ∀ i, messages r.2 !! i =
            if bool_decide (i ∈ flipped) then msg_set_read <$> messages st !! i
            else messages st !! i).
  { intros i. rewrite Hmsgs. apply flip_read_lookup. }
  assert (Hin_docs : ∀ i, i ∈ flipped → i ∈ docs.*1).
  { intros i [m [H _]]%Hfl. apply list_elem_of_fmap. by exists (i, m). }
  split; [by rewrite Hr|].
  split.
  { intros i m Hd Hs Hrd. rewrite Hlook, bool_decide_eq_true_2.
    - by rewrite (Hdocs _ _ Hd).
    - apply Hfl. exists m. split; [done|]. by apply unread_for_true. }
  split.
  { intros i m Hm Hs. rewrite Hlook, bool_decide_eq_false_2; [done|].
    intros [m' [Hd Hu]]%Hfl. apply Hdocs in Hd.
    apply unread_for_true in Hu as [Hu _]. congruence. }
  split.
  { intros i m Hm Hrd. rewrite Hlook, bool_decide_eq_false_2; [done|].
    intros [m' [Hd Hu]]%Hfl. apply Hdocs in Hd.
    apply unread_for_true in Hu as [_ Hu]. congruence. }
  split.
  { intros i Hi. rewrite Hlook, bool_decide_eq_false_2; [done|]. auto. }
  split.
  { subst flipped. apply (sublist_NoDup _ docs.*1); [done|].
    apply fmap_sublist, sublist_filter. }
  split.
  { intros i. split.
    - intros Hi. pose proof Hi as [m [Hd Hu]]%Hfl.
      apply unread_for_true in Hu as [_ Hu]. exists m.
      split; [by apply Hdocs|]. split; [done|].
      rewrite Hlook, bool_decide_eq_true_2 by done. by rewrite (Hdocs _ _ Hd).
    - intros (m & Hm & Hrd & Hm'). rewrite Hlook in Hm'.
      case_bool_decide; [done|]. rewrite Hm in Hm'.
      injection Hm' as Hm'.
      assert (msg_read m = true) by (by rewrite Hm'). congruence. }
  split.
  { intros Hk. rewrite Hr. rewrite bool_decide_eq_true_2 by done.
    eexists. split; [reflexivity|]. simpl.
    split; [apply lookup_insert_eq|].
    split; [|done]. intros j Hj. by rewrite lookup_insert_ne. }
  split.
  { intros Hk. rewrite Hr. rewrite bool_decide_eq_false_2; [done|lia]. }
  rewrite Hr. by destruct (bool_decide (0 < k)).
Qed.

(** [B] views the chat in which [A] has sent one message: the counter of
    [B] goes from 1 to 0. *)
Lemma listMessages_read_on_view_witness :
  ∃ c', chats (listMessages (Scenario.env 3 "" "") "B" "A_B" None None
                 Race.st_sent).2 = <["A_B" := c']> (chats Race.st_sent) ∧
        chat_unreadCount c' !! "B" = Some 0 ∧
        chat_unreadCount c' !! "A" = Some 0.
Proof.
  destruct (listMessages_read_on_view (Scenario.env 3 "" "") "B" "A_B" None None
              Race.st_sent Race.chat_sent)
    as (docs & Hq & _ & _ & _ & _ & _ & _ & _ & H & _).
  - vm_compute. reflexivity.
  - elem_of_concrete.
  - reflexivity.
  - by left.
  - simpl. lia.
  - injection Hq as <-. destruct H as (c' & H1 & H2 & H3 & _).
    + vm_compute. reflexivity.
    + exists c'. split; [exact H1|]. split.
      * rewrite H2. vm_compute. reflexivity.
      * rewrite H3 by discriminate. vm_compute. reflexivity.
Defined.

End ListMessages.

(** ** Pagination *)

Section Pagination.

Lemma run_query_cursor_ignored {A} (createdAt : A → Z) coll p limit lastId :
  empty_cursor coll lastId →
  run_query createdAt coll p limit lastId = run_query createdAt coll p limit None.
Proof.
  intros H. rewrite (run_query_from_top _ _ _ _ lastId) by done.
  by rewrite (run_query_from_top _ _ _ _ None) by (by left).
Qed.

Lemma asks_for_parseInt limit pageSize :
  asks_for limit pageSize → parseInt_limit limit = pageSize.
Proof. by intros [->|[-> ->]]. Qed.

(** *** Claim C7, as amended.
    For the list of the messages of a chat (called by a participant, the
    batch committing) and for the list of the notifications of a user, with
    a positive page size [pageSize] (the value of [limit], or 20 without
    one) and a cursor that is absent, names a stored document or is a
    document id: the call answers with a page of at most [pageSize] items,
    and the [hasMore] flag is true exactly when the page holds exactly
    [pageSize] items; with a cursor that is absent or empty, or is a
    document id that names no document of the collection, the call answers
    as the call without cursor does, with the first [pageSize] documents of
    the descending order, and no error. *)
Theorem pagination_contract :
  (∀ env uid chatId limit pageSize lastId st c,
     chats st !! chatId = Some c → uid ∈ chat_participants c →
     commit_ok env = true →
     asks_for limit pageSize → (0 < pageSize)%nat →
     accepted_cursor (messages st) lastId →
     ∃ ms last more,
       (listMessages env uid chatId limit lastId st).1 =
         {| status := 200; message := ""; data := MessagePage ms last more |} ∧
       (length ms ≤ pageSize)%nat ∧
       (more = true ↔ length ms = pageSize) ∧
       (empty_cursor (messages st) lastId →
          ms = (take pageSize
                  (candidates msg_createdAt (messages st)
                     (λ m, bool_decide (msg_chatId m = chatId)))).*2 ∧
          listMessages env uid chatId limit lastId st =
            listMessages env uid chatId limit None st)) ∧
  (∀ userId limit pageSize lastId st,
     asks_for limit pageSize → (0 < pageSize)%nat →
     accepted_cursor (notifications st) lastId →
     ∃ ns last more,
       getUserNotifications userId limit lastId st = Some (ns, last, more) ∧
       (length ns ≤ pageSize)%nat ∧
       (more = true ↔ length ns = pageSize) ∧
       (empty_cursor (notifications st) lastId →
          ns = (take pageSize
                  (candidates ntf_createdAt (notifications st)
                     (λ n, bool_decide (ntf_userId n = userId)))).*2 ∧
          getUserNotifications userId limit lastId st =
            getUserNotifications userId limit None st)).
Proof.
  split.
  - intros env uid chatId limit pageSize lastId st c Hc Hin Hok Hsize _ Hcur.
    apply asks_for_parseInt in Hsize.
    apply (run_query_is_Some msg_createdAt (messages st)
             (λ m, bool_decide (msg_chatId m = chatId)) (parseInt_limit limit))
      in Hcur as [docs Hq].
    rewrite (listMessages_committed env uid chatId limit lastId st c docs
               Hc Hin Hok Hq). simpl.
    pose proof (run_query_length _ _ _ _ _ _ Hq) as Hlen. rewrite Hsize in *.
    eexists _, _, _. split; [reflexivity|].
    split; [by rewrite length_fmap|].
    split; [rewrite length_fmap; by apply page_hasMore_iff|].
    intros Hempty.
    pose proof (run_query_cursor_ignored msg_createdAt (messages st)
                  (λ m, bool_decide (msg_chatId m = chatId)) pageSize lastId Hempty)
      as Hsame.
    rewrite Hq in Hsame. split.
    + rewrite run_query_from_top in Hq by done. by injection Hq as <-.
    + symmetry.
      rewrite (listMessages_committed env uid chatId limit None st c docs
                 Hc Hin Hok); [by rewrite Hsize|by rewrite Hsize].
  - intros userId limit pageSize lastId st Hsize _ Hcur.
    apply asks_for_parseInt in Hsize.
    apply (run_query_is_Some ntf_createdAt (notifications st)
             (λ n, bool_decide (ntf_userId n = userId)) (parseInt_limit limit))
      in Hcur as [docs Hq].
    unfold getUserNotifications. rewrite Hq.
    pose proof (run_query_length _ _ _ _ _ _ Hq) as Hlen. rewrite Hsize in *.
    eexists _, _, _. split; [reflexivity|].
    split; [by rewrite length_fmap|].
    split; [rewrite length_fmap; by apply page_hasMore_iff|].
    intros Hempty.
    rewrite <- (run_query_cursor_ignored ntf_createdAt (notifications st)
                  (λ n, bool_decide (ntf_userId n = userId)) pageSize lastId Hempty).
    rewrite Hq. split; [|done].
    rewrite run_query_from_top in Hq by done. by injection Hq as <-.
Qed.

(** [B] lists the chat in which [A] has sent one message, with a cursor
    that names no message: one message comes back and [hasMore] is
    false. *)
Lemma pagination_contract_witness :
  ∃ ms last more,
    (listMessages (Scenario.env 3 "" "") "B" "A_B" (Some 10%nat) (Some "gone")
       Race.st_sent).1 =
      {| status := 200; message := ""; data := MessagePage ms last more |} ∧
    (more = true ↔ length ms = 10%nat) ∧
    listMessages (Scenario.env 3 "" "") "B" "A_B" (Some 10%nat) (Some "gone")
      Race.st_sent =
    listMessages (Scenario.env 3 "" "") "B" "A_B" (Some 10%nat) None Race.st_sent.
Proof.
  destruct (proj1 pagination_contract (Scenario.env 3 "" "") "B" "A_B"
              (Some 10%nat) 10%nat (Some "gone") Race.st_sent Race.chat_sent)
    as (ms & last & more & H1 & _ & H2 & H3).
  - vm_compute. reflexivity.
  - elem_of_concrete.
  - reflexivity.
  - by left.
  - lia.
  - right. right. reflexivity.
  - exists ms, last, more. split; [exact H1|]. split; [exact H2|].
    apply H3. right. split; [vm_compute; reflexivity|reflexivity].
Defined.

(** *** Claim C7, as stated, fails.
    The string ["x/y"] names no message and no notification, and it is no
    document id.  As the cursor of the list of the messages of the chat of
    [A] and [B], asked by [B], it is answered with 500, and nothing is
    written; as the cursor of the list of the notifications of [R] it makes
    the call reject.  Without cursor the same calls answer 200 and
    return a page. *)
Lemma malformed_cursor_is_an_error :
  messages Race.st_sent !! "x/y" = None ∧
  status (listMessages (Scenario.env 3 "" "") "B" "A_B" None (Some "x/y")
            Race.st_sent).1 = 500%nat ∧
  (listMessages (Scenario.env 3 "" "") "B" "A_B" None (Some "x/y")
     Race.st_sent).2 = Race.st_sent ∧
  status (listMessages (Scenario.env 3 "" "") "B" "A_B" None None
            Race.st_sent).1 = 200%nat ∧
  notifications Push.st_tokens !! "x/y" = None ∧
  getUserNotifications "R" None (Some "x/y") Push.st_tokens = None ∧
  getUserNotifications "R" None None Push.st_tokens = Some ([], None, false).
Proof.
  split; [vm_compute; reflexivity|].
  split; [vm_compute; reflexivity|].
  split; [vm_compute; reflexivity|].
  split; [vm_compute; reflexivity|].
  split; [vm_compute; reflexivity|].
  split; vm_compute; reflexivity.
Qed.

End Pagination.

(** ** Mark chat read *)

Section MarkChatRead.

(** *** Claim C2, as amended.
    After mark-chat-read by a participant on an existing chat (the batch
    committing), every message of the chat not sent by the caller has its
    read flag set, and no other message is touched.  The caller's unread
    counter is set to zero, other counters and fields left alone, when at
    least one such message was unread before the call; when none was, the
    call writes nothing, and the counter stays what it was. *)
Theorem markChatRead_effect env uid chatId st c :
  chats st !! chatId = Some c →
  uid ∈ chat_participants c →
  commit_ok env = true →
  let r := markChatRead env uid chatId st in
  status r.1 = 200%nat ∧
  (∀ i m, messages st !! i = Some m → msg_chatId m = chatId →
          msg_senderId m ≠ uid →
          ∃ m', messages r.2 !! i = Some m' ∧ msg_read m' = true ∧
                (m' = m ∨ (msg_read m = false ∧ m' = msg_set_read m))) ∧
  (∀ i m, messages st !! i = Some m →
          msg_chatId m ≠ chatId ∨ msg_senderId m = uid →
          messages r.2 !! i = Some m) ∧
  (unread_messages uid chatId st ≠ [] →
     ∃ c', chats r.2 = <[chatId := c']> (chats st) ∧
           chat_unreadCount c' !! uid = Some 0 ∧
           (∀ j, j ≠ uid → chat_unreadCount c' !! j = chat_unreadCount c !! j) ∧
           chat_lastMessage c' = chat_lastMessage c ∧
           chat_lastMessageAt c' = chat_lastMessageAt c ∧
           chat_participants c' = chat_participants c) ∧
  (unread_messages uid chatId st = [] → r.2 = st).
Proof.
  intros Hc Hin Hok r. subst r. apply includes_true in Hin.
  unfold markChatRead. rewrite Hc, Hin. simpl.
  destruct (decide (unread_messages uid chatId st = [])) as [Hnil|Hnil].
  - rewrite bool_decide_eq_false_2 by (by intros ?). simpl.
    split; [done|]. split; [|by split].
    intros i m Hm Hch Hs. exists m. split; [done|].
    split; [|by left].
    destruct (msg_read m) eqn:Hr; [done|]. exfalso.
    assert ((i, m) ∈ unread_messages uid chatId st) as Hel.
    { apply unread_messages_elem. split; [done|]. split; [done|].
      by apply unread_for_true. }
    rewrite Hnil in Hel. by apply elem_of_nil in Hel.
  - rewrite bool_decide_eq_true_2 by done. rewrite Hok. simpl.
    assert (Hids : ∀ i, i ∈ (unread_messages uid chatId st).*1 ↔
              ∃ m, messages st !! i = Some m ∧ msg_chatId m = chatId ∧
                   unread_for uid m = true).
    { intros i. rewrite list_elem_of_fmap. split.
      - intros [[j m] [-> H]]. exists m. by apply unread_messages_elem.
      - intros [m H]. exists (i, m). split; [done|].
        by apply unread_messages_elem. }
    split; [done|]. split; [|split; [|split]].
    + intros i m Hm Hch Hs. rewrite flip_read_lookup, Hm.
      destruct (msg_read m) eqn:Hr.
      * exists m. rewrite bool_decide_eq_false_2; [by auto|].
        intros [m' (Hm' & _ & [_ Hu]%unread_for_true)]%Hids. congruence.
      * exists (msg_set_read m). rewrite bool_decide_eq_true_2; [by auto|].
        apply Hids. exists m. split; [done|]. split; [done|].
        by apply unread_for_true.
    + intros i m Hm Hor. rewrite flip_read_lookup, Hm.
      rewrite bool_decide_eq_false_2; [done|].
      intros [m' (Hm' & Hch & [Hs _]%unread_for_true)]%Hids.
      destruct Hor; congruence.
    + intros _. rewrite (update_unreadCount_insert _ _ _ c) by done.
      eexists. split; [reflexivity|]. simpl.
      split; [apply lookup_insert_eq|]. split; [|done].
      intros j Hj. by rewrite lookup_insert_ne.
    + done.
Qed.

(** [B] marks the chat read after [A] has sent one message. *)
Lemma markChatRead_effect_witness :
  ∃ c', chats (markChatRead (Scenario.env 3 "" "") "B" "A_B" Race.st_sent).2
          = <["A_B" := c']> (chats Race.st_sent) ∧
        chat_unreadCount c' !! "B" = Some 0.
Proof.
  destruct (markChatRead_effect (Scenario.env 3 "" "") "B" "A_B" Race.st_sent
              Race.chat_sent) as (_ & _ & _ & H & _).
  - vm_compute. reflexivity.
  - elem_of_concrete.
  - reflexivity.
  - destruct H as (c' & H1 & H2 & _).
    + vm_compute. discriminate.
    + exists c'. split; [exact H1|exact H2].
Defined.

(** *** Claim C2, as stated, fails.
    In the store [Race.st_viewed_again] (left by a send of [A] that read the
    chat before a view by [B] and committed after it, and a second view by
    [B]) the chat of [A] and [B] exists, [B] is a participant, no message is
    unread for [B], and the unread counter of [B] is 1.  Mark-chat-read by
    [B] answers 200 and leaves the counter at 1: with nothing unread the
    handler writes nothing. *)
Lemma markChatRead_keeps_stale_counter :
  JS.includes ["A"; "B"] "B" = true ∧
  chat_participants <$> chats Race.st_viewed_again !! "A_B" = Some ["A"; "B"] ∧
  unread_messages "B" "A_B" Race.st_viewed_again = [] ∧
  status (markChatRead (Scenario.env 6 "" "") "B" "A_B" Race.st_viewed_again).1
    = 200%nat ∧
  (chats (markChatRead (Scenario.env 6 "" "") "B" "A_B" Race.st_viewed_again).2
     !! "A_B") ≫= (λ c, chat_unreadCount c !! "B") = Some 1 ∧
  (chats (markChatRead (Scenario.env 6 "" "") "B" "A_B" Race.st_viewed_again).2
     !! "A_B") ≫= (λ c, chat_unreadCount c !! "B") ≠ Some 0.
Proof.
  split; [vm_compute; reflexivity|].
  split; [vm_compute; reflexivity|].
  split; [vm_compute; reflexivity|].
  split; [vm_compute; reflexivity|].
  split; [vm_compute; reflexivity|].
  vm_compute. discriminate.
Qed.

End MarkChatRead.

(** ** Mark notifications read *)

Section MarkNotifications.

(** *** Claim C10.
    Called with an empty list of ids, mark-notifications-read does what the
    call without a list does: when the batch commits, every unread
    notification of the user is flipped to read and nothing else changes. *)
Theorem markNotificationsAsRead_empty_list env userId st :
  markNotificationsAsRead env userId (Some []) st =
    markNotificationsAsRead env userId None st ∧
  (commit_ok env = true →
     ∃ st', markNotificationsAsRead env userId (Some []) st = Some st' ∧
       (∀ i n, notifications st !! i = Some n → ntf_userId n = userId →
               ntf_read n = false →
               notifications st' !! i = Some (ntf_set_read n)) ∧
       (∀ i n, notifications st !! i = Some n →
               ntf_userId n ≠ userId ∨ ntf_read n = true →
               notifications st' !! i = Some n) ∧
       (∀ i, notifications st !! i = None → notifications st' !! i = None) ∧
       users st' = users st ∧ chats st' = chats st ∧
       messages st' = messages st ∧ follows st' = follows st).
Proof.
  split; [done|]. intros Hok.
  unfold markNotificationsAsRead. rewrite Hok.
  change (default [] (Some [])) with (@nil string).
  rewrite bool_decide_eq_false_2 by (simpl; lia).
  eexists. split; [reflexivity|]. simpl.
  set (ids := (filter (λ d : string * Notification,
                 ntf_userId d.2 = userId ∧ ntf_read d.2 = false)
                 (map_to_list (notifications st))).*1).
  assert (Hids : ∀ i, i ∈ ids ↔
            ∃ n, notifications st !! i = Some n ∧ ntf_userId n = userId ∧
                 ntf_read n = false).
  { intros i. subst ids. rewrite list_elem_of_fmap. split.
    - intros [[j n] [-> [H1 H2%elem_of_map_to_list]%list_elem_of_filter]].
      exists n. simpl in *. tauto.
    - intros (n & H1 & H2 & H3). exists (i, n). split; [done|].
      apply list_elem_of_filter. split; [done|]. by apply elem_of_map_to_list. }
  split; [|split; [|split]].
  - intros i n Hn Hu Hr. rewrite ntf_mark_lookup, Hn.
    rewrite bool_decide_eq_true_2; [done|]. apply Hids. eauto.
  - intros i n Hn Hor. rewrite ntf_mark_lookup, Hn.
    rewrite bool_decide_eq_false_2; [done|].
    intros (n' & Hn' & Hu & Hr)%Hids. destruct Hor; congruence.
  - intros i Hn. rewrite ntf_mark_lookup, Hn. by case_bool_decide.
  - done.
Qed.

End MarkNotifications.

(** ** Notification fan-out *)

Section FanOut.

Lemma dropped_elem gw i tokens t :
  t ∈ dropped gw i tokens ↔
  ∃ j, tokens !! j = Some t ∧ invalid_answer (gw (i + j)%nat t) = true.
Proof.
  revert i. induction tokens as [|x ts IH]; intros i; simpl.
  - rewrite elem_of_nil. split; [done|]. by intros [j [? _]].
  - destruct (invalid_answer (gw i x)) eqn:Hx.
    + rewrite elem_of_cons, IH. split.
      * intros [->|[j [H1 H2]]].
        -- exists 0%nat. by rewrite Nat.add_0_r.
        -- exists (S j). by rewrite Nat.add_succ_r.
      * intros [[|j] [H1 H2]]; simpl in H1.
        -- left. congruence.
        -- right. exists j. by rewrite Nat.add_succ_r in H2.
    + rewrite IH. split.
      * intros [j [H1 H2]]. exists (S j). by rewrite Nat.add_succ_r.
      * intros [[|j] [H1 H2]]; simpl in H1.
        -- injection H1 as ->. rewrite Nat.add_0_r in H2. congruence.
        -- exists j. by rewrite Nat.add_succ_r in H2.
Qed.

End FanOut.

Section FanOutScenario.

(** *** Claim C3, at the failing input.
    The scenario of the specification: the recipient [R] has the three
    tokens [t1], [t2] and [t3]; the delivery to [t2] is answered with a
    not-registered error and the delivery to [t3] with a transient one; the
    store accepts the notification record.  The record is stored and a
    delivery is attempted for each of the three tokens, but the dispatcher
    throws and [t2] stays registered: the tokens of [R] are the three they
    were, not [t1] and [t3] as [arrayRemove] would leave them.  Whatever
    the gateway answers, the dispatcher changes no user record: no token is
    removed by any call. *)
Theorem invalid_token_stays_registered :
  let d := sendNotification Push.env_flaky Push.like_of_A Push.st_tokens in
  (users Push.st_tokens !! "R") ≫= user_fcmTokens = Some ["t1"; "t2"; "t3"] ∧
  gateway Push.env_flaky 1 "t2" =
    Rejected "messaging/registration-token-not-registered" ∧
  invalid_token_code "messaging/registration-token-not-registered" = true ∧
  gateway Push.env_flaky 2 "t3" = Rejected "messaging/internal-error" ∧
  invalid_token_code "messaging/internal-error" = false ∧
  notifications (d_store d) !! "n1" =
    Some {| ntf_notificationId := "n1"; ntf_userId := "R"; ntf_type := "like";
            ntf_actorId := "A"; ntf_actorName := "A";
            ntf_message := "A liked your post"; ntf_data := [("postId", "p1")];
            ntf_read := false; ntf_createdAt := 7 |} ∧
  d_attempts d = ["t1"; "t2"; "t3"] ∧
  d_threw d = true ∧
  (users (d_store d) !! "R") ≫= user_fcmTokens = Some ["t1"; "t2"; "t3"] ∧
  arrayRemove firestore_FieldValue "t2" ["t1"; "t2"; "t3"] = ["t1"; "t3"] ∧
  db_FieldValue = None ∧
  (∀ env p st, users (d_store (sendNotification env p st)) = users st).
Proof.
  split; [vm_compute; reflexivity|].
  split; [reflexivity|].
  split; [reflexivity|].
  split; [reflexivity|].
  split; [reflexivity|].
  split; [vm_compute; reflexivity|].
  split; [vm_compute; reflexivity|].
  split; [vm_compute; reflexivity|].
  split; [vm_compute; reflexivity|].
  split; [vm_compute; reflexivity|].
  split; [reflexivity|]. apply sendNotification_users.
Qed.

Lemma markNotificationsAsRead_empty_list_witness :
  ∃ st', markNotificationsAsRead Push.env_flaky "R" (Some [])
           (d_store (sendNotification Push.env_flaky Push.like_of_A Push.st_tokens))
         = Some st' ∧
         ntf_read <$> notifications st' !! "n1" = Some true.
Proof.
  destruct (proj2 (markNotificationsAsRead_empty_list Push.env_flaky "R"
              (d_store (sendNotification Push.env_flaky Push.like_of_A Push.st_tokens))))
    as (st' & H1 & H2 & _).
  - reflexivity.
  - exists st'. split; [exact H1|].
    rewrite (H2 "n1" (notification_of Push.env_flaky Push.like_of_A)).
    + reflexivity.
    + vm_compute. reflexivity.
    + reflexivity.
    + reflexivity.
Defined.

End FanOutScenario.

(** ** Isolation of dispatch failures *)

Section DispatchIsolation.

(** The send handler swallows what the dispatcher throws: a well-formed
    send by a participant whose transaction commits answers 201, whatever
    the store and the gateway answer to the dispatcher, and chats and
    messages stay as the transaction left them. *)
Lemma sendMessage_isolated env uid chatId b st c :
  chats st !! chatId = Some c →
  uid ∈ chat_participants c →
  ¬ text_request_blank b → ¬ image_request_without_media b →
  commit_ok env = true →
  ∃ st1,
    runTransaction env
      (send_transaction env uid chatId b c
         (JS.find (λ id, negb (bool_decide (id = uid))) (chat_participants c))) st
      = Some st1 ∧
    status (sendMessage env uid chatId b st).1 = 201%nat ∧
    chats (sendMessage env uid chatId b st).2 = chats st1 ∧
    messages (sendMessage env uid chatId b st).2 = messages st1.
Proof.
  intros Hc Hin Ht Hm Hok.
  apply text_missing_false_iff in Ht. apply media_missing_false_iff in Hm.
  apply includes_true in Hin.
  unfold sendMessage. rewrite Ht, Hm, Hc.
  unfold sendMessage_with. rewrite Hin. simpl.
  unfold runTransaction. rewrite Hok.
  rewrite (send_transaction_Some _ _ _ _ _ _ _ _ Hc). simpl.
  eexists. split; [reflexivity|]. split; [done|].
  match goal with |- context [notify_message ?e ?u ?i ?b ?o ?s] =>
    destruct (notify_message_footprint e u i b o s) as (H1 & H2 & _) end.
  by split.
Qed.

(** The follow handler does not: when the notification record cannot be
    stored, the follow, already committed, is answered with 500. *)
Lemma follow_not_isolated env currentUserId userId st cur tgt :
  currentUserId ≠ userId →
  users st !! userId = Some tgt →
  users st !! currentUserId = Some cur →
  userId ∉ user_following cur →
  commit_ok env = true →
  notif_set_ok env = false →
  let r := follow env currentUserId userId st in
  status r.1 = 500%nat ∧
  follows r.2 !! (currentUserId +:+ "_" +:+ userId) =
    Some {| fol_followerId := currentUserId; fol_followingId := userId;
            fol_createdAt := now env |} ∧
  user_following <$> users r.2 !! currentUserId =
    Some (user_following cur ++ [userId])%list ∧
  user_followers <$> users r.2 !! userId =
    Some (user_followers tgt ++ [currentUserId])%list.
Proof.
  intros Hne Htgt Hcur Hnot Hok Hdown r. subst r.
  apply includes_false in Hnot.
  unfold follow. rewrite bool_decide_eq_false_2 by done.
  rewrite Htgt, Hcur, Hnot.
  unfold runTransaction, follow_transaction. rewrite Hok, Hcur, Htgt.
  unfold sendNotification. rewrite Hdown. simpl.
  split; [done|]. split; [apply lookup_insert_eq|]. split.
  - rewrite lookup_alter_ne by done. by rewrite lookup_alter_eq, Hcur.
  - rewrite lookup_alter_eq, lookup_alter_ne by done. by rewrite Htgt.
Qed.

(** *** Claim C4, at the failing input.
    With a store that rejects the notification record, a send by [A] into
    the chat with [B] still answers 201 and keeps its message, but a follow
    of [B] by [A] answers 500 although the follow edge and both lists are
    written. *)
Theorem dispatch_failure_fails_follow :
  status (sendMessage Push.env_notif_down "A" "A_B" (Scenario.text_body "hi")
            Scenario.st_chat).1 = 201%nat ∧
  is_Some (messages (sendMessage Push.env_notif_down "A" "A_B"
                       (Scenario.text_body "hi") Scenario.st_chat).2 !! "m1") ∧
  status (follow Push.env_notif_down "A" "B" Scenario.st_users).1 = 500%nat ∧
  is_Some (follows (follow Push.env_notif_down "A" "B" Scenario.st_users).2
             !! "A_B") ∧
  user_following <$>
    users (follow Push.env_notif_down "A" "B" Scenario.st_users).2 !! "A"
    = Some ["B"] ∧
  user_followers <$>
    users (follow Push.env_notif_down "A" "B" Scenario.st_users).2 !! "B"
    = Some ["A"].
Proof.
  split; [vm_compute; reflexivity|].
  split; [vm_compute; eauto|].
  split; [vm_compute; reflexivity|].
  split; [vm_compute; eauto|].
  split; vm_compute; reflexivity.
Qed.

End DispatchIsolation.

(** ** Concurrent sends *)

Section ConcurrentSends.

(** The counters a send writes are those computed from the chat data read
    before the transaction, whatever the counters of the chat are when the
    transaction runs, and however often it runs. *)
Lemma send_transaction_overwrites env uid chatId b chatData other st st1 :
  send_transaction env uid chatId b chatData other st = Some st1 →
  chat_unreadCount <$> chats st1 !! chatId = Some (incremented chatData other).
Proof.
  unfold send_transaction. destruct (chats st !! chatId); [|done].
  intros [= <-]. simpl. by rewrite lookup_insert_eq.
Qed.

(** *** Claim C9, at the failing interleaving.
    [A] and [B] send at the same time into their chat, whose counters are
    both zero; each handler reads the chat document before either
    transaction commits.  Both sends answer 201 and both messages are
    stored unread, but after the two commits the unread counter of [B] is
    0, not 1: the transaction of [B] wrote the counters it had computed
    from its earlier read, over the increment made by the send of [A].  The
    same sends one after the other leave both counters at 1. *)
Theorem concurrent_sends_lose_increment :
  chats Scenario.st_chat !! "A_B" = Some Scenario.chat_AB ∧
  status (sendMessage_with (Scenario.env 2 "m1" "n1") "A" "A_B"
            (Scenario.text_body "hi") Scenario.chat_AB Scenario.st_chat).1
    = 201%nat ∧
  status (sendMessage_with (Scenario.env 3 "m2" "n2") "B" "A_B"
            (Scenario.text_body "yo") Scenario.chat_AB Race.st_A_committed).1
    = 201%nat ∧
  Race.unread_of Race.st_A_committed "B" = Some 1 ∧
  (msg_senderId <$> messages Race.st_both_committed !! "m1" = Some "A" ∧
   msg_read <$> messages Race.st_both_committed !! "m1" = Some false) ∧
  (msg_senderId <$> messages Race.st_both_committed !! "m2" = Some "B" ∧
   msg_read <$> messages Race.st_both_committed !! "m2" = Some false) ∧
  Race.unread_of Race.st_both_committed "B" = Some 0 ∧
  Race.unread_of Race.st_both_committed "A" = Some 1 ∧
  Race.unread_of Race.st_in_sequence "B" = Some 1 ∧
  Race.unread_of Race.st_in_sequence "A" = Some 1.
Proof. repeat split; vm_compute; reflexivity. Qed.

End ConcurrentSends.

(** ** The counter invariant under sends and read-acknowledgements *)

Section CounterInvariant.

Lemma unread_messages_insert uid chatId st i m :
  messages st !! i = None →
  length (unread_messages uid chatId (set_messages (<[i := m]>) st)) =
    if bool_decide (msg_chatId m = chatId ∧ unread_for uid m = true)
    then S (length (unread_messages uid chatId st))
    else length (unread_messages uid chatId st).
Proof.
  intros Hfresh. unfold unread_messages. simpl.
  rewrite (map_to_list_insert _ _ _ Hfresh), filter_cons. simpl.
  case_bool_decide as Hp.
  - by rewrite decide_True by done.
  - by rewrite decide_False by done.
Qed.

(** *** Extra X11.
    The send handler keeps the counter invariant for both participants
    when no other request runs between its read and its commit: if the
    unread counter of the sender, or of the other participant, equals the
    number of unread messages of the chat that this user did not send, it
    still does after a well-formed send that commits and stores its message
    under a new id. *)
Lemma sendMessage_keeps_consistent env uid chatId b st c other u :
  chats st !! chatId = Some c →
  uid ∈ chat_participants c →
  JS.find (λ id, negb (bool_decide (id = uid))) (chat_participants c) = Some other →
  ¬ text_request_blank b → ¬ image_request_without_media b →
  messages st !! auto_id env = None →
  commit_ok env = true →
  u = uid ∨ u = other →
  counter_consistent st chatId u →
  counter_consistent (sendMessage env uid chatId b st).2 chatId u.
Proof.
  intros Hc Hin Hfind Ht Hm Hfresh Hok Hu (c0 & Hc0 & Hcount).
  rewrite Hc in Hc0. injection Hc0 as <-.
  pose proof (find_other_ne _ _ _ Hfind) as Hne.
  destruct (sendMessage_isolated env uid chatId b st c Hc Hin Ht Hm Hok)
    as (st1 & Hrun & _ & Hch & Hms).
  unfold runTransaction in Hrun. rewrite Hok, Hfind in Hrun.
  rewrite (send_transaction_Some _ _ _ _ _ _ _ _ Hc) in Hrun.
  injection Hrun as <-. simpl in Hch, Hms.
  eexists. split.
  { rewrite Hch. apply lookup_insert_eq. }
  assert (Hlen : length (unread_messages u chatId (sendMessage env uid chatId b st).2)
                 = length (unread_messages u chatId
                     (set_messages (<[auto_id env := messageData_of env uid chatId b]>) st))).
  { unfold unread_messages. simpl. by rewrite Hms. }
  rewrite Hlen, (unread_messages_insert _ _ _ _ _ Hfresh). simpl.
  unfold JS.get_or_zero in *. destruct Hu as [->| ->].
  - rewrite incremented_rest by done. rewrite Hcount.
    rewrite bool_decide_eq_false_2; [done|].
    intros [_ [Hs _]%unread_for_true]. by apply Hs.
  - rewrite incremented_other. simpl. unfold JS.get_or_zero. rewrite Hcount.
    rewrite bool_decide_eq_true_2; [lia|].
    split; [done|]. apply unread_for_true. split; [|done]. simpl. congruence.
Qed.

(** On a chat whose counter is consistent for the caller, mark-chat-read
    leaves the caller's counter at zero whether or not it writes. *)
Lemma markChatRead_zero_when_consistent env uid chatId st c :
  chats st !! chatId = Some c →
  uid ∈ chat_participants c →
  commit_ok env = true →
  counter_consistent st chatId uid →
  ∃ c', chats (markChatRead env uid chatId st).2 !! chatId = Some c' ∧
        JS.get_or_zero (chat_unreadCount c') uid = 0.
Proof.
  intros Hc Hin Hok (c0 & Hc0 & Hcount).
  rewrite Hc in Hc0. injection Hc0 as <-.
  apply includes_true in Hin.
  unfold markChatRead. rewrite Hc, Hin. simpl.
  destruct (decide (unread_messages uid chatId st = [])) as [Hnil|Hnil].
  - rewrite bool_decide_eq_false_2 by (by intros ?). simpl.
    exists c. split; [done|]. by rewrite Hcount, Hnil.
  - rewrite bool_decide_eq_true_2 by done. rewrite Hok. simpl.
    rewrite (update_unreadCount_insert _ _ _ c) by done.
    eexists. split; [apply lookup_insert_eq|]. simpl.
    unfold JS.get_or_zero. by rewrite lookup_insert_eq.
Qed.

End CounterInvariant.

(** ** Follow and unfollow *)

Section FollowFacts.

(** The dispatcher changes no following list and no followers list. *)
Lemma sendNotification_lists env p st v :
  following_of (d_store (sendNotification env p st)) v = following_of st v ∧
  followers_of (d_store (sendNotification env p st)) v = followers_of st v.
Proof.
  unfold following_of, followers_of. by rewrite sendNotification_users.
Qed.

(** The notification the follow handler asks for. *)
Lemma follow_unfold env cur tgt st ucur utgt :
  cur ≠ tgt → users st !! tgt = Some utgt → users st !! cur = Some ucur →
  tgt ∉ user_following ucur → commit_ok env = true →
  ∃ st1 d,
    st1 = set_follows
            (<[cur +:+ "_" +:+ tgt :=
                 {| fol_followerId := cur; fol_followingId := tgt;
                    fol_createdAt := now env |}]>)
            (set_users
               (λ us, alter (user_set_followers (user_followers utgt ++ [cur])) tgt
                        (alter (user_set_following (user_following ucur ++ [tgt]))
                           cur us)) st) ∧
    d = sendNotification env
          {| np_userId := tgt; np_type := "follow"; np_actorId := cur;
             np_actorName := user_name ucur;
             np_message := user_name ucur +:+ " started following you";
             np_data := [("followerId", cur)] |} st1 ∧
    (follow env cur tgt st).2 = d_store d ∧
    status (follow env cur tgt st).1 = (if d_threw d then 500 else 200)%nat.
Proof.
  intros Hne Htgt Hcur Hnot Hok. apply includes_false in Hnot.
  unfold follow. rewrite bool_decide_eq_false_2 by done.
  rewrite Htgt, Hcur, Hnot.
  unfold runTransaction, follow_transaction. rewrite Hok, Hcur, Htgt.
  eexists _, _. split; [reflexivity|]. split; [reflexivity|].
  match goal with |- context [d_threw ?d] => destruct (d_threw d) end; done.
Qed.

(** The lists and the edges after a follow whose transaction committed. *)
Lemma follow_committed env cur tgt st ucur utgt :
  cur ≠ tgt → users st !! tgt = Some utgt → users st !! cur = Some ucur →
  tgt ∉ user_following ucur → commit_ok env = true →
  let st' := (follow env cur tgt st).2 in
  (∀ x, following_of st' x =
          if decide (x = cur) then (user_following ucur ++ [tgt])%list
          else following_of st x) ∧
  (∀ y, followers_of st' y =
          if decide (y = tgt) then (user_followers utgt ++ [cur])%list
          else followers_of st y) ∧
  follows st' = <[cur +:+ "_" +:+ tgt :=
                    {| fol_followerId := cur; fol_followingId := tgt;
                       fol_createdAt := now env |}]> (follows st) ∧
  chats st' = chats st ∧ messages st' = messages st.
Proof.
  intros Hne Htgt Hcur Hnot Hok st'.
  destruct (follow_unfold env cur tgt st ucur utgt Hne Htgt Hcur Hnot Hok)
    as (st1 & d & Hst1 & Hd & Hst' & _).
  subst st'. rewrite Hst'. subst d.
  match goal with |- context [sendNotification ?e ?p ?s] =>
    pose proof (sendNotification_footprint e p s) as (Hc & Hm & Hf);
    pose proof (λ v, sendNotification_lists e p s v) as Hl end.
  simpl in Hc, Hm, Hf. rewrite Hc, Hm, Hf. subst st1. simpl.
  split; [|split; [|done]].
  - intros x. rewrite (proj1 (Hl x)). unfold following_of. simpl.
    destruct (decide (x = cur)) as [->|Hx].
    + rewrite lookup_alter_ne by done. by rewrite lookup_alter_eq, Hcur.
    + destruct (decide (tgt = x)) as [->|Hx'].
      * rewrite lookup_alter_eq, lookup_alter_ne by done.
        by destruct (users st !! x).
      * by rewrite !lookup_alter_ne by done.
  - intros y. rewrite (proj2 (Hl y)). unfold followers_of. simpl.
    destruct (decide (y = tgt)) as [->|Hy].
    + rewrite lookup_alter_eq, lookup_alter_ne by done. by rewrite Htgt.
    + rewrite lookup_alter_ne by done.
      destruct (decide (cur = y)) as [->|Hy'].
      * rewrite lookup_alter_eq. by destruct (users st !! y).
      * by rewrite lookup_alter_ne by done.
Qed.

(** A follow that does not reach its transaction, or whose transaction
    does not commit, writes nothing. *)
Lemma follow_not_committed env cur tgt st :
  cur = tgt ∨ users st !! tgt = None ∨ users st !! cur = None ∨
  tgt ∈ following_of st cur ∨ commit_ok env = false →
  (follow env cur tgt st).2 = st ∧ status (follow env cur tgt st).1 ≠ 200%nat.
Proof.
  unfold follow, following_of. intros H.
  case_bool_decide; [done|].
  destruct (users st !! tgt) as [utgt|] eqn:Htgt; [|by destruct (points_to_document tgt)].
  destruct (users st !! cur) as [ucur|] eqn:Hcur; [|done]. simpl in H.
  destruct (JS.includes (user_following ucur) tgt) eqn:Hin; [done|].
  apply includes_false in Hin.
  unfold runTransaction.
  destruct (commit_ok env); [|done].
  destruct H as [?|[?|[?|[?|?]]]]; done.
Qed.

(** The lists and the edges after an unfollow whose transaction
    committed. *)
Lemma unfollow_committed env cur tgt st ucur utgt :
  users st !! tgt = Some utgt → users st !! cur = Some ucur →
  tgt ∈ user_following ucur → commit_ok env = true →
  let r := unfollow env cur tgt st in
  status r.1 = 200%nat ∧
  (∀ x, following_of r.2 x =
          if decide (x = cur) then filter (λ id, id ≠ tgt) (user_following ucur)
          else following_of st x) ∧
  (∀ y, followers_of r.2 y =
          if decide (y = tgt) then filter (λ id, id ≠ cur) (user_followers utgt)
          else followers_of st y) ∧
  follows r.2 = delete (cur +:+ "_" +:+ tgt) (follows st) ∧
  chats r.2 = chats st ∧ messages r.2 = messages st ∧
  notifications r.2 = notifications st.
Proof.
  intros Htgt Hcur Hin Hok r. subst r. apply includes_true in Hin.
  unfold unfollow. rewrite Htgt, Hcur, Hin. simpl.
  unfold runTransaction, unfollow_transaction. rewrite Hok, Hcur, Htgt. simpl.
  split; [done|]. split; [|split; [|done]].
  - intros x. unfold following_of. simpl.
    destruct (decide (x = cur)) as [->|Hx].
    + destruct (decide (tgt = cur)) as [->|Hne].
      * by rewrite !lookup_alter_eq, Hcur.
      * rewrite lookup_alter_ne by done. by rewrite lookup_alter_eq, Hcur.
    + destruct (decide (tgt = x)) as [->|Hx'].
      * rewrite lookup_alter_eq, lookup_alter_ne by done.
        by destruct (users st !! x).
      * by rewrite !lookup_alter_ne by done.
  - intros y. unfold followers_of. simpl.
    destruct (decide (y = tgt)) as [->|Hy].
    + rewrite lookup_alter_eq.
      destruct (decide (cur = tgt)) as [->|Hne].
      * by rewrite lookup_alter_eq, Hcur.
      * rewrite lookup_alter_ne by done. by rewrite Htgt.
    + rewrite lookup_alter_ne by done.
      destruct (decide (cur = y)) as [->|Hy'].
      * rewrite lookup_alter_eq. by destruct (users st !! y).
      * by rewrite lookup_alter_ne by done.
Qed.


End FollowFacts.

Section FollowProperties.

Lemma sendNotification_persists env p st :
  notif_set_ok env = true →
  notifications (d_store (sendNotification env p st)) =
    <[notif_id env := notification_of env p]> (notifications st).
Proof.
  intros Hok. unfold sendNotification. rewrite Hok. simpl.
  destruct (users st !! np_userId p) as [u|]; simpl; [|done].
  destruct (length (default [] (user_fcmTokens u)) =? 0)%nat; simpl; [done|].
  match goal with |- context [deliver_all ?g ?a ?i ?t ?s] =>
    destruct (deliver_all_footprint g a i t s) as (_ & _ & -> & _) end.
  done.
Qed.

(** A follow that answers 200 went through every check and committed. *)
Lemma follow_200_inv env cur tgt st :
  status (follow env cur tgt st).1 = 200%nat →
  cur ≠ tgt ∧ is_Some (users st !! tgt) ∧ is_Some (users st !! cur) ∧
  (tgt ∉ following_of st cur) ∧ commit_ok env = true.
Proof.
  intros H200.
  destruct (decide (cur = tgt)) as [He|He].
  { destruct (follow_not_committed env cur tgt st); [by left|done]. }
  destruct (users st !! tgt) as [utgt|] eqn:Htgt.
  2:{ destruct (follow_not_committed env cur tgt st); [by right; left|done]. }
  destruct (users st !! cur) as [ucur|] eqn:Hcur.
  2:{ destruct (follow_not_committed env cur tgt st);
        [by right; right; left|done]. }
  destruct (decide (tgt ∈ following_of st cur)) as [Hin|Hin].
  { destruct (follow_not_committed env cur tgt st);
      [by right; right; right; left|done]. }
  destruct (commit_ok env) eqn:Hok.
  2:{ destruct (follow_not_committed env cur tgt st);
        [by right; right; right; right|done]. }
  eauto.
Qed.

(** *** Extra X1.
    A follow of another, existing user that the caller does not follow
    yet, with the transaction committing and the store accepting the
    notification record, appends the target to the caller's following list
    and the caller to the target's followers list, stores the follow edge
    under [follower_followee], stores one notification of type follow for
    the target, and changes no other list, no chat and no message.  It
    answers 200 exactly when no delivery to a registered token of the
    target is answered with an invalid-token error, and 500 otherwise. *)
Theorem follow_effects env cur tgt st ucur utgt :
  cur ≠ tgt → users st !! tgt = Some utgt → users st !! cur = Some ucur →
  tgt ∉ user_following ucur →
  commit_ok env = true → notif_set_ok env = true →
  let r := follow env cur tgt st in
  status r.1 =
    (if bool_decide (dropped (gateway env) 0 (default [] (user_fcmTokens utgt)) = [])
     then 200 else 500)%nat ∧
  following_of r.2 cur = (user_following ucur ++ [tgt])%list ∧
  followers_of r.2 tgt = (user_followers utgt ++ [cur])%list ∧
  (∀ x, x ≠ cur → following_of r.2 x = following_of st x) ∧
  (∀ y, y ≠ tgt → followers_of r.2 y = followers_of st y) ∧
  follows r.2 = <[cur +:+ "_" +:+ tgt :=
                    {| fol_followerId := cur; fol_followingId := tgt;
                       fol_createdAt := now env |}]> (follows st) ∧
  (∃ n, notifications r.2 = <[notif_id env := n]> (notifications st) ∧
        ntf_userId n = tgt ∧ ntf_type n = "follow" ∧ ntf_actorId n = cur ∧
        ntf_read n = false) ∧
  chats r.2 = chats st ∧ messages r.2 = messages st.
Proof.
  intros Hne Htgt Hcur Hnot Hok Hnok r. subst r.
  destruct (follow_committed env cur tgt st ucur utgt Hne Htgt Hcur Hnot Hok)
    as (Hfg & Hfr & Hfo & Hc & Hm).
  destruct (follow_unfold env cur tgt st ucur utgt Hne Htgt Hcur Hnot Hok)
    as (st1 & d & Hst1 & Hd & Hst' & Hstatus).
  split.
  { rewrite Hstatus, Hd, sendNotification_threw by done. rewrite Hst1. simpl.
    rewrite lookup_alter_eq, lookup_alter_ne by done. rewrite Htgt. simpl.
    by case_bool_decide. }
  split; [by rewrite Hfg, decide_True|].
  split; [by rewrite Hfr, decide_True|].
  split; [intros x Hx; by rewrite Hfg, decide_False|].
  split; [intros y Hy; by rewrite Hfr, decide_False|].
  split; [done|]. split; [|done].
  eexists. split.
  - rewrite Hst', Hd, sendNotification_persists by done. by rewrite Hst1.
  - done.
Qed.

Lemma follow_effects_witness :
  status (follow (Scenario.env 8 "" "n8") "A" "B" Scenario.st_users).1 = 200%nat ∧
  following_of Social.st_followed "A" = ["B"] ∧
  followers_of Social.st_followed "B" = ["A"].
Proof.
  destruct (follow_effects (Scenario.env 8 "" "n8") "A" "B" Scenario.st_users
              (Scenario.user "A" None) (Scenario.user "B" None))
    as (H1 & H2 & H3 & _).
  - discriminate.
  - vm_compute. reflexivity.
  - vm_compute. reflexivity.
  - not_elem_of_concrete.
  - reflexivity.
  - reflexivity.
  - split; [exact H1|]. split; [exact H2|exact H3].
Defined.

(** *** Extra X2.
    A follow of oneself is answered with 400, a follow of a document id
    that names no user with 404 and a follow of a user already in the
    caller's following list with 400, each time without writing anything;
    so after a follow that answered 200, the same follow again is answered
    with 400 and leaves the store as it is. *)
Theorem follow_rejections env cur tgt st :
  (cur = tgt → follow env cur tgt st = (fail 400 "Cannot follow yourself", st)) ∧
  (cur ≠ tgt → doc_id tgt = true → users st !! tgt = None →
     follow env cur tgt st = (fail 404 "User not found", st)) ∧
  (cur ≠ tgt → is_Some (users st !! tgt) → tgt ∈ following_of st cur →
     follow env cur tgt st = (fail 400 "Already following this user", st)) ∧
  (status (follow env cur tgt st).1 = 200%nat →
     ∀ env', follow env' cur tgt (follow env cur tgt st).2 =
               (fail 400 "Already following this user", (follow env cur tgt st).2)).
Proof.
  assert (Hrej : ∀ e s, cur ≠ tgt → is_Some (users s !! tgt) →
            tgt ∈ following_of s cur →
            follow e cur tgt s = (fail 400 "Already following this user", s)).
  { intros e s Hne [utgt Htgt] Hin. unfold follow, following_of in *.
    rewrite bool_decide_eq_false_2 by done. rewrite Htgt.
    destruct (users s !! cur) as [ucur|]; simpl in Hin.
    - apply includes_true in Hin. by rewrite Hin.
    - by apply elem_of_nil in Hin. }
  split; [|split; [|split; [exact (Hrej env st)|]]].
  - intros ->. unfold follow. by rewrite bool_decide_eq_true_2.
  - intros Hne Hid Htgt. unfold follow.
    rewrite bool_decide_eq_false_2 by done. by rewrite Htgt, (doc_id_points_to_document _ Hid).
  - intros H200 env'.
    destruct (follow_200_inv _ _ _ _ H200) as (Hne & [utgt Htgt] & [ucur Hcur] & Hnot & Hok).
    unfold following_of in Hnot. rewrite Hcur in Hnot. simpl in Hnot.
    destruct (follow_committed env cur tgt st ucur utgt Hne Htgt Hcur Hnot Hok)
      as (Hfg & Hfr & _).
    specialize (Hfg cur). specialize (Hfr tgt).
    rewrite decide_True in Hfg by done. rewrite decide_True in Hfr by done.
    apply Hrej; [done| |].
    + unfold followers_of in Hfr.
      destruct (users (follow env cur tgt st).2 !! tgt); [eauto|].
      by destruct (user_followers utgt).
    + rewrite Hfg. apply elem_of_app. right. by left.
Qed.

Lemma follow_rejections_witness :
  follow (Scenario.env 9 "" "n9") "A" "B" Social.st_followed =
    (fail 400 "Already following this user", Social.st_followed).
Proof.
  refine (proj2 (proj2 (proj2 (follow_rejections (Scenario.env 8 "" "n8") "A" "B"
            Scenario.st_users))) _ (Scenario.env 9 "" "n9")).
  vm_compute. reflexivity.
Defined.

(** *** Extra X3.
    An unfollow of a user that is in the caller's following list, with the
    transaction committing, answers 200; afterwards the target is not in
    the caller's following list, the caller is not in the target's
    followers list, the edge document is gone, and no other list, chat,
    message or notification has changed.  An unfollow of a document id that
    names no user is answered with 404, and an unfollow of a user that is
    not in the caller's following list with 400, without writing
    anything. *)
Theorem unfollow_effects env cur tgt st :
  (∀ ucur utgt,
     users st !! tgt = Some utgt → users st !! cur = Some ucur →
     tgt ∈ user_following ucur → commit_ok env = true →
     let r := unfollow env cur tgt st in
     status r.1 = 200%nat ∧
     (tgt ∉ following_of r.2 cur) ∧ (cur ∉ followers_of r.2 tgt) ∧
     (∀ z, z ≠ tgt → z ∈ following_of r.2 cur ↔ z ∈ following_of st cur) ∧
     (∀ z, z ≠ cur → z ∈ followers_of r.2 tgt ↔ z ∈ followers_of st tgt) ∧
     (∀ x, x ≠ cur → following_of r.2 x = following_of st x) ∧
     (∀ y, y ≠ tgt → followers_of r.2 y = followers_of st y) ∧
     follows r.2 !! (cur +:+ "_" +:+ tgt) = None ∧
     (∀ k, k ≠ cur +:+ "_" +:+ tgt → follows r.2 !! k = follows st !! k) ∧
     chats r.2 = chats st ∧ messages r.2 = messages st ∧
     notifications r.2 = notifications st) ∧
  (doc_id tgt = true → users st !! tgt = None →
     unfollow env cur tgt st = (fail 404 "User not found", st)) ∧
  (is_Some (users st !! tgt) → is_Some (users st !! cur) →
     tgt ∉ following_of st cur →
     unfollow env cur tgt st = (fail 400 "Not following this user", st)).
Proof.
  split; [|split].
  - intros ucur utgt Htgt Hcur Hin Hok r.
    destruct (unfollow_committed env cur tgt st ucur utgt Htgt Hcur Hin Hok)
      as (H200 & Hfg & Hfr & Hfo & Hrest).
    fold r in H200, Hfg, Hfr, Hfo, Hrest.
    pose proof (Hfg cur) as Hg. rewrite decide_True in Hg by done.
    pose proof (Hfr tgt) as Hr. rewrite decide_True in Hr by done.
    assert (Hgst : following_of st cur = user_following ucur)
      by (unfold following_of; by rewrite Hcur).
    assert (Hrst : followers_of st tgt = user_followers utgt)
      by (unfold followers_of; by rewrite Htgt).
    split; [done|].
    split; [rewrite Hg, list_elem_of_filter; tauto|].
    split; [rewrite Hr, list_elem_of_filter; tauto|].
    split; [intros z Hz; rewrite Hg, Hgst, list_elem_of_filter; tauto|].
    split; [intros z Hz; rewrite Hr, Hrst, list_elem_of_filter; tauto|].
    split; [intros x Hx; by rewrite Hfg, decide_False|].
    split; [intros y Hy; by rewrite Hfr, decide_False|].
    split; [rewrite Hfo; apply lookup_delete_eq|].
    split; [intros k Hk; rewrite Hfo; by apply lookup_delete_ne|].
    done.
  - intros Hid Htgt. unfold unfollow. by rewrite Htgt, (doc_id_points_to_document _ Hid).
  - intros [utgt Htgt] [ucur Hcur] Hnot. unfold unfollow, following_of in *.
    rewrite Htgt, Hcur in *. simpl in Hnot.
    apply includes_false in Hnot. by rewrite Hnot.
Qed.

Lemma unfollow_effects_witness :
  status (unfollow (Scenario.env 9 "" "") "A" "B" Social.st_followed).1 = 200%nat ∧
  "B" ∉ following_of (unfollow (Scenario.env 9 "" "") "A" "B" Social.st_followed).2 "A".
Proof.
  destruct (proj1 (unfollow_effects (Scenario.env 9 "" "") "A" "B" Social.st_followed)
              (user_set_following ["B"] (Scenario.user "A" None))
              (user_set_followers ["A"] (Scenario.user "B" None)))
    as (H1 & H2 & _).
  - vm_compute. reflexivity.
  - vm_compute. reflexivity.
  - elem_of_concrete.
  - reflexivity.
  - split; [exact H1|exact H2].
Defined.

End FollowProperties.

Section Mirror.

Lemma filter_all {A} (P : A → Prop) `{∀ x, Decision (P x)} (l : list A) :
  (∀ x, x ∈ l → P x) → filter P l = l.
Proof.
  induction l as [|x l IH]; intros Hall; [done|].
  rewrite filter_cons_True by (apply Hall; by left).
  f_equal. apply IH. intros y Hy. apply Hall. by right.
Qed.

Lemma filter_none {A} (P : A → Prop) `{∀ x, Decision (P x)} (l : list A) :
  (∀ x, x ∈ l → ¬ P x) → filter P l = [].
Proof.
  induction l as [|x l IH]; intros Hall; [done|].
  rewrite filter_cons_False by (apply Hall; by left).
  apply IH. intros y Hy. apply Hall. by right.
Qed.







(** *** Extra X5.
    Unfollow undoes follow.  After a follow that answered 200, made where
    the caller was not in the target's followers list and no edge document
    of the pair existed, an unfollow of the same user whose transaction
    commits answers 200 and leaves every following list, every followers
    list and the edge collection as they were before the follow. *)
Theorem follow_then_unfollow env env' cur tgt st :
  status (follow env cur tgt st).1 = 200%nat →
  cur ∉ followers_of st tgt →
  follows st !! (cur +:+ "_" +:+ tgt) = None →
  commit_ok env' = true →
  let r := unfollow env' cur tgt (follow env cur tgt st).2 in
  status r.1 = 200%nat ∧
  (∀ x, following_of r.2 x = following_of st x) ∧
  (∀ y, followers_of r.2 y = followers_of st y) ∧
  follows r.2 = follows st ∧
  chats r.2 = chats st ∧ messages r.2 = messages st.
Proof.
  intros H200 Hnr Hedge Hok'.
  destruct (follow_200_inv _ _ _ _ H200)
    as (Hne & [utgt Htgt] & [ucur Hcur] & Hnot & Hok).
  assert (Hgst : following_of st cur = user_following ucur)
    by (unfold following_of; by rewrite Hcur).
  assert (Hrst : followers_of st tgt = user_followers utgt)
    by (unfold followers_of; by rewrite Htgt).
  rewrite Hgst in Hnot. rewrite Hrst in Hnr.
  destruct (follow_committed env cur tgt st ucur utgt Hne Htgt Hcur Hnot Hok)
    as (Hfg & Hfr & Hfo & Hc & Hm).
  set (st1 := (follow env cur tgt st).2) in *.
  pose proof (Hfg cur) as Hg. rewrite decide_True in Hg by done.
  pose proof (Hfr tgt) as Hr. rewrite decide_True in Hr by done.
  destruct (users st1 !! cur) as [u1cur|] eqn:Hcur1.
  2:{ unfold following_of in Hg. rewrite Hcur1 in Hg.
      by destruct (user_following ucur). }
  destruct (users st1 !! tgt) as [u1tgt|] eqn:Htgt1.
  2:{ unfold followers_of in Hr. rewrite Htgt1 in Hr.
      by destruct (user_followers utgt). }
  assert (Hg1 : user_following u1cur = (user_following ucur ++ [tgt])%list)
    by (unfold following_of in Hg; by rewrite Hcur1 in Hg).
  assert (Hr1 : user_followers u1tgt = (user_followers utgt ++ [cur])%list)
    by (unfold followers_of in Hr; by rewrite Htgt1 in Hr).
  assert (Hin1 : tgt ∈ user_following u1cur).
  { rewrite Hg1. apply elem_of_app. right. by left. }
  destruct (unfollow_committed env' cur tgt st1 u1cur u1tgt Htgt1 Hcur1 Hin1 Hok')
    as (H200' & Hfg' & Hfr' & Hfo' & Hc' & Hm' & _).
  simpl. split; [done|].
  split; [|split; [|split; [|split]]].
  - intros x. rewrite Hfg', Hfg. destruct (decide (x = cur)) as [->|]; [|done].
    rewrite Hg1, filter_app, filter_cons_False, filter_nil by (by intros ?).
    rewrite app_nil_r, Hgst. apply filter_all. intros y Hy ->. done.
  - intros y. rewrite Hfr', Hfr. destruct (decide (y = tgt)) as [->|]; [|done].
    rewrite Hr1, filter_app, filter_cons_False, filter_nil by (by intros ?).
    rewrite app_nil_r, Hrst. apply filter_all. intros x Hx ->. done.
  - rewrite Hfo', Hfo. by apply delete_insert_id.
  - by rewrite Hc'.
  - by rewrite Hm'.
Qed.

Lemma follow_then_unfollow_witness :
  status (unfollow (Scenario.env 9 "" "") "A" "B" Social.st_followed).1 = 200%nat ∧
  follows (unfollow (Scenario.env 9 "" "") "A" "B" Social.st_followed).2
    = follows Scenario.st_users.
Proof.
  destruct (follow_then_unfollow (Scenario.env 8 "" "n8") (Scenario.env 9 "" "")
              "A" "B" Scenario.st_users) as (H1 & _ & _ & H2 & _).
  - vm_compute. reflexivity.
  - vm_compute. apply not_elem_of_nil.
  - vm_compute. reflexivity.
  - reflexivity.
  - split; [exact H1|exact H2].
Defined.

End Mirror.

(** ** Chat list *)

Section ChatList.

Lemma chat_entries_elem uid us docs l e :
  chat_entries uid us docs = Some l →
  e ∈ l ↔ ∃ i c other o, (i, c) ∈ docs ∧ otherParticipantOf uid c = Some other ∧
                          us !! other = Some o ∧ e = chatEntryOf uid other o c.
Proof.
  revert l. induction docs as [|[i c] docs IH]; simpl; intros l Hl.
  - injection Hl as <-. rewrite elem_of_nil. split; [done|].
    intros (? & ? & ? & ? & H & _). by apply elem_of_nil in H.
  - destruct (otherParticipantOf uid c) as [other|] eqn:Ho; [|done].
    destruct other as [|ch other']; [done|].
    set (other := String ch other') in *.
    destruct (us !! other) as [o|] eqn:Hu.
    + destruct (chat_entries uid us docs) as [l'|]; [|done].
      injection Hl as <-. rewrite elem_of_cons, (IH l' eq_refl). split.
      * intros [->|(i' & c' & other1 & o1 & H1 & H2)].
        -- exists i, c, other, o. split; [by left|done].
        -- exists i', c', other1, o1. split; [by right|done].
      * intros (i' & c' & other1 & o1 & [H1|H1]%elem_of_cons & H2 & H3 & H4).
        -- injection H1 as -> ->. left. congruence.
        -- right. eauto 10.
    + rewrite (IH l Hl). split.
      * intros (i' & c' & other1 & o1 & H1 & H2).
        exists i', c', other1, o1. split; [by right|done].
      * intros (i' & c' & other1 & o1 & [H1|H1]%elem_of_cons & H2 & H3 & H4).
        -- injection H1 as -> ->. congruence.
        -- eauto 10.
Qed.



Lemma chats_of_elem uid st i c :
  (i, c) ∈ chats_of uid st ↔ chats st !! i = Some c ∧ uid ∈ chat_participants c.
Proof. unfold chats_of. by rewrite candidates_elem, includes_true. Qed.

Lemma otherParticipantOf_Some uid c other :
  otherParticipantOf uid c = Some other →
  other ∈ chat_participants c ∧ other ≠ uid.
Proof.
  intros H. split.
  - by apply find_Some in H as [_ ?].
  - by apply find_other_ne in H.
Qed.


End ChatList.

Section ChatListComposition.

Lemma sendNotification_other_users env p st v :
  v ≠ np_userId p →
  users (d_store (sendNotification env p st)) !! v = users st !! v.
Proof. intros _. by rewrite sendNotification_users. Qed.

Lemma notify_message_other_users env uid chatId b other st v :
  other ≠ Some v →
  users (d_store (notify_message env uid chatId b other st)) !! v = users st !! v.
Proof.
  intros Hv. unfold notify_message.
  destruct (users st !! uid), other as [o|]; simpl; try done.
  apply sendNotification_other_users. simpl. congruence.
Qed.

Lemma find_other_sort2 uid other :
  uid ≠ other →
  JS.find (λ id, negb (bool_decide (id = uid))) (JS.sort2 uid other) = Some other ∧
  JS.find (λ id, negb (bool_decide (id = other))) (JS.sort2 uid other) = Some uid.
Proof.
  intros Hne. unfold JS.sort2. destruct (JS.str_lt other uid); simpl.
  - rewrite (bool_decide_eq_false_2 (other = uid)) by done. simpl.
    rewrite (bool_decide_eq_true_2 (other = other)) by done. simpl.
    by rewrite (bool_decide_eq_false_2 (uid = other)) by done.
  - rewrite (bool_decide_eq_true_2 (uid = uid)) by done. simpl.
    rewrite (bool_decide_eq_false_2 (other = uid)) by done. simpl.
    by rewrite (bool_decide_eq_false_2 (uid = other)) by done.
Qed.

(** *** Extra X7.
    A chat that get-or-create has just created (answer 201) for a caller
    and another user shows in the chat list of the caller, and in the chat
    list of the other user when the caller has a user document, whenever
    that list answers 200: under the chat id that get-or-create returned,
    with an unread count of zero and the empty last-message snapshot. *)
Theorem createChat_then_listChats env uid otherUserId st r st1 :
  createChat env uid (Some otherUserId) st = (r, st1) →
  status r = 201%nat →
  uid ≠ otherUserId →
  (∀ l, listChats uid st1 = Success 200 l →
     ∃ e, e ∈ l ∧ Some (ce_chatId e) = resp_chatId r ∧
          ou_uid (ce_otherUser e) = otherUserId ∧
          ce_unreadCount e = 0 ∧ ce_lastMessage e = emptyLastMessage) ∧
  (∀ l, is_Some (users st !! uid) → listChats otherUserId st1 = Success 200 l →
     ∃ e, e ∈ l ∧ Some (ce_chatId e) = resp_chatId r ∧
          ou_uid (ce_otherUser e) = uid ∧
          ce_unreadCount e = 0 ∧ ce_lastMessage e = emptyLastMessage).
Proof.
  intros Hrun H201 Hne.
  destruct (createChat_success _ _ _ _ _ _ Hrun (or_intror H201)) as [Hnz [o Ho]].
  unfold createChat in Hrun.
  pose proof Hnz as Ht. apply truthy_Some in Ht. rewrite Ht in Hrun.
  simpl in Hrun. rewrite Ho in Hrun.
  destruct (chats st !! JS.join "_" (JS.sort2 uid otherUserId)) as [c0|] eqn:Hc0.
  { injection Hrun as <- <-. discriminate H201. }
  destruct (points_to_document _ && commit_ok env);
    [|injection Hrun as <- <-; discriminate H201].
  injection Hrun as <- <-. simpl.
  set (chatId := JS.join "_" (JS.sort2 uid otherUserId)).
  set (c := {| chat_chatId := chatId;
               chat_participants := JS.sort2 uid otherUserId;
               chat_createdAt := now env; chat_lastMessageAt := now env;
               chat_lastMessage := emptyLastMessage;
               chat_unreadCount := <[otherUserId := 0]> (<[uid := 0]> ∅) |}).
  destruct (find_other_sort2 uid otherUserId Hne) as [Hf1 Hf2].
  assert (Hlook : chats (set_chats (<[chatId := c]>) st) !! chatId = Some c)
    by (simpl; apply lookup_insert_eq).
  split.
  - intros l Hl. unfold listChats in Hl.
    destruct (chat_entries uid _ _) as [l'|] eqn:He; [|done].
    injection Hl as <-.
    exists (chatEntryOf uid otherUserId o c). split.
    + apply (chat_entries_elem _ _ _ _ _ He).
      exists chatId, c, otherUserId, o. split; [|done].
      apply chats_of_elem. split; [done|]. simpl. apply sort2_elem. by left.
    + simpl. split; [done|]. split; [done|]. split; [|done].
      unfold JS.get_or_zero. rewrite lookup_insert_ne by done.
      by rewrite lookup_insert_eq.
  - intros l [sender Hs] Hl. unfold listChats in Hl.
    destruct (chat_entries otherUserId _ _) as [l'|] eqn:He; [|done].
    injection Hl as <-.
    exists (chatEntryOf otherUserId uid sender c). split.
    + apply (chat_entries_elem _ _ _ _ _ He).
      exists chatId, c, uid, sender. split; [|done].
      apply chats_of_elem. split; [done|]. simpl. apply sort2_elem. by right.
    + simpl. split; [done|]. split; [done|]. split; [|done].
      unfold JS.get_or_zero. by rewrite lookup_insert_eq.
Qed.

(** A send that answers 201 was made by a participant, and this is its
    answer and the store it leaves. *)
Lemma sendMessage_success env uid chatId b st c :
  chats st !! chatId = Some c →
  status (sendMessage env uid chatId b st).1 = 201%nat →
  uid ∈ chat_participants c ∧
  sendMessage env uid chatId b st =
    ({| status := 201; message := "Message sent successfully";
        data := SentMessage (messageData_of env uid chatId b) |},
     d_store (notify_message env uid chatId b (otherParticipantOf uid c)
       {| users := users st;
          chats := <[chatId := chat_set_last
                      {| lm_text := text_or b "Sent an image"; lm_senderId := uid;
                         lm_type := type_of b |}
                      (now env) (incremented c (otherParticipantOf uid c)) c]> (chats st);
          messages := <[auto_id env := messageData_of env uid chatId b]> (messages st);
          notifications := notifications st;
          follows := follows st |})).
Proof.
  intros Hc. unfold sendMessage.
  destruct (text_missing b); [done|]. destruct (media_missing b); [done|].
  rewrite Hc. unfold sendMessage_with.
  destruct (JS.includes (chat_participants c) uid) eqn:Hin; simpl; [|done].
  apply includes_true in Hin. unfold runTransaction.
  destruct (commit_ok env); [|done].
  by rewrite (send_transaction_Some _ _ _ _ _ _ _ _ Hc).
Qed.

(** *** Extra X8.
    After a send that answered 201, the chat list of the other
    participant, when it answers 200, has an entry for the chat that
    carries the snapshot of the new message (its text, or the caption for a
    message that is not of kind text, its sender and its kind), the time of
    the send, and an unread count one above the counter the chat had for
    that participant. *)
Theorem send_then_listChats env uid chatId b st c other sender :
  chats st !! chatId = Some c →
  otherParticipantOf uid c = Some other →
  otherParticipantOf other c = Some uid →
  users st !! uid = Some sender →
  status (sendMessage env uid chatId b st).1 = 201%nat →
  ∀ l, listChats other (sendMessage env uid chatId b st).2 = Success 200 l →
       {| ce_chatId := chat_chatId c;
          ce_otherUser := otherUserOf uid sender;
          ce_lastMessage :=
            {| lm_text := text_or b "Sent an image"; lm_senderId := uid;
               lm_type := type_of b |};
          ce_lastMessageAt := now env;
          ce_unreadCount := JS.get_or_zero (chat_unreadCount c) other + 1 |} ∈ l.
Proof.
  intros Hc Ho Ho' Hs H201 l Hl.
  destruct (sendMessage_success env uid chatId b st c Hc H201) as [Hin Hres].
  rewrite Hres in Hl.
  simpl in Hl. rewrite Ho in Hl.
  destruct (otherParticipantOf_Some _ _ _ Ho) as [Hoin Hne].
  unfold listChats in Hl.
  destruct (chat_entries other _ _) as [l'|] eqn:He; [|done].
  injection Hl as <-.
  apply (chat_entries_elem _ _ _ _ _ He).
  match type of He with context [notify_message ?e ?u ?i ?bb ?o ?s] =>
    pose proof (notify_message_footprint e u i bb o s) as (Hch & _);
    pose proof (notify_message_other_users e u i bb o s uid) as Hus
  end.
  simpl in Hch.
  eexists chatId, _, uid, sender. split; [|split; [|split]].
  - apply chats_of_elem. rewrite Hch. split; [apply lookup_insert_eq|done].
  - exact Ho'.
  - rewrite Hus by congruence. exact Hs.
  - unfold chatEntryOf. simpl. f_equal.
    unfold JS.get_or_zero. by rewrite incremented_other.
Qed.

Lemma send_then_listChats_witness :
  ∃ l, listChats "B" Race.st_sent = Success 200 l ∧
       {| ce_chatId := "A_B";
          ce_otherUser := otherUserOf "A" (Scenario.user "A" None);
          ce_lastMessage :=
            {| lm_text := "hi"; lm_senderId := "A"; lm_type := "text" |};
          ce_lastMessageAt := 2;
          ce_unreadCount := 1 |} ∈ l.
Proof.
  eexists. split; [vm_compute; reflexivity|].
  refine (send_then_listChats (Scenario.env 2 "m1" "n1") "A" "A_B"
            (Scenario.text_body "hi") Scenario.st_chat Scenario.chat_AB "B"
            (Scenario.user "A" None) _ _ _ _ _ _ _).
  - vm_compute. reflexivity.
  - reflexivity.
  - reflexivity.
  - vm_compute. reflexivity.
  - vm_compute. reflexivity.
  - vm_compute. reflexivity.
Defined.

Lemma createChat_then_listChats_witness :
  ∃ e, e ∈ [chatEntryOf "A" "B" (Scenario.user "B" None) Scenario.chat_AB] ∧
       Some (ce_chatId e) = Some "A_B" ∧ ou_uid (ce_otherUser e) = "B" ∧
       ce_unreadCount e = 0 ∧ ce_lastMessage e = emptyLastMessage.
Proof.
  refine (proj1 (createChat_then_listChats (Scenario.env 1 "" "") "A" "B"
            Scenario.st_users
            (createChat (Scenario.env 1 "" "") "A" (Some "B") Scenario.st_users).1
            Scenario.st_chat _ _ _) _ _).
  - reflexivity.
  - reflexivity.
  - discriminate.
  - vm_compute. reflexivity.
Defined.


End ChatListComposition.

(** ** More on listing and acknowledging messages *)

Section MessagePages.

Lemma sorted_snd {A} (createdAt : A → Z) (docs : list (string * A)) :
  StronglySorted (at_or_before createdAt) docs →
  StronglySorted (λ x y, (createdAt y ≤ createdAt x)%Z) docs.*2.
Proof.
  induction 1 as [|d docs Hs IH Hall]; simpl; constructor; [done|].
  rewrite Forall_fmap. eapply Forall_impl; [exact Hall|].
  intros e He. unfold at_or_before in He. simpl. lia.
Qed.

Lemma page_lastId_last {A} (docs : list (string * A)) i :
  page_lastId docs = Some i → ∃ x, last docs = Some (i, x).
Proof.
  unfold page_lastId. destruct (last docs) as [[j x]|]; simpl; [|done].
  intros [= ->]. eauto.
Qed.

(** *** Extra X9.
    Listing the messages of a chat whose id is a document id that names no
    chat is answered with 404, and listing by a user who is not a
    participant with 403; whenever the answer is not 200 nothing is
    written.  A page that is returned for a positive page size holds at
    most [limit] messages, every one a message of this chat as it was
    stored before the call (so a message the call flips is returned with
    its read flag still unset), in descending order of creation time, and
    the cursor returned with it is the id of the last message of the
    page. *)
Theorem listMessages_page env uid chatId limit lastId st :
  (doc_id chatId = true → chats st !! chatId = None →
     listMessages env uid chatId limit lastId st = (fail 404 "Chat not found", st)) ∧
  (∀ c, chats st !! chatId = Some c → uid ∉ chat_participants c →
     listMessages env uid chatId limit lastId st =
       (fail 403 "Not authorized to view messages in this chat", st)) ∧
  (status (listMessages env uid chatId limit lastId st).1 ≠ 200%nat →
     (listMessages env uid chatId limit lastId st).2 = st) ∧
  (∀ ms cursor more,
     (0 < parseInt_limit limit)%nat →
     data (listMessages env uid chatId limit lastId st).1 = MessagePage ms cursor more →
     (length ms ≤ parseInt_limit limit)%nat ∧
     (∀ m, m ∈ ms → msg_chatId m = chatId ∧ ∃ i, messages st !! i = Some m) ∧
     StronglySorted (λ m1 m2, (msg_createdAt m2 ≤ msg_createdAt m1)%Z) ms ∧
     (∀ i, cursor = Some i →
           ∃ m, messages st !! i = Some m ∧ last ms = Some m) ∧
     (cursor = None ↔ ms = [])).
Proof.
  unfold listMessages.
  destruct (chats st !! chatId) as [c|] eqn:Hc.
  2:{ split; [intros Hid; by rewrite (doc_id_points_to_document _ Hid)|].
      by destruct (points_to_document chatId). }
  split; [done|]. unfold listMessages_with.
  destruct (JS.includes (chat_participants c) uid) eqn:Hin; simpl.
  2:{ split; [by intros c' [= <-] _|]. by split. }
  apply includes_true in Hin.
  split; [by intros c' [= <-] Hout|].
  destruct (run_query msg_createdAt (messages st)
              (λ m, bool_decide (msg_chatId m = chatId))
              (parseInt_limit limit) lastId) as [docs|] eqn:Hq; [|by split].
  destruct (commit_ok env); simpl; [|by split].
  split; [done|].
  intros ms cursor more _ [= <- <- <-].
  split; [rewrite length_fmap; by eapply run_query_length|].
  split.
  { intros m [[i m'] [-> Hd]]%list_elem_of_fmap. simpl.
    eapply run_query_elem in Hd as [Hm Hp]; [|exact Hq].
    apply bool_decide_eq_true in Hp. eauto. }
  split; [by eapply sorted_snd, run_query_sorted|].
  split.
  { intros i [m Hl]%page_lastId_last. exists m. split.
    - assert ((i, m) ∈ docs) as Hd by (by eapply last_Some_elem_of).
      by eapply run_query_elem in Hd as [? _].
    - by rewrite fmap_last, Hl. }
  unfold page_lastId. clear Hq.
  destruct docs as [|d docs'] eqn:Hd; [done|].
  split; [|done]. intros Hn. exfalso.
  destruct (last (d :: docs')) eqn:Hl; [done|].
  by apply last_None in Hl.
Qed.

Lemma listMessages_page_witness :
  listMessages (Scenario.env 3 "" "") "C" "A_B" None None Race.st_sent =
    (fail 403 "Not authorized to view messages in this chat", Race.st_sent).
Proof.
  refine (proj1 (proj2 (listMessages_page (Scenario.env 3 "" "") "C" "A_B"
            None None Race.st_sent)) Race.chat_sent _ _).
  - vm_compute. reflexivity.
  - not_elem_of_concrete.
Defined.

(** After the flips of mark-chat-read nothing is unread for the caller. *)
Lemma unread_after_flip uid chatId st f :
  unread_messages uid chatId
    (set_chats f (set_messages (flip_read (unread_messages uid chatId st).*1) st))
  = [].
Proof.
  unfold unread_messages at 1. simpl. apply filter_none.
  intros [i m] Hin%elem_of_map_to_list [Hch Hu]. simpl in *.
  rewrite flip_read_lookup in Hin. case_bool_decide as Hi.
  - destruct (messages st !! i) as [m0|]; [|done].
    injection Hin as <-. apply unread_for_true in Hu as [_ Hu]. done.
  - apply Hi. apply list_elem_of_fmap. exists (i, m). split; [done|].
    by apply unread_messages_elem.
Qed.

(** *** Extra X10.
    Mark-chat-read is idempotent: after a call that answered 200 no message
    of the chat is unread for the caller, and a second call answers 200 and
    leaves the store as the first call left it. *)
Theorem markChatRead_idempotent env env' uid chatId st :
  status (markChatRead env uid chatId st).1 = 200%nat →
  unread_messages uid chatId (markChatRead env uid chatId st).2 = [] ∧
  markChatRead env' uid chatId (markChatRead env uid chatId st).2 =
    ({| status := 200; message := "Messages marked as read"; data := NoData |},
     (markChatRead env uid chatId st).2).
Proof.
  intros H200.
  assert (∃ c', chats (markChatRead env uid chatId st).2 !! chatId = Some c' ∧
                JS.includes (chat_participants c') uid = true ∧
                unread_messages uid chatId (markChatRead env uid chatId st).2 = [])
    as (c' & Hc' & Hin' & Hnil).
  { unfold markChatRead in *.
    destruct (chats st !! chatId) as [c|] eqn:Hc; [|by destruct (points_to_document chatId)].
    destruct (JS.includes (chat_participants c) uid) eqn:Hin; [|done].
    simpl in *. case_bool_decide as Hne.
    - destruct (commit_ok env); [|done]. simpl.
      exists (chat_set_unreadCount (<[uid := 0]> (chat_unreadCount c)) c).
      split; [|split; [done|apply unread_after_flip]].
      rewrite (update_unreadCount_insert _ _ _ c) by done.
      apply lookup_insert_eq.
    - simpl. exists c. split; [done|]. split; [done|].
      destruct (unread_messages uid chatId st); [done|]. by destruct Hne. }
  split; [done|].
  unfold markChatRead at 1. rewrite Hc', Hin', Hnil. reflexivity.
Qed.

Lemma markChatRead_idempotent_witness :
  unread_messages "B" "A_B"
    (markChatRead (Scenario.env 3 "" "") "B" "A_B" Race.st_sent).2 = [] ∧
  markChatRead (Scenario.env 4 "" "") "B" "A_B"
    (markChatRead (Scenario.env 3 "" "") "B" "A_B" Race.st_sent).2 =
    ({| status := 200; message := "Messages marked as read"; data := NoData |},
     (markChatRead (Scenario.env 3 "" "") "B" "A_B" Race.st_sent).2).
Proof.
  apply (markChatRead_idempotent (Scenario.env 3 "" "") (Scenario.env 4 "" "")
           "B" "A_B" Race.st_sent).
  vm_compute. reflexivity.
Defined.

End MessagePages.

Section ReadsKeepConsistent.

Lemma sendMessage_keeps_consistent_witness :
  counter_consistent Race.st_sent "A_B" "B".
Proof.
  apply (sendMessage_keeps_consistent (Scenario.env 2 "m1" "n1") "A" "A_B"
           (Scenario.text_body "hi") Scenario.st_chat Scenario.chat_AB "B" "B").
  - vm_compute. reflexivity.
  - elem_of_concrete.
  - reflexivity.
  - unfold text_request_blank. simpl. intros [_ H]. discriminate H.
  - unfold image_request_without_media. simpl. intros [H _]. discriminate H.
  - vm_compute. reflexivity.
  - reflexivity.
  - by right.
  - exists Scenario.chat_AB. split; vm_compute; reflexivity.
Defined.

(** What a committed view writes. *)
Lemma listMessages_store env uid chatId limit lastId st c docs :
  chats st !! chatId = Some c →
  uid ∈ chat_participants c →
  commit_ok env = true →
  run_query msg_createdAt (messages st)
    (λ m, bool_decide (msg_chatId m = chatId)) (parseInt_limit limit) lastId
    = Some docs →
  let flipped := (filter (λ d, unread_for uid d.2 = true) docs).*1 in
  let k := Z.of_nat (length flipped) in
  messages (listMessages env uid chatId limit lastId st).2 =
    flip_read flipped (messages st) ∧
  chats (listMessages env uid chatId limit lastId st).2 =
    (if bool_decide (0 < k) then
       <[chatId := chat_set_unreadCount
           (<[uid := Z.max 0 (JS.get_or_zero (chat_unreadCount c) uid - k)]>
              (chat_unreadCount c)) c]> (chats st)
     else chats st).
Proof.
  intros Hc Hin Hok Hq flipped k.
  rewrite (listMessages_committed env uid chatId limit lastId st c docs
             Hc Hin Hok Hq). simpl. fold flipped. fold k.
  by destruct (bool_decide (0 < k)).
Qed.

Lemma unread_messages_NoDup uid chatId st :
  NoDup (unread_messages uid chatId st) ∧ NoDup (unread_messages uid chatId st).*1.
Proof.
  unfold unread_messages. split.
  - apply NoDup_filter, NoDup_map_to_list.
  - apply (sublist_NoDup _ (map_to_list (messages st)).*1);
      [apply NoDup_fst_map_to_list|].
    apply fmap_sublist, sublist_filter.
Qed.

(** A view flips as many messages as it takes off the unread messages of
    the caller. *)
Lemma listMessages_unread_count env uid chatId limit lastId st c docs :
  chats st !! chatId = Some c →
  uid ∈ chat_participants c →
  commit_ok env = true →
  run_query msg_createdAt (messages st)
    (λ m, bool_decide (msg_chatId m = chatId)) (parseInt_limit limit) lastId
    = Some docs →
  let flipped := (filter (λ d, unread_for uid d.2 = true) docs).*1 in
  (length (unread_messages uid chatId (listMessages env uid chatId limit lastId st).2)
   + length flipped = length (unread_messages uid chatId st))%nat.
Proof.
  intros Hc Hin Hok Hq flipped.
  destruct (listMessages_store env uid chatId limit lastId st c docs Hc Hin Hok Hq)
    as [Hmsgs _]. fold flipped in Hmsgs.
  set (st' := (listMessages env uid chatId limit lastId st).2) in *.
  set (U := unread_messages uid chatId st).
  assert (Hfl : ∀ i, i ∈ flipped ↔ ∃ m, (i, m) ∈ docs ∧ unread_for uid m = true)
    by (intros i; apply flipped_elem).
  assert (HflU : ∀ i, i ∈ flipped → ∃ m, (i, m) ∈ U).
  { intros i [m [Hd Hu]]%Hfl. exists m. apply unread_messages_elem.
    eapply run_query_elem in Hd as [Hm Hp]; [|exact Hq].
    apply bool_decide_eq_true in Hp. done. }
  assert (Ha : unread_messages uid chatId st' ≡ₚ filter (λ d, d.1 ∉ flipped) U).
  { apply NoDup_Permutation.
    - apply unread_messages_NoDup.
    - apply NoDup_filter, unread_messages_NoDup.
    - intros [i m]. rewrite list_elem_of_filter. subst U.
      rewrite !unread_messages_elem. simpl. subst st'. rewrite Hmsgs.
      rewrite flip_read_lookup. case_bool_decide as Hi.
      + split; [|tauto]. intros (Hm & _ & Hu).
        destruct (messages st !! i) as [m0|]; [|done].
        injection Hm as <-. apply unread_for_true in Hu as [_ Hu]. done.
      + tauto. }
  assert (Hb : (filter (λ d, d.1 ∈ flipped) U).*1 ≡ₚ flipped).
  { apply NoDup_Permutation.
    - apply (sublist_NoDup _ U.*1); [apply unread_messages_NoDup|].
      apply fmap_sublist, sublist_filter.
    - subst flipped.
      apply (sublist_NoDup _ docs.*1); [by eapply run_query_NoDup|].
      apply fmap_sublist, sublist_filter.
    - intros i. rewrite list_elem_of_fmap. split.
      + intros [[j m] [-> [H _]%list_elem_of_filter]]. done.
      + intros Hi. destruct (HflU i Hi) as [m Hm]. exists (i, m).
        split; [done|]. by apply list_elem_of_filter. }
  rewrite Ha, <- Hb, length_fmap, Nat.add_comm.
  rewrite <- length_app. apply Permutation_length.
  apply (filter_app_complement (λ d : string * Message, d.1 ∈ flipped)).
Qed.

(** *** Extra X12.
    Reading keeps the counter invariant of the caller, whatever the
    outcome of the call: if the caller's unread counter on a chat equals
    the number of unread messages of the chat that the caller did not send,
    it still does after the caller has listed messages of the chat (any
    page) and after the caller has marked the chat read. *)
Theorem reads_keep_consistent env uid chatId limit lastId st :
  counter_consistent st chatId uid →
  counter_consistent (listMessages env uid chatId limit lastId st).2 chatId uid ∧
  counter_consistent (markChatRead env uid chatId st).2 chatId uid.
Proof.
  intros (c & Hc & Hcount). split.
  - destruct (decide (uid ∈ chat_participants c)) as [Hin|Hout].
    2:{ apply includes_false in Hout.
        unfold listMessages. rewrite Hc. unfold listMessages_with.
        rewrite Hout. simpl. by exists c. }
    destruct (run_query msg_createdAt (messages st)
                (λ m, bool_decide (msg_chatId m = chatId))
                (parseInt_limit limit) lastId) as [docs|] eqn:Hq.
    2:{ apply includes_true in Hin.
        unfold listMessages. rewrite Hc. unfold listMessages_with.
        rewrite Hin, Hq. simpl. by exists c. }
    destruct (commit_ok env) eqn:Hok.
    2:{ apply includes_true in Hin.
        unfold listMessages. rewrite Hc. unfold listMessages_with.
        rewrite Hin, Hq, Hok. simpl. by exists c. }
    pose proof (listMessages_unread_count env uid chatId limit lastId st c docs
                  Hc Hin Hok Hq) as Hlen.
    destruct (listMessages_store env uid chatId limit lastId st c docs
                Hc Hin Hok Hq) as [_ Hchats].
    simpl in Hlen, Hchats.
    set (k := length (filter (λ d : string * Message, unread_for uid d.2 = true)
                        docs).*1) in *.
    case_bool_decide as Hk.
    + eexists. split; [rewrite Hchats; apply lookup_insert_eq|]. simpl.
      unfold JS.get_or_zero at 1. rewrite lookup_insert_eq. simpl. lia.
    + exists c. split; [by rewrite Hchats|]. lia.
  - unfold markChatRead. rewrite Hc.
    destruct (JS.includes (chat_participants c) uid); simpl; [|by exists c].
    case_bool_decide as Hne; [|by exists c].
    destruct (commit_ok env); simpl; [|by exists c].
    exists (chat_set_unreadCount (<[uid := 0]> (chat_unreadCount c)) c). split.
    + simpl. rewrite (update_unreadCount_insert _ _ _ c) by done.
      apply lookup_insert_eq.
    + cbn [snd]. rewrite unread_after_flip. simpl.
      unfold JS.get_or_zero. by rewrite lookup_insert_eq.
Qed.

Lemma reads_keep_consistent_witness :
  counter_consistent
    (listMessages (Scenario.env 3 "" "") "B" "A_B" None None Race.st_sent).2
    "A_B" "B" ∧
  counter_consistent
    (markChatRead (Scenario.env 3 "" "") "B" "A_B" Race.st_sent).2 "A_B" "B".
Proof.
  apply (reads_keep_consistent (Scenario.env 3 "" "") "B" "A_B" None None
           Race.st_sent).
  exists Race.chat_sent. split; vm_compute; reflexivity.
Defined.

End ReadsKeepConsistent.

(** ** Chat identity and chat creation *)

Section ChatIdentity.

Lemma append_underscore_inj x y x' y' :
  underscore_free x → underscore_free x' →
  x +:+ "_" +:+ y = x' +:+ "_" +:+ y' → x = x' ∧ y = y'.
Proof.
  unfold underscore_free. revert x'.
  induction x as [|ch x IH]; intros [|ch' x'] Hx Hx' Heq;
    rewrite ?append_nil_l, ?append_cons_l, ?append_nil_l in Heq;
    simpl in Hx, Hx'.
  - by injection Heq as ->.
  - injection Heq as <- _. apply orb_false_iff in Hx' as [Hx' _].
    by apply bool_decide_eq_false in Hx'.
  - injection Heq as -> _. apply orb_false_iff in Hx as [Hx _].
    by apply bool_decide_eq_false in Hx.
  - injection Heq as -> Heq.
    apply orb_false_iff in Hx as [_ Hx]. apply orb_false_iff in Hx' as [_ Hx'].
    destruct (IH x' Hx Hx' Heq) as [-> ->]. done.
Qed.

Lemma chatIdOf_unfold a b :
  chatIdOf a b = (if JS.str_lt b a then b +:+ "_" +:+ a else a +:+ "_" +:+ b).
Proof. unfold chatIdOf, JS.sort2. by destruct (JS.str_lt b a). Qed.

(** *** Extra X13.
    The chat id of a pair does not depend on who asks: [chatIdOf a b] and
    [chatIdOf b a] are the same key.  For user ids that contain no
    underscore it identifies the unordered pair: two pairs with the same
    chat id are the same pair.  With underscores in the ids different pairs
    can share a chat id, as the pairs [("a_b", "c")] and [("a", "b_c")]
    do. *)
Theorem chatIdOf_identifies_pair :
  (∀ a b, chatIdOf a b = chatIdOf b a) ∧
  (∀ a b c d,
     underscore_free a → underscore_free b →
     underscore_free c → underscore_free d →
     chatIdOf a b = chatIdOf c d → (a = c ∧ b = d) ∨ (a = d ∧ b = c)) ∧
  chatIdOf "a_b" "c" = chatIdOf "a" "b_c".
Proof.
  split; [apply chatIdOf_comm|]. split; [|reflexivity].
  intros a b c d Ha Hb Hc Hd. rewrite !chatIdOf_unfold.
  destruct (JS.str_lt b a), (JS.str_lt d c); intros Heq;
    apply append_underscore_inj in Heq as [-> ->]; auto.
Qed.

Lemma chatIdOf_identifies_pair_witness :
  ("A" = "B" ∧ "B" = "A") ∨ ("A" = "A" ∧ "B" = "B").
Proof.
  apply (proj1 (proj2 chatIdOf_identifies_pair) "A" "B" "B" "A");
    reflexivity.
Defined.

(** *** Extra X14.
    Get-or-create without a user id, or with an empty one, is answered
    with 400, and with a document id that names no user with 404; in both
    cases, and whenever the answer is not 201, the store is left as it
    was. *)
Theorem createChat_rejections env uid st :
  createChat env uid None st = (fail 400 "Other user ID is required", st) ∧
  createChat env uid (Some "") st = (fail 400 "Other user ID is required", st) ∧
  (∀ otherUserId, doc_id otherUserId = true → users st !! otherUserId = None →
     createChat env uid (Some otherUserId) st = (fail 404 "User not found", st)) ∧
  (∀ otherUserId, status (createChat env uid otherUserId st).1 ≠ 201%nat →
     (createChat env uid otherUserId st).2 = st).
Proof.
  split; [done|]. split; [done|]. split.
  - intros o Hid Ho. unfold createChat.
    assert (o ≠ "") as Hne%truthy_Some by (by intros ->).
    rewrite Hne. simpl. by rewrite Ho, (doc_id_points_to_document _ Hid).
  - intros o. unfold createChat.
    destruct (JS.truthy o); simpl; [|done].
    destruct (users st !! JS.or_empty o); [|by destruct (points_to_document _)].
    destruct (chats st !! _); [done|].
    destruct (points_to_document _ && commit_ok env); simpl; [|done]. intros H. by destruct H.
Qed.

Lemma createChat_rejections_witness :
  createChat (Scenario.env 1 "" "") "A" (Some "Z") Scenario.st_users =
    (fail 404 "User not found", Scenario.st_users).
Proof.
  apply (proj1 (proj2 (proj2 (createChat_rejections (Scenario.env 1 "" "") "A"
           Scenario.st_users))) "Z").
  - reflexivity.
  - vm_compute. reflexivity.
Defined.

Lemma contains_char_app ch a b :
  contains_char ch (a +:+ b) = contains_char ch a || contains_char ch b.
Proof.
  induction a as [|c a IH]; [done|].
  rewrite append_cons_l. simpl. rewrite IH. by rewrite orb_assoc.
Qed.

(** The chat id of two document ids is a document id. *)
Lemma doc_id_chatIdOf a b :
  doc_id a = true → doc_id b = true → doc_id (chatIdOf a b) = true.
Proof.
  unfold doc_id. rewrite !andb_true_iff, !negb_true_iff.
  intros [_ Ha] [_ Hb]. rewrite chatIdOf_unfold.
  destruct (JS.str_lt b a).
  - split; [by destruct b|]. by rewrite !contains_char_app, Ha, Hb.
  - split; [by destruct a|]. by rewrite !contains_char_app, Ha, Hb.
Qed.

(** *** Extra X15.
    Get-or-create accepts the caller's own id.  Where no such chat exists
    it stores a chat whose two participants are the caller; a send of the
    caller into it that answers 201 stores its message and updates the
    last-message snapshot, but finds no other participant: the caller's own
    unread counter stays at zero, the increment is stored under the key
    ['undefined'], no notification is stored and no user record changes. *)
Theorem self_chat env env' uid b st u :
  users st !! uid = Some u → doc_id uid = true → uid ≠ "undefined" →
  chats st !! chatIdOf uid uid = None →
  commit_ok env = true →
  let r1 := createChat env uid (Some uid) st in
  let r2 := sendMessage env' uid (chatIdOf uid uid) b r1.2 in
  status r2.1 = 201%nat →
  status r1.1 = 201%nat ∧
  (∃ c, chats r2.2 !! chatIdOf uid uid = Some c ∧
        chat_participants c = [uid; uid] ∧
        chat_unreadCount c !! uid = Some 0 ∧
        chat_unreadCount c !! "undefined" = Some 1 ∧
        lm_senderId (chat_lastMessage c) = uid) ∧
  is_Some (messages r2.2 !! auto_id env') ∧
  notifications r2.2 = notifications st ∧ users r2.2 = users st.
Proof.
  intros Hu Hid Hund Hc Hok r1 r2 H201.
  assert (Hne : uid ≠ "") by (by intros ->).
  pose proof (doc_id_chatIdOf uid uid Hid Hid) as Hcid.
  set (chatId := chatIdOf uid uid) in *.
  set (c0 := {| chat_chatId := chatId; chat_participants := [uid; uid];
                chat_createdAt := now env; chat_lastMessageAt := now env;
                chat_lastMessage := emptyLastMessage;
                chat_unreadCount := <[uid := 0]> (<[uid := 0]> ∅) |}).
  assert (Hr1 : r1 = ({| status := 201; message := "Chat created successfully";
                         data := ChatView chatId (otherUserOf uid u)
                                   emptyLastMessage (now env) 0 |},
                      set_chats (<[chatId := c0]>) st)).
  { subst r1. unfold createChat.
    pose proof Hne as Htr. apply truthy_Some in Htr. rewrite Htr. simpl.
    rewrite Hu. fold (chatIdOf uid uid). fold chatId. rewrite Hc, (doc_id_points_to_document _ Hcid), Hok.
    subst c0. unfold JS.sort2. by destruct (JS.str_lt uid uid). }
  assert (Hfind : otherParticipantOf uid c0 = None).
  { unfold otherParticipantOf. simpl.
    by rewrite bool_decide_eq_true_2 by done. }
  assert (Hlook : chats r1.2 !! chatId = Some c0)
    by (rewrite Hr1; simpl; apply lookup_insert_eq).
  destruct (sendMessage_success env' uid chatId b r1.2 c0 Hlook H201)
    as [_ Hr2].
  fold r2 in Hr2. rewrite Hfind in Hr2. rewrite Hr2, Hr1. simpl.
  split; [done|].
  unfold notify_message. simpl. rewrite Hu. simpl.
  split; [|split; [|done]].
  - eexists. split; [apply lookup_insert_eq|]. simpl.
    split; [done|]. unfold incremented. simpl.
    split; [|split; [|done]].
    + rewrite lookup_insert_ne by done. by rewrite lookup_insert_eq.
    + rewrite lookup_insert_eq. unfold JS.get_or_zero.
      by rewrite !lookup_insert_ne, lookup_empty by done.
  - rewrite lookup_insert_eq. eauto.
Qed.

Lemma self_chat_witness :
  status (createChat (Scenario.env 1 "" "") "A" (Some "A") Scenario.st_users).1
    = 201%nat ∧
  (chats (sendMessage (Scenario.env 2 "m1" "n1") "A" (chatIdOf "A" "A")
            (Scenario.text_body "note")
            (createChat (Scenario.env 1 "" "") "A" (Some "A") Scenario.st_users).2).2
     !! "A_A") ≫= (λ c, chat_unreadCount c !! "undefined") = Some 1.
Proof.
  destruct (self_chat (Scenario.env 1 "" "") (Scenario.env 2 "m1" "n1") "A"
              (Scenario.text_body "note") Scenario.st_users (Scenario.user "A" None))
    as (H1 & (c & H2 & _ & _ & H3 & _) & _).
  - vm_compute. reflexivity.
  - reflexivity.
  - discriminate.
  - vm_compute. reflexivity.
  - reflexivity.
  - vm_compute. reflexivity.
  - split; [exact H1|]. change "A_A" with (chatIdOf "A" "A").
    rewrite H2. exact H3.
Defined.

End ChatIdentity.

(** ** More on the dispatcher and on notifications *)

Section DispatcherProperties.

(** *** Extra X16.
    Durability before delivery.  When the store accepts the notification
    record, the dispatcher stores it and writes nothing else: no user
    record changes, so no token is ever removed.  A delivery is attempted
    for exactly the recipient's registered tokens (for none when the
    recipient is unknown or has no token).  For a recipient with a user
    record the dispatcher throws exactly when a delivery is answered with
    an invalid-token error; a delivery that fails in another way does not
    make it throw.  For a recipient without a user record whose id is a
    document id it returns without throwing.  When the store rejects the
    record, the dispatcher throws, writes nothing and attempts no
    delivery. *)
Theorem sendNotification_durable env p st :
  (notif_set_ok env = true →
     d_store (sendNotification env p st) =
       set_notifications (<[notif_id env := notification_of env p]>) st ∧
     d_attempts (sendNotification env p st) =
       default [] (users st !! np_userId p ≫= user_fcmTokens) ∧
     (∀ u, users st !! np_userId p = Some u →
        d_threw (sendNotification env p st) = true ↔
        ∃ j t, default [] (user_fcmTokens u) !! j = Some t ∧
               invalid_answer (gateway env j t) = true) ∧
     (users st !! np_userId p = None → doc_id (np_userId p) = true →
        d_threw (sendNotification env p st) = false)) ∧
  (notif_set_ok env = false →
     sendNotification env p st =
       {| d_threw := true; d_attempts := []; d_store := st |}).
Proof.
  split.
  - intros Hok.
    split; [by rewrite sendNotification_store, Hok|].
    split; [by apply sendNotification_attempts|].
    split.
    + intros u Hu. rewrite sendNotification_threw, Hu by done.
      rewrite negb_true_iff, bool_decide_eq_false.
      set (ts := default [] (user_fcmTokens u)). split.
      * intros Hd. destruct (dropped (gateway env) 0 ts) as [|t l] eqn:Hdr; [done|].
        assert (t ∈ dropped (gateway env) 0 ts) as [j Hj]%dropped_elem
          by (rewrite Hdr; by left).
        by exists j, t.
      * intros (j & t & Hj) Hdr.
        assert (t ∈ dropped (gateway env) 0 ts) as Hin
          by (apply dropped_elem; by exists j).
        rewrite Hdr in Hin. by apply elem_of_nil in Hin.
    + intros Hu Hid. by rewrite sendNotification_threw, Hu, (doc_id_points_to_document _ Hid) by done.
  - intros Hok. unfold sendNotification. by rewrite Hok.
Qed.

Lemma sendNotification_durable_witness :
  d_threw (sendNotification Push.env_flaky Push.like_of_A Push.st_tokens) = true ∧
  users (d_store (sendNotification Push.env_flaky Push.like_of_A Push.st_tokens)) =
    users Push.st_tokens.
Proof.
  destruct (proj1 (sendNotification_durable Push.env_flaky Push.like_of_A
                     Push.st_tokens)) as (H1 & _ & H2 & _).
  - reflexivity.
  - split; [|by rewrite H1].
    apply (H2 (Scenario.user "R" (Some ["t1"; "t2"; "t3"]))).
    + vm_compute. reflexivity.
    + exists 1%nat, "t2". split; reflexivity.
Defined.

Lemma ntf_set_read_id n : ntf_read n = true → ntf_set_read n = n.
Proof. destruct n. simpl. by intros ->. Qed.

Lemma mark_all_read_fixed ids (m : gmap string Notification) :
  (∀ i n, i ∈ ids → m !! i = Some n → ntf_read n = true) →
  mark_all_read ids m = m.
Proof.
  intros H. apply map_eq. intros i. rewrite ntf_mark_lookup.
  case_bool_decide as Hi; [|done].
  destruct (m !! i) as [n|] eqn:Hn; [|done]. simpl.
  by rewrite (ntf_set_read_id n (H i n Hi Hn)).
Qed.

(** No reference of the loop throws when every listed id names a stored
    notification or is a document id. *)
Lemma existsb_doc_throws st ids :
  (∀ i, i ∈ ids → is_Some (notifications st !! i) ∨ doc_id i = true) →
  existsb (doc_throws st) ids = false.
Proof.
  induction ids as [|j ids IH]; simpl; [done|]. intros H.
  rewrite orb_false_iff. split.
  - unfold doc_throws. rewrite andb_false_iff, negb_false_iff, bool_decide_eq_false.
    destruct (H j) as [[n Hn]|Hj]; [by left| |].
    + left. by rewrite Hn.
    + right. by apply doc_id_points_to_document.
  - apply IH. intros i Hi. apply H. by right.
Qed.

(** The reference of a listed id that throws makes the loop throw. *)
Lemma existsb_doc_throws_elem st ids i :
  i ∈ ids → doc_throws st i = true → existsb (doc_throws st) ids = true.
Proof.
  intros Hi Ht. apply existsb_exists. exists i. split; [|done].
  by apply list_elem_of_In.
Qed.

(** Marking notifications read changes neither which ids are stored nor
    whose the notifications are. *)
Lemma doc_throws_mark T st ids :
  existsb (doc_throws (set_notifications (mark_all_read T) st)) ids =
    existsb (doc_throws st) ids.
Proof.
  induction ids as [|j ids IH]; simpl; [done|]. rewrite IH. f_equal.
  unfold doc_throws. simpl. f_equal. apply bool_decide_ext.
  rewrite ntf_mark_lookup. case_bool_decide; [|done].
  by destruct (notifications st !! j).
Qed.

Lemma owned_by_mark T st userId i :
  owned_by userId (set_notifications (mark_all_read T) st) i = owned_by userId st i.
Proof.
  unfold owned_by. simpl. rewrite ntf_mark_lookup. case_bool_decide; [|done].
  by destruct (notifications st !! i).
Qed.

(** *** Extra X17.
    Mark-notifications-read with a non-empty list of ids, each of which
    names a stored notification or is a document id, flips, when the batch
    commits, exactly the listed notifications that exist and belong to the
    user: a document id that names no notification, and a notification of
    another user, are passed over without an error, and nothing else
    changes.  A list that holds the empty string where no notification is
    stored under it makes the call reject. *)
Theorem markNotificationsAsRead_listed env userId ids st :
  (ids ≠ [] → commit_ok env = true →
   (∀ i, i ∈ ids → is_Some (notifications st !! i) ∨ doc_id i = true) →
   ∃ st', markNotificationsAsRead env userId (Some ids) st = Some st' ∧
     (∀ i n, notifications st !! i = Some n → i ∈ ids → ntf_userId n = userId →
             notifications st' !! i = Some (ntf_set_read n)) ∧
     (∀ i n, notifications st !! i = Some n → i ∉ ids ∨ ntf_userId n ≠ userId →
             notifications st' !! i = Some n) ∧
     (∀ i, notifications st !! i = None → notifications st' !! i = None) ∧
     users st' = users st ∧ chats st' = chats st ∧
     messages st' = messages st ∧ follows st' = follows st) ∧
  ("" ∈ ids → notifications st !! "" = None →
   markNotificationsAsRead env userId (Some ids) st = None).
Proof.
  split.
  - intros Hne Hok Hids0. unfold markNotificationsAsRead.
    change (default [] (Some ids)) with ids.
    rewrite bool_decide_eq_true_2 by (destruct ids; [done|simpl; lia]).
    rewrite (existsb_doc_throws st ids Hids0), Hok.
    eexists. split; [reflexivity|]. simpl.
    assert (Hids : ∀ i, i ∈ filter (λ i, owned_by userId st i = true) ids ↔
              i ∈ ids ∧ ∃ n, notifications st !! i = Some n ∧ ntf_userId n = userId).
    { intros i. rewrite list_elem_of_filter. unfold owned_by.
      destruct (notifications st !! i) as [n|].
      - rewrite bool_decide_eq_true. naive_solver.
      - naive_solver. }
    split; [|split; [|split]].
    + intros i n Hn Hi Hu. rewrite ntf_mark_lookup, Hn.
      rewrite bool_decide_eq_true_2; [done|]. apply Hids. eauto.
    + intros i n Hn Hor. rewrite ntf_mark_lookup, Hn.
      rewrite bool_decide_eq_false_2; [done|].
      intros [Hi (n' & Hn' & Hu)]%Hids. destruct Hor; congruence.
    + intros i Hn. rewrite ntf_mark_lookup, Hn. by case_bool_decide.
    + done.
  - intros Hin Hnone. unfold markNotificationsAsRead.
    change (default [] (Some ids)) with ids.
    rewrite bool_decide_eq_true_2
      by (destruct ids; [by apply elem_of_nil in Hin|simpl; lia]).
    rewrite (existsb_doc_throws_elem st ids "" Hin); [done|].
    unfold doc_throws. by rewrite Hnone.
Qed.

Lemma markNotificationsAsRead_listed_witness :
  ∃ st', markNotificationsAsRead Push.env_flaky "A" (Some ["n1"; "zz"])
           (d_store (sendNotification Push.env_flaky Push.like_of_A Push.st_tokens))
         = Some st' ∧
         ntf_read <$> notifications st' !! "n1" = Some false.
Proof.
  destruct (proj1 (markNotificationsAsRead_listed Push.env_flaky "A" ["n1"; "zz"]
              (d_store (sendNotification Push.env_flaky Push.like_of_A Push.st_tokens))))
    as (st' & H1 & _ & H2 & _).
  - discriminate.
  - reflexivity.
  - intros i Hi. right.
    apply elem_of_cons in Hi as [->|Hi]; [reflexivity|].
    apply elem_of_cons in Hi as [->|Hi]; [reflexivity|].
    by apply elem_of_nil in Hi.
  - exists st'. split; [exact H1|].
    rewrite (H2 "n1" (notification_of Push.env_flaky Push.like_of_A)).
    + reflexivity.
    + vm_compute. reflexivity.
    + right. discriminate.
Defined.

(** What flipping the notifications of a list [T] of notifications of the
    user leaves alone. *)
Lemma mark_all_read_scope T userId st :
  (∀ i, i ∈ T → ∃ n, notifications st !! i = Some n ∧ ntf_userId n = userId) →
  (∀ i n, notifications st !! i = Some n → ntf_userId n ≠ userId →
          mark_all_read T (notifications st) !! i = Some n) ∧
  (∀ i, mark_all_read T (notifications st) !! i = notifications st !! i ∨
        mark_all_read T (notifications st) !! i =
          ntf_set_read <$> notifications st !! i).
Proof.
  intros HT. split.
  - intros i n Hn Hu. rewrite ntf_mark_lookup, Hn.
    rewrite bool_decide_eq_false_2; [done|].
    intros (n' & Hn' & Hu')%HT. congruence.
  - intros i. rewrite ntf_mark_lookup. case_bool_decide; auto.
Qed.

(** *** Extra X18.
    In both of its forms mark-notifications-read, when it commits, leaves
    the notifications of every other user untouched, changes nothing but
    read flags, which it only sets, and is idempotent: the same call on the
    store it produced produces that store again.  When the batch does not
    commit nothing is written. *)
Theorem markNotificationsAsRead_scope env userId ids st :
  (commit_ok env = false → markNotificationsAsRead env userId ids st = None) ∧
  (∀ st', markNotificationsAsRead env userId ids st = Some st' →
     (∀ i n, notifications st !! i = Some n → ntf_userId n ≠ userId →
             notifications st' !! i = Some n) ∧
     (∀ i, notifications st' !! i = notifications st !! i ∨
           notifications st' !! i = ntf_set_read <$> notifications st !! i) ∧
     users st' = users st ∧ chats st' = chats st ∧
     messages st' = messages st ∧ follows st' = follows st ∧
     ∀ env', commit_ok env' = true →
             markNotificationsAsRead env' userId ids st' = Some st').
Proof.
  unfold markNotificationsAsRead. split.
  { intros ->. by destruct (if bool_decide _ then _ else _). }
  intros st' Hrun. set (l := default [] ids) in *.
  destruct (bool_decide (0 < length l)%nat) eqn:Hlen.
  - destruct (existsb (doc_throws st) l) eqn:Hex; [done|].
    destruct (commit_ok env); [|done]. injection Hrun as <-. simpl.
    set (T := filter (λ i, owned_by userId st i = true) l).
    assert (HT : ∀ i, i ∈ T →
              ∃ n, notifications st !! i = Some n ∧ ntf_userId n = userId).
    { intros i [Ho _]%list_elem_of_filter. unfold owned_by in Ho.
      destruct (notifications st !! i) as [n|]; [|done].
      apply bool_decide_eq_true in Ho. eauto. }
    destruct (mark_all_read_scope T userId st HT) as [H1 H2].
    split; [done|]. split; [done|]. do 4 (split; [done|]).
    intros env' Hok'. rewrite doc_throws_mark, Hex, Hok'.
    f_equal. unfold set_notifications. simpl. f_equal.
    rewrite (list_filter_iff _ (λ i, owned_by userId st i = true))
      by (intros i; by rewrite <- (owned_by_mark T st userId i)).
    fold T. apply mark_all_read_fixed. intros i n' Hi Hn'.
    rewrite ntf_mark_lookup, bool_decide_eq_true_2 in Hn' by done.
    destruct (notifications st !! i); [|done]. by injection Hn' as <-.
  - destruct (commit_ok env); [|done]. injection Hrun as <-. simpl.
    set (T := (filter (λ d : string * Notification,
                 ntf_userId d.2 = userId ∧ ntf_read d.2 = false)
                 (map_to_list (notifications st))).*1).
    assert (HT : ∀ i, i ∈ T →
              ∃ n, notifications st !! i = Some n ∧ ntf_userId n = userId).
    { intros i [[j n] [-> [[Hu _] Hn%elem_of_map_to_list]%list_elem_of_filter]]
        %list_elem_of_fmap. eauto. }
    destruct (mark_all_read_scope T userId st HT) as [H1 H2].
    split; [done|]. split; [done|]. do 4 (split; [done|]).
    intros env' Hok'. rewrite Hok'.
    f_equal. unfold set_notifications. simpl. f_equal.
    apply mark_all_read_fixed. intros i n' Hi Hn'.
    rewrite ntf_mark_lookup in Hn'.
    case_bool_decide as HiT.
    + destruct (notifications st !! i); [|done]. by injection Hn' as <-.
    + destruct (ntf_read n') eqn:Hr; [done|]. exfalso. apply HiT.
      revert Hi.
      intros [[j x] [Hj [[Hu Hrx] Hx%elem_of_map_to_list]%list_elem_of_filter]]
        %list_elem_of_fmap.
      simpl in Hj, Hu, Hrx, Hx. subst j.
      rewrite ntf_mark_lookup, Hn' in Hx.
      rewrite bool_decide_eq_false_2 in Hx by done. injection Hx as <-.
      apply list_elem_of_fmap. exists (i, n'). split; [done|].
      apply list_elem_of_filter. split; [done|]. by apply elem_of_map_to_list.
Qed.

Lemma markNotificationsAsRead_scope_witness :
  markNotificationsAsRead Push.env_flaky "R" None
    (set_notifications (mark_all_read ["n1"])
       (d_store (sendNotification Push.env_flaky Push.like_of_A Push.st_tokens)))
  = Some (set_notifications (mark_all_read ["n1"])
            (d_store (sendNotification Push.env_flaky Push.like_of_A Push.st_tokens))).
Proof.
  refine (proj2 (proj2 (proj2 (proj2 (proj2 (proj2 (proj2
            (markNotificationsAsRead_scope Push.env_flaky "R" None
               (d_store (sendNotification Push.env_flaky Push.like_of_A
                           Push.st_tokens))) _ _)))))) Push.env_flaky _).
  - vm_compute. reflexivity.
  - reflexivity.
Defined.

End DispatcherProperties.

(** ** Cursors *)

Section Cursors.

Context {A : Type} (createdAt : A → Z).





End Cursors.

Section NotificationPages.




(** *** Extra X21.
    After mark-notifications-read without a list has committed, every
    notification in every page of the user's notifications is read. *)
Theorem markAll_then_list env userId st st' limit lastId :
  markNotificationsAsRead env userId None st = Some st' →
  ∀ ns cursor more,
    getUserNotifications userId limit lastId st' = Some (ns, cursor, more) →
    ∀ n, n ∈ ns → ntf_read n = true.
Proof.
  unfold markNotificationsAsRead.
  change (default [] None) with (@nil string).
  rewrite bool_decide_eq_false_2 by (simpl; lia).
  destruct (commit_ok env); [|done].
  intros [= <-] ns cursor more. unfold getUserNotifications.
  destruct (run_query _ _ _ _ _) as [docs|] eqn:Hq; [|done].
  intros [= <- <- <-] n.
  intros [[i n'] [-> Hd]]%list_elem_of_fmap. simpl.
  eapply run_query_elem in Hd as [Hn Hp]; [|exact Hq].
  apply bool_decide_eq_true in Hp.
  simpl in Hn. rewrite ntf_mark_lookup in Hn.
  case_bool_decide as Hi.
  - destruct (notifications st !! i); [|done]. by injection Hn as <-.
  - destruct (ntf_read n') eqn:Hr; [done|]. exfalso. apply Hi.
    apply list_elem_of_fmap. exists (i, n'). split; [done|].
    apply list_elem_of_filter. split; [done|]. by apply elem_of_map_to_list.
Qed.

Lemma markAll_then_list_witness :
  ntf_read (ntf_set_read (notification_of Push.env_flaky Push.like_of_A)) = true.
Proof.
  refine (markAll_then_list Push.env_flaky "R"
            (d_store (sendNotification Push.env_flaky Push.like_of_A Push.st_tokens))
            _ None None _
            [ntf_set_read (notification_of Push.env_flaky Push.like_of_A)]
            (Some "n1") false _ _ _).
  - reflexivity.
  - vm_compute. reflexivity.
  - elem_of_concrete.
Defined.

End NotificationPages.

Section CursorScenario.


End CursorScenario.

(** ** Likes and comments *)

Section Likes.

Lemma post_set_likes_id p : post_set_likes (post_likes p) p = p.
Proof. by destruct p. Qed.

Lemma notify_like_posts env uid postId p s :
  posts (notify_like env uid postId p s).2 = posts s ∧
  comments (notify_like env uid postId p s).2 = comments s.
Proof.
  unfold notify_like. case_bool_decide; [done|].
  destruct (users (core s) !! uid); [|done].
  by destruct (d_threw _).
Qed.

Lemma alter_insert_Some {V} (f : V → V) (m : gmap string V) i x :
  m !! i = Some x → alter f i m = <[i := f x]> m.
Proof.
  intros H. apply map_eq. intros j. rewrite lookup_alter, lookup_insert.
  destruct (decide (i = j)) as [->|]; [by rewrite H|done].
Qed.

(** The posts and the comments after a like whose update committed. *)
Lemma likePost_posts_after env uid postId s p :
  posts s !! postId = Some p → uid ∉ post_likes p → commit_ok env = true →
  posts (likePost env uid postId s).2 =
    <[postId := post_set_likes (post_likes p ++ [uid]) p]> (posts s) ∧
  comments (likePost env uid postId s).2 = comments s.
Proof.
  intros Hp Hnot Hok. apply includes_false in Hnot.
  unfold likePost. rewrite Hp, Hnot, Hok.
  match goal with |- context [notify_like ?e ?u ?i ?pp ?ss] =>
    destruct (notify_like_posts e u i pp ss) as [-> ->] end.
  simpl. split; [|done]. by apply alter_insert_Some.
Qed.

(** *** Extra X22.
    A like of an existing post by a user who is not in its likes, with the
    update committing, appends the user to the likes of that post and
    changes no other post and no comment; likes without repetition stay
    without repetition.  A like of one's own post notifies nobody and
    answers 200.  A like of another user's post by a user with a user
    record answers 200 when the dispatch to the owner goes through, and
    then one notification of type like is stored for the owner; when the
    dispatch fails (the store refuses the notification record, or a
    delivery to a token of the owner is answered with an invalid-token
    error), or the liker has no user record, the answer is 500 although
    the like is stored. *)
Theorem likePost_effects env uid postId s p :
  posts s !! postId = Some p → uid ∉ post_likes p → commit_ok env = true →
  let r := likePost env uid postId s in
  posts r.2 = <[postId := post_set_likes (post_likes p ++ [uid]) p]> (posts s) ∧
  comments r.2 = comments s ∧
  (NoDup (post_likes p) → NoDup (post_likes p ++ [uid])) ∧
  (post_userId p = uid → status r.1 = 200%nat ∧ core r.2 = core s) ∧
  (post_userId p ≠ uid → is_Some (users (core s) !! uid) →
   dispatch_succeeds env (core s) (post_userId p) →
     status r.1 = 200%nat ∧
     ∃ n, notifications (core r.2) = <[notif_id env := n]> (notifications (core s)) ∧
          ntf_userId n = post_userId p ∧ ntf_type n = "like" ∧
          ntf_actorId n = uid ∧ ntf_read n = false) ∧
  (post_userId p ≠ uid →
   users (core s) !! uid = None ∨ dispatch_fails env (core s) (post_userId p) →
     status r.1 = 500%nat).
Proof.
  intros Hp Hnot Hok r. subst r.
  pose proof Hnot as Hinc. apply includes_false in Hinc.
  unfold likePost. rewrite Hp, Hinc, Hok.
  match goal with |- context [notify_like ?e ?u ?i ?pp ?ss] =>
    pose proof (notify_like_posts e u i pp ss) as [Hposts Hcomments] end.
  split.
  { rewrite Hposts. simpl. by apply alter_insert_Some. }
  split; [by rewrite Hcomments|].
  split.
  { intros Hnd. apply NoDup_app. split; [done|]. split.
    - intros x Hx [->|[]%elem_of_nil]%elem_of_cons. done.
    - apply NoDup_singleton. }
  unfold notify_like. simpl.
  split; [intros Hown; by rewrite bool_decide_eq_true_2|].
  split.
  - intros Hoth [u Hu] Hgo. rewrite bool_decide_eq_false_2 by done.
    rewrite Hu.
    match goal with |- context [sendNotification ?e ?pp ?ss] =>
      pose proof (sendNotification_succeeds e pp ss Hgo) as Hnt end.
    rewrite Hnt. simpl. split; [done|].
    eexists. split; [apply sendNotification_persists, Hgo|done].
  - intros Hoth Hfail. rewrite bool_decide_eq_false_2 by done.
    destruct (users (core s) !! uid) as [u|] eqn:Hu; [|done].
    destruct Hfail as [?|Hdown]; [done|].
    match goal with |- context [sendNotification ?e ?pp ?ss] =>
      pose proof (sendNotification_fails e pp ss Hdown) as Hnt end.
    by rewrite Hnt.
Qed.

Lemma likePost_effects_witness :
  status (likePost (Scenario.env 6 "" "n6") "A" "p1" Blog.site).1 = 200%nat ∧
  post_likes <$> posts Blog.site_liked !! "p1" = Some ["A"].
Proof.
  destruct (likePost_effects (Scenario.env 6 "" "n6") "A" "p1" Blog.site
              Blog.post_of_B) as (H1 & _ & _ & _ & H2 & _).
  - vm_compute. reflexivity.
  - not_elem_of_concrete.
  - reflexivity.
  - split.
    + apply H2; [discriminate|vm_compute; eauto|].
      split; [reflexivity|vm_compute; reflexivity].
    + unfold Blog.site_liked. rewrite H1. by rewrite lookup_insert_eq.
Defined.

(** *** Extra X23.
    A like of a post whose id is a document id that names no post is
    answered with 404 and a like by a user who is already in the likes of
    the post with 400, without writing anything; so after a like whose
    update committed, the same like again is answered with 400 and leaves
    the store as it is. *)
Theorem likePost_rejections env uid postId s :
  (doc_id postId = true → posts s !! postId = None →
     likePost env uid postId s = (fail 404 "Post not found", s)) ∧
  (∀ p, posts s !! postId = Some p → uid ∈ post_likes p →
     likePost env uid postId s = (fail 400 "Post already liked", s)) ∧
  (∀ p, posts s !! postId = Some p → uid ∉ post_likes p → commit_ok env = true →
     ∀ env', likePost env' uid postId (likePost env uid postId s).2 =
               (fail 400 "Post already liked", (likePost env uid postId s).2)).
Proof.
  assert (Hrej : ∀ e s0 p, posts s0 !! postId = Some p → uid ∈ post_likes p →
            likePost e uid postId s0 = (fail 400 "Post already liked", s0)).
  { intros e s0 p Hp Hin. apply includes_true in Hin.
    unfold likePost. by rewrite Hp, Hin. }
  split; [|split; [exact (Hrej env s)|]].
  - intros Hid Hp. unfold likePost. by rewrite Hp, (doc_id_points_to_document _ Hid).
  - intros p Hp Hnot Hok env'.
    apply (Hrej env' _ (post_set_likes (post_likes p ++ [uid]) p)).
    + pose proof Hnot as Hinc. apply includes_false in Hinc.
      unfold likePost. rewrite Hp, Hinc, Hok.
      rewrite (proj1 (notify_like_posts _ _ _ _ _)). simpl.
      rewrite (alter_insert_Some _ _ _ _ Hp). apply lookup_insert_eq.
    + simpl. apply elem_of_app. right. by left.
Qed.

Lemma likePost_rejections_witness :
  likePost (Scenario.env 7 "" "n7") "A" "p1" Blog.site_liked =
    (fail 400 "Post already liked", Blog.site_liked).
Proof.
  refine (proj2 (proj2 (likePost_rejections (Scenario.env 6 "" "n6") "A" "p1"
            Blog.site)) Blog.post_of_B _ _ _ (Scenario.env 7 "" "n7")).
  - vm_compute. reflexivity.
  - not_elem_of_concrete.
  - reflexivity.
Defined.

(** *** Extra X24.
    Unlike undoes like.  An unlike by a user who is not in the likes of the
    post is answered with 400, and of a post whose id is a document id that
    names no post with 404, without writing anything; an unlike that
    commits removes the user from the likes of the post and changes nothing
    else.  After a like whose update committed, an unlike of the same post
    by the same user answers 200 and leaves the posts and the comments
    exactly as they were before the like. *)
Theorem like_then_unlike env env' uid postId s :
  (doc_id postId = true → posts s !! postId = None →
     unlikePost env uid postId s = (fail 404 "Post not found", s)) ∧
  (∀ p, posts s !! postId = Some p → uid ∉ post_likes p →
     unlikePost env uid postId s = (fail 400 "Post not liked yet", s)) ∧
  (∀ p, posts s !! postId = Some p → uid ∈ post_likes p → commit_ok env = true →
     status (unlikePost env uid postId s).1 = 200%nat ∧
     posts (unlikePost env uid postId s).2 =
       <[postId := post_set_likes (filter (λ id, id ≠ uid) (post_likes p)) p]>
         (posts s) ∧
     comments (unlikePost env uid postId s).2 = comments s ∧
     core (unlikePost env uid postId s).2 = core s) ∧
  (∀ p, posts s !! postId = Some p → uid ∉ post_likes p →
     commit_ok env = true → commit_ok env' = true →
     let r := unlikePost env' uid postId (likePost env uid postId s).2 in
     status r.1 = 200%nat ∧ posts r.2 = posts s ∧ comments r.2 = comments s).
Proof.
  assert (Hun : ∀ e s0 p, posts s0 !! postId = Some p → uid ∈ post_likes p →
            commit_ok e = true →
            status (unlikePost e uid postId s0).1 = 200%nat ∧
            posts (unlikePost e uid postId s0).2 =
              <[postId := post_set_likes (filter (λ id, id ≠ uid) (post_likes p)) p]>
                (posts s0) ∧
            comments (unlikePost e uid postId s0).2 = comments s0 ∧
            core (unlikePost e uid postId s0).2 = core s0).
  { intros e s0 p Hp Hin Hok. apply includes_true in Hin.
    unfold unlikePost. rewrite Hp, Hin, Hok. simpl.
    split; [done|]. split; [|done]. by apply alter_insert_Some. }
  split; [|split; [|split; [exact (Hun env s)|]]].
  - intros Hid Hp. unfold unlikePost. by rewrite Hp, (doc_id_points_to_document _ Hid).
  - intros p Hp Hnot. apply includes_false in Hnot.
    unfold unlikePost. by rewrite Hp, Hnot.
  - intros p Hp Hnot Hok Hok' r.
    destruct (likePost_posts_after env uid postId s p Hp Hnot Hok)
      as [Hposts Hcomments].
    set (p1 := post_set_likes (post_likes p ++ [uid]) p) in *.
    assert (Hp1 : posts (likePost env uid postId s).2 !! postId = Some p1)
      by (rewrite Hposts; apply lookup_insert_eq).
    assert (Hin1 : uid ∈ post_likes p1)
      by (simpl; apply elem_of_app; right; by left).
    destruct (Hun env' _ p1 Hp1 Hin1 Hok') as (H200 & Hposts' & Hcomments' & _).
    subst r. split; [done|]. split; [|by rewrite Hcomments'].
    rewrite Hposts', Hposts, insert_insert_eq.
    assert (Hf : filter (λ id, id ≠ uid) (post_likes p ++ [uid])%list
                 = post_likes p).
    { rewrite filter_app, filter_cons_False, filter_nil by (by intros ?).
      rewrite app_nil_r. apply filter_all. by intros x Hx ->. }
    replace (post_set_likes (filter (λ id, id ≠ uid) (post_likes p1)) p1) with p;
      [by apply insert_id|].
    subst p1. simpl. rewrite Hf. by destruct p.
Qed.

Lemma like_then_unlike_witness :
  status (unlikePost (Scenario.env 7 "" "") "A" "p1" Blog.site_liked).1 = 200%nat ∧
  posts (unlikePost (Scenario.env 7 "" "") "A" "p1" Blog.site_liked).2
    = posts Blog.site.
Proof.
  destruct (proj2 (proj2 (proj2 (like_then_unlike (Scenario.env 6 "" "n6")
              (Scenario.env 7 "" "") "A" "p1" Blog.site))) Blog.post_of_B)
    as (H1 & H2 & _).
  - vm_compute. reflexivity.
  - not_elem_of_concrete.
  - reflexivity.
  - reflexivity.
  - split; [exact H1|exact H2].
Defined.

End Likes.

Section Comments.

Lemma comment_text_missing_iff text :
  negb (JS.truthy text) || bool_decide (JS.trim (JS.or_empty text) = "") = true ↔
  blank text.
Proof.
  unfold blank. rewrite orb_true_iff, negb_true_iff, bool_decide_eq_true.
  destruct text as [t|]; simpl.
  - rewrite trim_empty_iff. destruct t; simpl; naive_solver.
  - naive_solver.
Qed.

(** A comment that is answered with its body went through every check,
    and its transaction committed: this is what it answered and wrote. *)
Lemma commentPost_success env uid postId text s code c :
  (commentPost env uid postId text s).1 = Success code c →
  ∃ t p u,
    text = Some t ∧ ¬ blank text ∧
    posts s !! postId = Some p ∧ users (core s) !! uid = Some u ∧
    code = 201%nat ∧ c = commentData_of env uid postId t u ∧
    comments (commentPost env uid postId text s).2 =
      <[auto_id env := c]> (comments s) ∧
    posts (commentPost env uid postId text s).2 =
      <[postId := post_set_commentCount (post_commentCount p + 1) p]> (posts s) ∧
    (post_userId p = uid → core (commentPost env uid postId text s).2 = core s) ∧
    (post_userId p ≠ uid →
       ∃ n, core (commentPost env uid postId text s).2 =
              set_notifications (<[notif_id env := n]>) (core s) ∧
            ntf_userId n = post_userId p ∧ ntf_type n = "comment" ∧
            ntf_actorId n = uid ∧
            ntf_data n = [("postId", postId); ("commentId", auto_id env)]).
Proof.
  unfold commentPost.
  destruct (negb (JS.truthy text) || _) eqn:Hv; [done|].
  assert (Hb : ¬ blank text).
  { intros Hb%comment_text_missing_iff. congruence. }
  destruct (posts s !! postId) as [p|] eqn:Hp; [|by destruct (points_to_document postId)].
  destruct (users (core s) !! uid) as [u|] eqn:Hu; [|by destruct (points_to_document uid)].
  destruct (commit_ok env); [|done].
  unfold comment_transaction. rewrite Hp.
  destruct text as [t|]; [|by destruct Hb].
  change (JS.or_empty (Some t)) with t.
  destruct (decide (post_userId p = uid)) as [Hown|Hoth].
  - rewrite bool_decide_eq_true_2 by done. simpl. intros [= <- <-].
    exists t, p, u. do 6 (split; [done|]). split; [done|].
    split; [apply alter_insert_Some; exact Hp|]. by split.
  - rewrite bool_decide_eq_false_2 by done.
    match goal with |- context [sendNotification ?e ?pp ?ss] =>
      pose proof (sendNotification_store e pp ss) as Hst;
      pose proof (sendNotification_returned e pp ss) as Hgo end.
    destruct (d_threw _); [done|]. simpl. intros [= <- <-].
    rewrite (Hgo eq_refl) in Hst.
    exists t, p, u. do 6 (split; [done|]). split; [done|].
    split; [apply alter_insert_Some; exact Hp|]. split; [done|].
    intros _. eexists. split; [exact Hst|done].
Qed.

(** *** Extra X25.
    A comment whose text is absent, empty or white space only is answered
    with 400 before anything is read.  A comment that is answered with its
    body is answered with 201 and the comment stored: one comment carrying
    the text, the author and the post has been added, and the comment count
    of the post has been set to the count read plus one, every other field
    of the post, every other post and every other comment being as before.
    On one's own post nobody is notified; on another user's post one
    notification of type comment, carrying the post id and the comment id,
    has been stored for the owner. *)
Theorem commentPost_effects env uid postId s :
  (∀ text, blank text →
     commentPost env uid postId text s = (Failure 400 "Comment text is required", s)) ∧
  (∀ text code c,
     let r := commentPost env uid postId text s in
     r.1 = Success code c →
     ∃ p, posts s !! postId = Some p ∧
     code = 201%nat ∧
     comments r.2 = <[auto_id env := c]> (comments s) ∧
     posts r.2 =
       <[postId := post_set_commentCount (post_commentCount p + 1) p]> (posts s) ∧
     Some (cmt_text c) = text ∧ cmt_userId c = uid ∧ cmt_postId c = postId ∧
     cmt_commentId c = auto_id env ∧
     (post_userId p = uid → core r.2 = core s) ∧
     (post_userId p ≠ uid →
        ∃ n, notifications (core r.2) =
               <[notif_id env := n]> (notifications (core s)) ∧
             ntf_userId n = post_userId p ∧ ntf_type n = "comment" ∧
             ntf_actorId n = uid ∧
             ntf_data n = [("postId", postId); ("commentId", auto_id env)])).
Proof.
  split.
  - intros text Hb. apply comment_text_missing_iff in Hb.
    unfold commentPost. by rewrite Hb.
  - intros text code c r Hr.
    destruct (commentPost_success env uid postId text s code c Hr)
      as (t & p & u & -> & _ & Hp & _ & -> & -> & Hcs & Hps & Hown & Hoth).
    exists p. split; [done|]. split; [done|]. split; [exact Hcs|].
    split; [exact Hps|]. do 4 (split; [done|]). split; [exact Hown|].
    intros Hne. destruct (Hoth Hne) as (n & Hn & Hrest).
    exists n. split; [|exact Hrest]. subst r. by rewrite Hn.
Qed.

Lemma commentPost_effects_witness :
  post_commentCount <$>
    posts (commentPost (Scenario.env 7 "c1" "n7") "A" "p1" (Some "nice")
             Blog.site).2 !! "p1" = Some 1 ∧
  ∃ n, notifications (core (commentPost (Scenario.env 7 "c1" "n7") "A" "p1"
                              (Some "nice") Blog.site).2) = <["n7" := n]> ∅ ∧
       ntf_userId n = "B".
Proof.
  destruct (proj2 (commentPost_effects (Scenario.env 7 "c1" "n7") "A" "p1" Blog.site)
              (Some "nice") 201%nat
              (commentData_of (Scenario.env 7 "c1" "n7") "A" "p1" "nice"
                 (Scenario.user "A" None)))
    as (p & Hp & _ & _ & H1 & _ & _ & _ & _ & _ & H2).
  - vm_compute. reflexivity.
  - assert (p = Blog.post_of_B) as ->.
    { assert (posts Blog.site !! "p1" = Some Blog.post_of_B) as Hq
        by (vm_compute; reflexivity).
      rewrite Hq in Hp. by injection Hp. }
    split.
    + rewrite H1. by rewrite lookup_insert_eq.
    + destruct H2 as (n & Hn & Hu & _); [discriminate|].
      exists n. split; [exact Hn|exact Hu].
Defined.

(** In a collection to which a document newer than every matching
    document has been added, the first page starts with that document. *)
Lemma newest_first {A} (createdAt : A → Z) (coll : gmap string A) p n i x :
  (0 < n)%nat → p x = true →
  (∀ j y, j ≠ i → coll !! j = Some y → p y = true → createdAt y < createdAt x) →
  ∃ docs, run_query createdAt (<[i := x]> coll) p n None = Some docs ∧
          head docs = Some (i, x).
Proof.
  intros Hn Hp Hnew.
  rewrite run_query_from_top by (by left).
  eexists. split; [reflexivity|].
  pose proof (order_desc_sorted createdAt
                (filter (λ d, p d.2 = true) (map_to_list (<[i := x]> coll)))) as Hs.
  assert (Hin : (i, x) ∈ candidates createdAt (<[i := x]> coll) p).
  { apply candidates_elem. split; [apply lookup_insert_eq|done]. }
  fold (candidates createdAt (<[i := x]> coll) p) in Hs.
  destruct (candidates createdAt (<[i := x]> coll) p) as [|h t] eqn:Hc.
  { by apply elem_of_nil in Hin. }
  destruct n as [|n]; [lia|]. simpl. f_equal.
  apply elem_of_cons in Hin as [Hin|Hin]; [done|].
  apply StronglySorted_cons in Hs as [Hall _].
  rewrite Forall_forall in Hall. specialize (Hall _ Hin).
  assert (Hh : h ∈ candidates createdAt (<[i := x]> coll) p)
    by (rewrite Hc; by left).
  destruct h as [j y]. apply candidates_elem in Hh as [Hj Hy].
  destruct (decide (j = i)) as [->|Hne].
  - rewrite lookup_insert_eq in Hj. by injection Hj as ->.
  - rewrite lookup_insert_ne in Hj by done.
    specialize (Hnew j y Hne Hj Hy).
    unfold at_or_before in Hall. simpl in Hall. lia.
Qed.

(** *** Extra X26.
    The comments of a post whose id is a document id that names no post
    are answered with 404.  A comment added later than every comment of the
    post comes first in the comments of the post: after a comment that was
    answered with its body, made at a clock value above the creation times
    of the comments of the post, the first page of the comments of that
    post, of any positive size, starts with that comment. *)
Theorem comment_then_getComments env uid postId text s limit :
  (doc_id postId = true → posts s !! postId = None →
     getComments postId limit None s = Failure 404 "Post not found") ∧
  (∀ code c,
   (commentPost env uid postId text s).1 = Success code c →
   (0 < parseInt_limit limit)%nat →
   (∀ j c', comments s !! j = Some c' → cmt_postId c' = postId →
            cmt_createdAt c' < now env) →
   ∃ cs cursor more,
     getComments postId limit None (commentPost env uid postId text s).2
       = Success 200 (cs, cursor, more) ∧
     head cs = Some c).
Proof.
  split.
  - intros Hid Hp. unfold getComments. by rewrite Hp, (doc_id_points_to_document _ Hid).
  - intros code c Hr Hn Hnew.
    destruct (commentPost_success env uid postId text s code c Hr)
      as (t & p & u & -> & _ & Hp & _ & -> & Hc & Hcs & Hps & _).
    unfold getComments. rewrite Hps, lookup_insert_eq, Hcs.
    destruct (newest_first cmt_createdAt (comments s)
                (λ c0, bool_decide (cmt_postId c0 = postId))
                (parseInt_limit limit) (auto_id env) c) as (docs & -> & Hhead).
    + done.
    + rewrite Hc. simpl. by apply bool_decide_eq_true.
    + intros j c' _ Hj Hc'. apply bool_decide_eq_true in Hc'.
      rewrite Hc. simpl. by apply (Hnew j c').
    + eexists _, _, _. split; [reflexivity|].
      by destruct docs as [|[] ?]; simplify_eq/=.
Qed.

Lemma comment_then_getComments_witness :
  ∃ cs cursor more,
    getComments "p1" None None
      (commentPost (Scenario.env 7 "c1" "n7") "A" "p1" (Some "nice") Blog.site).2
      = Success 200 (cs, cursor, more) ∧
    head cs = Some (commentData_of (Scenario.env 7 "c1" "n7") "A" "p1" "nice"
                      (Scenario.user "A" None)).
Proof.
  refine (proj2 (comment_then_getComments (Scenario.env 7 "c1" "n7") "A" "p1"
            (Some "nice") Blog.site None) 201%nat _ _ _ _).
  - vm_compute. reflexivity.
  - simpl. lia.
  - intros j c H. vm_compute in H. discriminate H.
Defined.

End Comments.
